(** * tinymodel3: the character buffer, cursor, semigraphics and memory map
      of [src/lib/tinymodel3.py] (class [Runtime])

    The Python class is embedded as a record [Runtime] together with a small
    state-and-exception monad [M]: a method of the class is a computation
    [M A] that reads and writes the fields of [self] and either returns or
    raises.

    - Integers are [Z]; [%] is [Z.modulo] (the sign of the divisor, as in
      Python), [int(a/b)] is truncation of the quotient ([Py.int_div]),
      [&], [|], [^], [<<] are [Z.land], [Z.lor], [Z.lxor], [Z.shiftl].
    - [self.chars] is a [list Z] read and written with Python's indexing
      ([Py.getitem], [Py.setitem]): negative indices count from the end and
      an index out of range raises [IndexError].
    - [assert] raises [AssertionError]; an unsupported mode raises
      [ValueError].
    - The display is outside the class.  Each call made on
      [self.chars_bitmap] ([bitmaptools.fill_region], [self._blit],
      [Bitmap.fill]) is appended to the field [chars_bitmap] as a [draw_op];
      the font is a function from code points to glyph metrics, handed to
      [__init__] by [load_font].
    - The fields used only to set the display up (sizes, margins, colours)
      and the methods [delay] and [wait] are left out: none of the
      properties below reads them.
    - The line editor [_input] reads a clock and the serial line: what each
      turn of its loop reads is supplied as a [tick], and the fields
      [demoInput] and [demoInputPos] are kept beside the record, in [Demo].
    - [line], [demo_2] and [demo_4] of [src/demos-code.py] act on the
      module's global [runtime], which is the state of [M]. *)

From Stdlib Require Import ZArith Lia String.
From stdpp Require Import base list.

Local Open Scope Z_scope.

(** ** Exceptions and outcomes *)

Inductive exn : Set :=
| AssertionError
| IndexError
| ValueError.

Inductive outcome (A : Type) : Type :=
| Ok (a : A)
| Raise (e : exn).
Arguments Ok {A} a.
Arguments Raise {A} e.

(** ** Python lists *)

Module Py.

(** [l[i]] accepts [-len(l) <= i < len(l)]; a negative index counts from
    the end; anything else raises [IndexError]. *)
Definition index {A} (l : list A) (i : Z) : option nat :=
  let n := Z.of_nat (length l) in
  if (0 <=? i) && (i <? n) then Some (Z.to_nat i)
  else if (- n <=? i) && (i <? 0) then Some (Z.to_nat (n + i))
  else None.

Definition getitem {A} (l : list A) (i : Z) : outcome A :=
  match index l i with
  | Some k => match l !! k with Some x => Ok x | None => Raise IndexError end
  | None => Raise IndexError
  end.

Definition setitem {A} (l : list A) (i : Z) (x : A) : outcome (list A) :=
  match index l i with
  | Some k => Ok (<[k := x]> l)
  | None => Raise IndexError
  end.

(** [range(lo, hi)] *)
Definition range (lo hi : Z) : list Z := seqZ lo (hi - lo).

(** [int(a / b)] on integers: true division followed by truncation toward
    zero.  For the magnitudes that occur here (below [2^53]) the float
    quotient truncates to the integer quotient. *)
Definition int_div (a b : Z) : Z := Z.quot a b.

(** [range(lo, hi, step)]: the values [lo + i*step] before [hi] (after
    [hi] for a negative step); a zero step raises [ValueError]. *)
Definition range_step (lo hi step : Z) : outcome (list Z) :=
  if step =? 0 then Raise ValueError
  else if 0 <? step then
    Ok (map (fun i => lo + i * step) (seqZ 0 ((hi - lo + step - 1) / step)))
  else
    Ok (map (fun i => lo + i * step)
          (seqZ 0 ((lo - hi - step - 1) / (- step)))).

End Py.

(** ** The display side: font and bitmap operations *)

Record Glyph : Set := mkGlyph {
  dx : Z;
  dy : Z;
  width : Z;
  height : Z;
  tile_index : Z
}.

(** One entry per call made on [self.chars_bitmap]. *)
Inductive draw_op : Set :=
| FillRegion (x1 y1 x2 y2 value : Z)
    (* bitmaptools.fill_region(chars_bitmap, x1, y1, x2, y2, value) *)
| BlitGlyph (x y : Z) (code : Z) (x_1 y_1 x_2 y_2 : Z)
    (* self._blit(chars_bitmap, x, y, glyph.bitmap, x_1.., skip_index=0),
       glyph = font.get_glyph(0xE000+code) *)
| BlitSelf (x y : Z) (x_1 y_1 x_2 y_2 : Z)
    (* self._blit(chars_bitmap, x, y, chars_bitmap, x_1.., skip_index=None) *)
| Fill (value : Z).
    (* chars_bitmap.fill(value) *)

(** ** The Runtime object *)

Record Runtime : Type := mkRuntime {
  line_width : Z;
  line_count : Z;
  char_width : Z;
  char_height : Z;
  char_descent : Z;
  font : Z -> option Glyph;
  chars_len : Z;
  chars : list Z;
  cursor : Z;
  chars_bitmap : list draw_op
}.

Definition with_chars (self : Runtime) (cs : list Z) : Runtime :=
  mkRuntime (line_width self) (line_count self) (char_width self)
    (char_height self) (char_descent self) (font self) (chars_len self)
    cs (cursor self) (chars_bitmap self).

Definition with_cursor (self : Runtime) (p : Z) : Runtime :=
  mkRuntime (line_width self) (line_count self) (char_width self)
    (char_height self) (char_descent self) (font self) (chars_len self)
    (chars self) p (chars_bitmap self).

Definition with_drawn (self : Runtime) (op : draw_op) : Runtime :=
  mkRuntime (line_width self) (line_count self) (char_width self)
    (char_height self) (char_descent self) (font self) (chars_len self)
    (chars self) (cursor self) (chars_bitmap self ++ [op]).

(** ** The monad of methods *)

Definition M (A : Type) : Type := Runtime -> outcome (A * Runtime).

Definition ret {A} (a : A) : M A := fun self => Ok (a, self).

Definition bind {A B} (m : M A) (k : A -> M B) : M B :=
  fun self =>
    match m self with
    | Ok (a, self') => k a self'
    | Raise e => Raise e
    end.

Definition raise {A} (e : exn) : M A := fun _ => Raise e.

Declare Scope method_scope.
Delimit Scope method_scope with method.
Notation "'let*' x ':=' m 'in' k" := (bind m (fun x => k))
  (at level 10, x name, m at level 100, k at level 200) : method_scope.
Notation "m ';;;' k" := (bind m (fun _ => k))
  (at level 100, k at level 200, right associativity) : method_scope.
Local Open Scope method_scope.

Definition get {A} (f : Runtime -> A) : M A := fun self => Ok (f self, self).
Definition modify (f : Runtime -> Runtime) : M unit := fun self => Ok (tt, f self).
Definition lift {A} (o : outcome A) : M A :=
  fun self => match o with Ok a => Ok (a, self) | Raise e => Raise e end.

Definition assert (b : bool) : M unit :=
  if b then ret tt else raise AssertionError.

(** [self.chars[pos]] and [self.chars[pos] = v] *)
Definition chars_get (pos : Z) : M Z :=
  let* cs := get chars in lift (Py.getitem cs pos).

Definition chars_set (pos v : Z) : M unit :=
  let* cs := get chars in
  let* cs' := lift (Py.setitem cs pos v) in
  modify (fun self => with_chars self cs').

Definition draw (op : draw_op) : M unit :=
  modify (fun self => with_drawn self op).

(** [for x in xs: body(x)] *)
Fixpoint for_each {A} (xs : list A) (body : A -> M unit) : M unit :=
  match xs with
  | [] => ret tt
  | x :: xs' => body x ;;; for_each xs' body
  end.

(** ** Construction: [Runtime.__init__] *)

(** The tail of [__init__], once the geometry and the font are chosen: an
    all-blank buffer, the cursor at 0 and an untouched bitmap. *)
Definition new_runtime (lw lc cw ch cd : Z) (f : Z -> option Glyph) : Runtime :=
  {| line_width := lw; line_count := lc;
     char_width := cw; char_height := ch; char_descent := cd;
     font := f;
     chars_len := lw * lc;
     chars := replicate (Z.to_nat (lw * lc)) 32;
     cursor := 0;
     chars_bitmap := [] |}.

Definition __init__ (load_font : string -> Z -> option Glyph) (mode : Z)
  : outcome Runtime :=
  if mode =? 64 then
    Ok (new_runtime 64 16 4 12 5
          (load_font "fonts/AnotherMansTreasureMIII64C.pcf"%string))
  else if mode =? 32 then
    Ok (new_runtime 32 16 8 12 5
          (load_font "fonts/AnotherMansTreasureMIII32C.pcf"%string))
  else Raise ValueError.

(** ** Private methods *)

Definition _update_char (pos char : Z) : M unit :=
  assert ((0 <=? char) && (char <? 256)) ;;;
  let* old := chars_get pos in
  if old =? char then ret tt else
  chars_set pos char ;;;
  let* f := get font in
  match f (0xE000 + char) with
  | None => raise AssertionError
  | Some glyph =>
    let* lw := get line_width in
    let* lc := get line_count in
    let* cw := get char_width in
    let* ch := get char_height in
    let* cd := get char_descent in
    let x := (pos mod lw) * cw in
    let y := Py.int_div pos lw * ch in
    draw (FillRegion x y (x + cw) (y + ch) 0) ;;;
    let x_off := dx glyph in
    let y_off := - cd + ch - height glyph - dy glyph in
    assert ((0 <=? x + x_off) && (x + x_off <? lw * cw)) ;;;
    assert ((0 <=? y + y_off) && (y + y_off <? lc * ch)) ;;;
    draw (BlitGlyph (x + x_off) (y + y_off) char
            (tile_index glyph * width glyph) 0
            (tile_index glyph * width glyph + width glyph) (height glyph))
  end.

Definition _scroll : M unit :=
  let* n := get chars_len in
  let* lw := get line_width in
  let* lc := get line_count in
  let* cw := get char_width in
  let* ch := get char_height in
  for_each (Py.range 0 (n - lw)) (fun i =>
    let* v := chars_get (i + lw) in chars_set i v) ;;;
  for_each (Py.range (n - lw) n) (fun i => chars_set i 32) ;;;
  draw (BlitSelf 0 0 0 ch (lw * cw) (lc * ch)) ;;;
  draw (FillRegion 0 ((lc - 1) * ch) (lw * cw) (lc * ch) 0).

Definition _cls : M unit :=
  draw (Fill 0) ;;;
  let* n := get chars_len in
  for_each (Py.range 0 n) (fun i => chars_set i 32) ;;;
  modify (fun self => with_cursor self 0).

(** ** Public methods *)

Definition cls : M unit := _cls.

(** A Python [str] is taken as the list of its code points, so that
    [ord(text[i])] is the [i]-th element. *)
Definition str : Set := list Z.

(** The body of the loop of [print], for the character of code [c].  The
    fields that every branch reads on entry ([cursor], [chars_len],
    [line_width], [line_count]) are read once, before the branch is chosen. *)
Definition print_char (c : Z) : M unit :=
  let* cur := get cursor in
  let* n := get chars_len in
  let* lw := get line_width in
  let* lc := get line_count in
  if c =? 8 then
    let cur' := (cur - 1 + n) mod n in
    modify (fun self => with_cursor self cur') ;;;
    _update_char cur' 32
  else if (c =? 10) || (c =? 13) then
    let cursor_row := Py.int_div cur lw in
    let cursor_col := cur mod lw in
    for_each (Py.range 0 (lw - cursor_col)) (fun i => _update_char (cur + i) 32) ;;;
    (if cursor_row <? lc - 1 then
       modify (fun self => with_cursor self ((cursor_row + 1) * lw))
     else
       _scroll ;;;
       modify (fun self => with_cursor self (cursor_row * lw)))
  else if c =? 24 then
    let cursor_row := Py.int_div cur lw in
    let cursor_col := cur mod lw in
    let cursor_col := (cursor_col - 1 + lw) mod lw in
    modify (fun self => with_cursor self (cursor_row * lw + cursor_col))
  else if c =? 25 then
    let cursor_row := Py.int_div cur lw in
    let cursor_col := cur mod lw in
    let cursor_col := (cursor_col + 1) mod lw in
    modify (fun self => with_cursor self (cursor_row * lw + cursor_col))
  else if c =? 26 then
    let cursor_row := Py.int_div cur lw in
    let cursor_col := cur mod lw in
    let cursor_row := (cursor_row + 1) mod lc in
    modify (fun self => with_cursor self (cursor_row * lw + cursor_col))
  else if c =? 27 then
    let cursor_row := Py.int_div cur lw in
    let cursor_col := cur mod lw in
    let cursor_row := (cursor_row - 1 + lc) mod lc in
    modify (fun self => with_cursor self (cursor_row * lw + cursor_col))
  else if c =? 28 then
    modify (fun self => with_cursor self 0)
  else if c =? 29 then
    let cursor_row := Py.int_div cur lw in
    modify (fun self => with_cursor self (cursor_row * lw))
  else if c =? 30 then
    let cursor_col := cur mod lw in
    for_each (Py.range 0 (lw - cursor_col)) (fun i => _update_char (cur + i) 32)
  else if c =? 31 then
    for_each (Py.range 0 (n - cur)) (fun i => _update_char (cur + i) 32)
  else if (191 <=? c) && (c <? 256) then
    let cursor_row := Py.int_div cur lw in
    let cursor_col := cur mod lw in
    let tab_col := c - 191 in
    let cursor_col := if cursor_col <? tab_col then tab_col else cursor_col in
    modify (fun self => with_cursor self (cursor_row * lw + cursor_col))
  else
    _update_char cur c ;;;
    modify (fun self => with_cursor self (cur + 1)) ;;;
    if n <=? cur + 1 then
      _scroll ;;;
      modify (fun self => with_cursor self ((lc - 1) * lw))
    else ret tt.

Definition print (text : str) : M unit := for_each text print_char.

Definition print_at (pos : Z) (text : str) : M unit :=
  let* lw := get line_width in
  let* lc := get line_count in
  assert ((0 <=? pos) && (pos <? lw * lc)) ;;;
  modify (fun self => with_cursor self pos) ;;;
  print text.

Definition tab (n : Z) : M str :=
  assert ((0 <=? n) && (n <? 64)) ;;;
  ret [191 + n].

(** The cell and the bit a pixel lives in, as [set], [reset] and [point]
    compute them. *)
Definition pixel_pos (lw x y : Z) : Z := Py.int_div y 3 * lw + Py.int_div x 2.
Definition pixel_bit (x y : Z) : Z := 2 * (y mod 3) + x mod 2.

Definition set (x y : Z) : M unit :=
  let* lw := get line_width in
  let* lc := get line_count in
  assert ((0 <=? x) && (x <? lw * 2)) ;;;
  assert ((0 <=? y) && (y <? lc * 3)) ;;;
  let pos := pixel_pos lw x y in
  let* b := chars_get pos in
  let b := if Z.land b 0x80 =? 0 then 0x80 else b in
  let b := Z.lor b (Z.shiftl 1 (pixel_bit x y)) in
  _update_char pos b.

Definition reset (x y : Z) : M unit :=
  let* lw := get line_width in
  let* lc := get line_count in
  assert ((0 <=? x) && (x <? lw * 2)) ;;;
  assert ((0 <=? y) && (y <? lc * 3)) ;;;
  let pos := pixel_pos lw x y in
  let* b := chars_get pos in
  let b := if Z.land b 0x80 =? 0 then 0x80 else b in
  let b := Z.land b (Z.lxor 0xFFFF (Z.shiftl 1 (pixel_bit x y))) in
  _update_char pos b.

Definition point (x y : Z) : M bool :=
  let* lw := get line_width in
  let* lc := get line_count in
  assert ((0 <=? x) && (x <? lw * 2)) ;;;
  assert ((0 <=? y) && (y <? lc * 3)) ;;;
  let pos := pixel_pos lw x y in
  let* b := chars_get pos in
  if Z.land b 0x80 =? 0 then ret false
  else ret (0 <? Z.land b (Z.shiftl 1 (pixel_bit x y))).

Definition peek (addr : Z) : M Z :=
  let* n := get chars_len in
  if (15360 <=? addr) && (addr <? 15360 + n) then
    chars_get (addr - 15360)
  else ret 0.

Definition poke (addr val : Z) : M unit :=
  let* n := get chars_len in
  if (15360 <=? addr) && (addr <? 15360 + n) then
    _update_char (addr - 15360) val
  else ret tt.

(** ** Conventions of the statements *)

(** [returns m self Q]: run from [self], the method [m] returns normally,
    and its value and final state satisfy [Q]. *)
Definition returns {A} (m : M A) (self : Runtime) (Q : A -> Runtime -> Prop)
  : Prop :=
  exists a self', m self = Ok (a, self') /\ Q a self'.

(** The geometry and the font never change after construction. *)
Definition same_setup (a b : Runtime) : Prop :=
  line_width b = line_width a /\ line_count b = line_count a /\
  char_width b = char_width a /\ char_height b = char_height a /\
  char_descent b = char_descent a /\ font b = font a /\
  chars_len b = chars_len a.

(** The glyph passes the two placement assertions of [_update_char] in every
    cell. *)
Definition glyph_fits (self : Runtime) (g : Glyph) : Prop :=
  0 <= dx g < char_width self /\
  0 <= - char_descent self + char_height self - height g - dy g
    < char_height self.

(** What holds of every Runtime that [__init__] builds and the methods keep:
    a positive geometry, a buffer of [chars_len] cell codes in [0,256), and a
    font with a fitting glyph at [0xE000+c] for every cell code [c]. *)
Record wf (self : Runtime) : Prop := mk_wf {
  wf_width : 0 < line_width self;
  wf_count : 0 < line_count self;
  wf_len : chars_len self = line_width self * line_count self;
  wf_length : Z.of_nat (length (chars self)) = chars_len self;
  wf_cells : Forall (fun c => 0 <= c < 256) (chars self);
  wf_font : forall c, 0 <= c < 256 ->
            exists g, font self (0xE000 + c) = Some g /\ glyph_fits self g
}.

(** The cursor is an index of the buffer. *)
Definition cursor_ok (self : Runtime) : Prop :=
  0 <= cursor self < chars_len self.

(** The cell at a (non-negative) index. *)
Definition cell (self : Runtime) (k : Z) : option Z :=
  chars self !! Z.to_nat k.

(** The bitmap operations by which [_update_char] redraws one cell. *)
Definition redraw (self : Runtime) (pos char : Z) (g : Glyph) : list draw_op :=
  let x := (pos mod line_width self) * char_width self in
  let y := Py.int_div pos (line_width self) * char_height self in
  let x_off := dx g in
  let y_off := - char_descent self + char_height self - height g - dy g in
  [ FillRegion x y (x + char_width self) (y + char_height self) 0;
    BlitGlyph (x + x_off) (y + y_off) char
      (tile_index g * width g) 0 (tile_index g * width g + width g) (height g) ].

Definition is_blit_glyph (op : draw_op) : bool :=
  match op with BlitGlyph _ _ _ _ _ _ _ => true | _ => false end.

Definition is_blit_self (op : draw_op) : bool :=
  match op with BlitSelf _ _ _ _ _ _ => true | _ => false end.

(** Number of per-cell redraws, and of scrolls, recorded on the bitmap. *)
Definition redraws (self : Runtime) : nat :=
  length (List.filter is_blit_glyph (chars_bitmap self)).

Definition scrolls (self : Runtime) : nat :=
  length (List.filter is_blit_self (chars_bitmap self)).

(** The code a pixel operation starts from: the cell's own code when it is
    already a graphics code, the baseline [0x80] otherwise. *)
Definition base (b : Z) : Z := if Z.testbit b 7 then b else 0x80.

(** The state [_update_char pos char] leaves when the cell held another code
    and [g] is the glyph of [char]. *)
Definition updated (self : Runtime) (pos char : Z) (g : Glyph) : Runtime :=
  mkRuntime (line_width self) (line_count self) (char_width self)
    (char_height self) (char_descent self) (font self) (chars_len self)
    (<[Z.to_nat pos := char]> (chars self)) (cursor self)
    (chars_bitmap self ++ redraw self pos char g).

(** The state [_update_char pos char] returns in, as a function of [self]
    (lemma [update_char_eq]). *)
Definition update_char_result (self : Runtime) (pos char : Z) : Runtime :=
  if decide (cell self pos = Some char) then self
  else match font self (0xE000 + char) with
       | Some g => updated self pos char g
       | None => self
       end.

(** The state [_scroll] returns in (lemma [scroll_eq]): the rows move up by
    one, the last row is blank, and the bitmap is shifted and its last row
    cleared. *)
Definition scrolled (self : Runtime) : Runtime :=
  let lw := line_width self in
  let lc := line_count self in
  let cw := char_width self in
  let ch := char_height self in
  mkRuntime lw lc cw ch (char_descent self) (font self) (chars_len self)
    (drop (Z.to_nat lw) (chars self) ++ replicate (Z.to_nat lw) 32)
    (cursor self)
    (chars_bitmap self ++
       [BlitSelf 0 0 0 ch (lw * cw) (lc * ch);
        FillRegion 0 ((lc - 1) * ch) (lw * cw) (lc * ch) 0]).

(** The state [_cls] returns in (lemma [cls_eq]). *)
Definition cleared (self : Runtime) : Runtime :=
  mkRuntime (line_width self) (line_count self) (char_width self)
    (char_height self) (char_descent self) (font self) (chars_len self)
    (replicate (Z.to_nat (chars_len self)) 32) 0
    (chars_bitmap self ++ [Fill 0]).

(** A code that no branch of [print] interprets: it is drawn at the cursor. *)
Definition is_plain (c : Z) : Prop :=
  0 <= c < 191 /\ c <> 8 /\ c <> 10 /\ c <> 13 /\ ~ 24 <= c <= 31.

(** The mutating calls of the public interface, and their preconditions:
    the assertions of the methods, and codes that [_update_char] accepts. *)
Inductive call : Set :=
| Cls
| Print (text : str)
| PrintAt (pos : Z) (text : str)
| Poke (addr val : Z)
| SetPixel (x y : Z)
| ResetPixel (x y : Z).

Definition perform (c : call) : M unit :=
  match c with
  | Cls => cls
  | Print text => print text
  | PrintAt pos text => print_at pos text
  | Poke addr val => poke addr val
  | SetPixel x y => set x y
  | ResetPixel x y => reset x y
  end.

Definition cell_codes (text : str) : Prop :=
  Forall (fun c => 0 <= c < 256) text.

Definition precondition (self : Runtime) (c : call) : Prop :=
  match c with
  | Cls => True
  | Print text => cell_codes text
  | PrintAt pos text =>
      0 <= pos < line_width self * line_count self /\ cell_codes text
  | Poke addr val => 0 <= val < 256
  | SetPixel x y | ResetPixel x y =>
      0 <= x < line_width self * 2 /\ 0 <= y < line_count self * 3
  end.

(** Every tab code of the text names a column that the row has. *)
Definition tabs_in_row (self : Runtime) (text : str) : Prop :=
  Forall (fun c => 191 <= c -> c - 191 < line_width self) text.

Definition tabs_fit (self : Runtime) (c : call) : Prop :=
  match c with
  | Print text | PrintAt _ text => tabs_in_row self text
  | _ => True
  end.

(** The video memory window of [peek] and [poke]. *)
Definition in_window (self : Runtime) (addr : Z) : Prop :=
  15360 <= addr < 15360 + chars_len self.

(** A font for the examples: every code has the same 4x7 glyph, drawn at the
    top left of its cell. *)
Definition demo_font : string -> Z -> option Glyph :=
  fun _ _ => Some (mkGlyph 0 0 4 7 0).

Definition mode64 : Runtime :=
  new_runtime 64 16 4 12 5 (demo_font "fonts/AnotherMansTreasureMIII64C.pcf").

Definition mode32 : Runtime :=
  new_runtime 32 16 8 12 5 (demo_font "fonts/AnotherMansTreasureMIII32C.pcf").

(** The code points of a string of 8-bit characters. *)
Definition txt (s : string) : str :=
  map (fun a => Z.of_N (Ascii.N_of_ascii a)) (list_ascii_of_string s).

(** The 4 by 2 screen of the scenarios. *)
Definition small : Runtime := new_runtime 4 2 4 12 5 (demo_font "small").

(** Summary of one [_update_char pos char] run from [self]. *)
Definition cell_written (self : Runtime) (pos char : Z) (s' : Runtime) : Prop :=
  wf s' /\ same_setup self s' /\ cursor s' = cursor self /\
  chars s' = <[Z.to_nat pos := char]> (chars self) /\
  scrolls s' = scrolls self /\
  redraws s' =
    (redraws self + if decide (cell self pos = Some char) then 0 else 1)%nat.

(** ** The demo program: [src/demos-code.py] *)

(** [for x in xs: ...] where the body assigns local variables: they are
    threaded through the iterations as [s]. *)
Fixpoint for_fold {A S} (xs : list A) (body : A -> S -> M S) (s : S) : M S :=
  match xs with
  | [] => ret s
  | x :: xs' => let* s' := body x s in for_fold xs' body s'
  end.

(** [line(x1,y1,x2,y2)].  The module's global [runtime] is the state of [M];
    the locals [x1], [y1], [e] that the loops assign are the loop state. *)
Definition line (x1 y1 x2 y2 : Z) : M unit :=
  let dx := x2 - x1 in
  let dy := y2 - y1 in
  let ix := if dx <? 0 then -1 else 1 in
  let dx := if dx <? 0 then - dx else dx in
  let iy := if dy <? 0 then -1 else 1 in
  let dy := if dy <? 0 then - dy else dy in
  if dx <? dy then
    let ei := 2 * dx in
    let ed := ei - 2 * dy in
    let e := - dy + ei in
    let* st := for_fold (Py.range 1 (dy + 1))
                 (fun _ '(x1, y1, e) =>
                    set x1 y1 ;;;
                    let y1 := y1 + iy in
                    if e <? 0 then ret (x1, y1, e + ei)
                    else ret (x1 + ix, y1, e + ed))
                 (x1, y1, e) in
    let '(x1, y1, _) := st in
    set x1 y1
  else
    let ei := 2 * dy in
    let ed := ei - 2 * dx in
    let e := - dx + ei in
    let* st := for_fold (Py.range 1 (dx + 1))
                 (fun _ '(x1, y1, e) =>
                    set x1 y1 ;;;
                    let x1 := x1 + ix in
                    if e <? 0 then ret (x1, y1, e + ei)
                    else ret (x1, y1 + iy, e + ed))
                 (x1, y1, e) in
    let '(x1, y1, _) := st in
    set x1 y1.

(** [demo_2()]: fill the screen, then clear it. *)
Definition demo_2 : M unit :=
  for_each (Py.range 0 48) (fun y =>
    for_each (Py.range 0 128) (fun x => set x y)) ;;;
  for_each (Py.range 0 48) (fun y =>
    for_each (Py.range 0 128) (fun x => reset x y)).

(** [demo_4()]: radial lines from the middle of the screen to its border. *)
Definition demo_4 : M unit :=
  (let* xs := lift (Py.range_step 0 128 8) in
   for_each xs (fun x => line 64 24 x 0)) ;;;
  (let* ys := lift (Py.range_step 0 48 4) in
   for_each ys (fun y => line 64 24 127 y)) ;;;
  (let* xs := lift (Py.range_step 127 (-1) (-8)) in
   for_each xs (fun x => line 64 24 x 47)) ;;;
  (let* ys := lift (Py.range_step 47 (-1) (-4)) in
   for_each ys (fun y => line 64 24 0 y)).

(** The state [r] reached from [self] by calls that only turn pixels on, and
    only inside the region [B]: same geometry and cursor, every pixel that
    was lit is lit, every pixel outside [B] has its former value. *)
Definition painted_within (B : Z -> Z -> Prop) (self r : Runtime) : Prop :=
  wf r /\ same_setup self r /\ cursor r = cursor self /\
  forall x y,
    0 <= x < line_width self * 2 -> 0 <= y < line_count self * 3 ->
    exists v v',
      point x y self = Ok (v, self) /\ point x y r = Ok (v', r) /\
      (v = true -> v' = true) /\ (~ B x y -> v' = v).

(** ** The line editor: [Runtime._input] *)

(** What one turn of the loop of [_input] reads from outside the class: the
    value of [supervisor.ticks_ms()], and, for the turns that look at the
    serial line, the code of the character [sys.stdin.read(1)] gives when
    [supervisor.runtime.serial_bytes_available] holds ([None] when it does
    not). *)
Record tick : Set := mkTick { ticks_ms : Z; serial : option Z }.

(** The fields [self.demoInput] and [self.demoInputPos], kept beside the
    [Runtime] record; [__init__] sets them to [None] and 0. *)
Record Demo : Set := mkDemo { demoInput : option str; demoInputPos : Z }.

(** How the loop ends: [break] with the text typed so far, or the turns
    supplied ran out while it was still waiting for the end of the line. *)
Inductive input_result : Set :=
| Returned (text : str) (d : Demo)
| Waiting (text : str) (d : Demo).

(** [if self.demoInput and self.demoInputPos < len(self.demoInput)] *)
Definition scripted (d : Demo) : bool :=
  match demoInput d with
  | Some s => negb (Nat.eqb (length s) 0)
              && (demoInputPos d <? Z.of_nat (length s))
  | None => false
  end.

(** The [while True] loop of [_input], one turn per element of [env].
    [self._delay(200)] only waits and is left out. *)
Fixpoint _input_loop (env : list tick) (d : Demo) (text : str)
  : M input_result :=
  match env with
  | [] => ret (Waiting text d)
  | t :: env' =>
    let* cur := get cursor in
    (if Z.land (ticks_ms t) 0x100 =? 0 then _update_char cur 176
     else _update_char cur 32) ;;;
    if scripted d then
      let s := match demoInput d with Some s => s | None => [] end in
      let* c := lift (Py.getitem s (demoInputPos d)) in
      let d := mkDemo (demoInput d)
                 ((demoInputPos d + 1) mod Z.of_nat (length s)) in
      if c =? 0 then _input_loop env' d text
      else if (c =? 10) || (c =? 13) then
        _update_char cur 32 ;;;
        ret (Returned text d)
      else
        _update_char cur c ;;;
        modify (fun self => with_cursor self (cur + 1)) ;;;
        _input_loop env' d (text ++ [c])
    else
      match serial t with
      | Some c =>
        if (c =? 8) || (c =? 127) then
          if (0 <? Z.of_nat (length text))%Z then
            _update_char cur 32 ;;;
            modify (fun self => with_cursor self (cur - 1)) ;;;
            _update_char (cur - 1) 32 ;;;
            _input_loop env' d (removelast text)
          else _input_loop env' d text
        else if (c =? 10) || (c =? 13) then
          _update_char cur 32 ;;;
          ret (Returned text d)
        else
          _update_char cur c ;;;
          modify (fun self => with_cursor self (cur + 1)) ;;;
          _input_loop env' d (text ++ [c])
      | None => _input_loop env' d text
      end
  end.

(** [_input(prompt)]: the prompt if any, the loop, and the final
    [self.print("\n")] once the loop has ended. *)
Definition _input (prompt : option str) (env : list tick) (d : Demo)
  : M input_result :=
  match prompt with Some p => print p | None => ret tt end ;;;
  let* r := _input_loop env d [] in
  match r with
  | Returned text d' => print [10] ;;; ret (Returned text d')
  | Waiting text d' => ret (Waiting text d')
  end.

(** [input(prompt=None)] *)
Definition input (prompt : option str) (env : list tick) (d : Demo)
  : M input_result :=
  _input prompt env d.

(** The text an [input_result] carries. *)
Definition typed (r : input_result) : str :=
  match r with Returned t _ | Waiting t _ => t end.

(** The code the head of a turn writes on the cursor cell: the blinking
    block 176 while bit 8 of [ticks_ms] is clear, a blank otherwise. *)
Definition blink (t : tick) : Z :=
  if Z.land (ticks_ms t) 0x100 =? 0 then 176 else 32.

(** ** Acting through the update primitive *)




(** * Proofs *)

(** ** Rules for [returns] *)

Section Rules.
Context {A B : Type}.
Implicit Types (self : Runtime) (Q : A -> Runtime -> Prop).

Lemma returns_ret (a : A) self Q : Q a self -> returns (ret a) self Q.
Proof. intros H. exists a, self. split; [reflexivity | exact H]. Qed.

Lemma returns_bind (m : M A) (k : A -> M B) self (R : B -> Runtime -> Prop) :
  returns m self (fun a s => returns (k a) s R) -> returns (bind m k) self R.
Proof.
  intros (a & s & Hm & b & s' & Hk & HR).
  exists b, s'. split; [| exact HR]. unfold bind. rewrite Hm. exact Hk.
Qed.

Lemma returns_mono (m : M A) self Q (Q' : A -> Runtime -> Prop) :
  returns m self Q -> (forall a s, Q a s -> Q' a s) -> returns m self Q'.
Proof. intros (a & s & Hm & HQ) Himp. exists a, s. auto. Qed.

Lemma returns_get (f : Runtime -> A) self Q :
  Q (f self) self -> returns (get f) self Q.
Proof. intros H. exists (f self), self. split; [reflexivity | exact H]. Qed.

Lemma returns_lift (o : outcome A) (a : A) self Q :
  o = Ok a -> Q a self -> returns (lift o) self Q.
Proof. intros -> H. exists a, self. split; [reflexivity | exact H]. Qed.

Lemma returns_inv (m : M A) self Q a s :
  returns m self Q -> m self = Ok (a, s) -> Q a s.
Proof. intros (a' & s' & Hm & HQ) E. rewrite E in Hm. congruence. Qed.
End Rules.

Lemma returns_modify (f : Runtime -> Runtime) self (Q : unit -> Runtime -> Prop) :
  Q tt (f self) -> returns (modify f) self Q.
Proof. intros H. exists tt, (f self). split; [reflexivity | exact H]. Qed.

Lemma returns_assert (b : bool) self (Q : unit -> Runtime -> Prop) :
  b = true -> Q tt self -> returns (assert b) self Q.
Proof. intros -> H. exists tt, self. split; [reflexivity | exact H]. Qed.

Lemma returns_draw (op : draw_op) self (Q : unit -> Runtime -> Prop) :
  Q tt (with_drawn self op) -> returns (draw op) self Q.
Proof. intros H. exists tt, (with_drawn self op). split; [reflexivity | exact H]. Qed.

(** A loop over [range(lo, hi)] with invariant [I]. *)
Lemma returns_for_range (I : Z -> Runtime -> Prop) (body : Z -> M unit) lo hi self :
  lo <= hi ->
  I lo self ->
  (forall i s, lo <= i < hi -> I i s ->
               returns (body i) s (fun _ s' => I (i + 1) s')) ->
  returns (for_each (Py.range lo hi) body) self (fun _ s' => I hi s').
Proof.
  unfold Py.range. intros Hle.
  remember (Z.to_nat (hi - lo)) as k eqn:Hk.
  revert lo self Hle Hk. induction k as [|k IH]; intros lo self Hle Hk H0 Hstep.
  - assert (hi = lo) as -> by lia. rewrite Z.sub_diag. simpl.
    apply returns_ret. exact H0.
  - rewrite (seqZ_cons lo (hi - lo)) by lia. simpl.
    apply returns_bind.
    eapply returns_mono; [apply (Hstep lo self); [lia | exact H0] |].
    intros u s Hs. simpl in Hs |- *.
    replace (Z.pred (hi - lo)) with (hi - Z.succ lo) by lia.
    apply IH; [lia | lia | replace (Z.succ lo) with (lo + 1) by lia; exact Hs |].
    intros i s0 Hi. apply Hstep. lia.
Qed.

(** An empty range runs no iteration. *)
Lemma for_range_empty (body : Z -> M unit) lo hi self :
  hi <= lo -> for_each (Py.range lo hi) body self = Ok (tt, self).
Proof.
  intros H. unfold Py.range, seqZ.
  replace (Z.to_nat (hi - lo)) with 0%nat by lia. reflexivity.
Qed.

Ltac step :=
  lazymatch goal with
  | |- returns (bind _ _) _ _ => apply returns_bind
  | |- returns (ret _) _ _ => apply returns_ret
  | |- returns (get _) _ _ => apply returns_get
  | |- returns (modify _) _ _ => apply returns_modify
  | |- returns (draw _) _ _ => apply returns_draw
  | |- returns (assert _) _ _ => apply returns_assert
  end.

(** ** Python list accesses inside the bounds *)

Lemma index_in_range {A} (l : list A) (i : Z) :
  0 <= i < Z.of_nat (length l) -> Py.index l i = Some (Z.to_nat i).
Proof.
  intros H. unfold Py.index.
  destruct (Z.leb_spec 0 i); [| lia].
  destruct (Z.ltb_spec i (Z.of_nat (length l))); [reflexivity | lia].
Qed.

Lemma index_out_of_range {A} (l : list A) (i : Z) :
  Z.of_nat (length l) <= i -> Py.index l i = None.
Proof.
  intros H. unfold Py.index.
  rewrite (proj2 (Z.ltb_ge i (Z.of_nat (length l)))) by lia.
  rewrite (proj2 (Z.ltb_ge i 0)) by lia.
  rewrite !andb_false_r. reflexivity.
Qed.

Lemma getitem_in_range {A} (l : list A) (i : Z) :
  0 <= i < Z.of_nat (length l) ->
  exists x, l !! Z.to_nat i = Some x /\ Py.getitem l i = Ok x.
Proof.
  intros H. unfold Py.getitem. rewrite index_in_range by exact H.
  destruct (lookup_lt_is_Some_2 l (Z.to_nat i)) as [x Hx]; [lia |].
  exists x. rewrite Hx. auto.
Qed.

Lemma setitem_in_range {A} (l : list A) (i : Z) (x : A) :
  0 <= i < Z.of_nat (length l) ->
  Py.setitem l i x = Ok (<[Z.to_nat i := x]> l).
Proof. intros H. unfold Py.setitem. rewrite index_in_range by exact H. reflexivity. Qed.

Lemma returns_chars_get pos self (Q : Z -> Runtime -> Prop) :
  0 <= pos < Z.of_nat (length (chars self)) ->
  (forall v, cell self pos = Some v -> Q v self) ->
  returns (chars_get pos) self Q.
Proof.
  intros Hpos HQ. unfold chars_get. step. step.
  destruct (getitem_in_range (chars self) pos Hpos) as (x & Hx & Hget).
  eapply returns_lift; [exact Hget | apply HQ; exact Hx].
Qed.

Lemma returns_chars_set pos v self (Q : unit -> Runtime -> Prop) :
  0 <= pos < Z.of_nat (length (chars self)) ->
  Q tt (with_chars self (<[Z.to_nat pos := v]> (chars self))) ->
  returns (chars_set pos v) self Q.
Proof.
  intros Hpos HQ. unfold chars_set. step. step. step.
  eapply returns_lift; [apply setitem_in_range; exact Hpos |].
  step. exact HQ.
Qed.

(** ** The cell update primitive *)

Lemma row_in_range (pos lw lc : Z) :
  0 < lw -> 0 <= pos < lw * lc -> 0 <= Py.int_div pos lw < lc.
Proof.
  intros Hlw Hpos. unfold Py.int_div.
  rewrite Z.quot_div_nonneg by lia.
  split; [apply Z.div_pos; lia | apply Z.div_lt_upper_bound; lia].
Qed.

Lemma returns_update_char pos char self (Q : unit -> Runtime -> Prop) :
  wf self -> 0 <= pos < chars_len self -> 0 <= char < 256 ->
  (cell self pos = Some char -> Q tt self) ->
  (forall g, cell self pos <> Some char ->
             font self (0xE000 + char) = Some g ->
             Q tt (updated self pos char g)) ->
  returns (_update_char pos char) self Q.
Proof.
  intros W Hpos Hchar Hsame Hdiff.
  pose proof (wf_length _ W) as Hlen.
  unfold _update_char. step. step; [lia |].
  step. apply returns_chars_get; [lia |]. intros old Hold.
  destruct (Z.eqb_spec old char) as [-> | Hne].
  { step. auto. }
  step. apply returns_chars_set; [lia |].
  step. step. simpl.
  destruct (wf_font _ W char Hchar) as (g & Hg & (Hdx & Hdy)).
  rewrite Hg.
  pose proof (wf_width _ W). pose proof (wf_count _ W).
  pose proof (wf_len _ W) as Hn.
  pose proof (Z.mod_pos_bound pos (line_width self) ltac:(lia)) as Hcol.
  pose proof (row_in_range pos (line_width self) (line_count self)
                ltac:(lia) ltac:(lia)) as Hrow.
  do 5 (step; step). simpl.
  step. step.
  step. step; [simpl; apply andb_true_iff; split; [apply Z.leb_le | apply Z.ltb_lt]; nia |].
  step. step; [simpl; apply andb_true_iff; split; [apply Z.leb_le | apply Z.ltb_lt]; nia |].
  step.
  assert (cell self pos <> Some char) as Hc by (rewrite Hold; congruence).
  specialize (Hdiff g Hc Hg).
  unfold updated, redraw in Hdiff. unfold with_drawn, with_chars. simpl.
  rewrite <- !app_assoc. simpl. exact Hdiff.
Qed.

(** ** Bit operations on cell codes *)

Section Bits.
Implicit Types b k n : Z.

Lemma land_pow2 b k :
  0 <= k -> Z.land b (2 ^ k) = if Z.testbit b k then 2 ^ k else 0.
Proof.
  intros Hk. apply Z.bits_inj'. intros n Hn.
  rewrite Z.land_spec, Z.pow2_bits_eqb by exact Hk.
  destruct (Z.eqb_spec k n) as [-> | Hne].
  - destruct (Z.testbit b n); simpl.
    + rewrite Z.pow2_bits_eqb by exact Hn. symmetry. apply Z.eqb_refl.
    + symmetry. apply Z.bits_0.
  - rewrite andb_false_r. destruct (Z.testbit b k).
    + rewrite Z.pow2_bits_eqb by exact Hk. symmetry. apply Z.eqb_neq. exact Hne.
    + symmetry. apply Z.bits_0.
Qed.

(** [not b&0x80] holds exactly when bit 7 is clear. *)
Lemma top_bit_test b : (Z.land b 0x80 =? 0) = negb (Z.testbit b 7).
Proof.
  change 0x80 with (2 ^ 7). rewrite land_pow2 by lia.
  destruct (Z.testbit b 7); reflexivity.
Qed.

(** [(b & 1<<k) > 0] holds exactly when bit [k] is set. *)
Lemma bit_test b k : 0 <= k -> (0 <? Z.land b (Z.shiftl 1 k)) = Z.testbit b k.
Proof.
  intros Hk. rewrite Z.shiftl_1_l, land_pow2 by exact Hk.
  destruct (Z.testbit b k).
  - apply Z.ltb_lt. apply Z.pow_pos_nonneg; lia.
  - reflexivity.
Qed.

(** [b | 1<<k] sets bit [k]. *)
Lemma or_bit b k : Z.lor b (Z.shiftl 1 k) = Z.setbit b k.
Proof. rewrite Z.shiftl_1_l. symmetry. apply Z.setbit_spec'. Qed.

Lemma byte_bits b :
  0 <= b < 256 <-> 0 <= b /\ forall n, 8 <= n -> Z.testbit b n = false.
Proof.
  split.
  - intros [H0 H1]. split; [exact H0 |]. intros n Hn.
    destruct (Z.eq_dec b 0) as [-> | Hnz]; [apply Z.bits_0 |].
    apply Z.bits_above_log2; [exact H0 |].
    assert (Z.log2 b < 8) by (apply Z.log2_lt_pow2; [lia | exact H1]). lia.
  - intros [H0 Hhi]. split; [exact H0 |].
    destruct (Z.lt_ge_cases b 256) as [? | Hge]; [assumption | exfalso].
    assert (0 < b) as Hpos by lia.
    pose proof (Z.bit_log2 b Hpos) as Hbit.
    rewrite Hhi in Hbit; [discriminate |].
    change 8 with (Z.log2 256). apply Z.log2_le_mono. exact Hge.
Qed.

(** [b & (0xFFFF ^ (1<<k))] clears bit [k] of a cell code. *)
Lemma and_not_bit b k :
  0 <= b < 256 -> 0 <= k < 16 ->
  Z.land b (Z.lxor 0xFFFF (Z.shiftl 1 k)) = Z.clearbit b k.
Proof.
  intros Hb Hk. apply Z.bits_inj'. intros n Hn.
  rewrite Z.land_spec, Z.lxor_spec, Z.clearbit_eqb, Z.shiftl_1_l.
  rewrite Z.pow2_bits_eqb by lia.
  destruct (Z.lt_ge_cases n 8) as [Hlt | Hge].
  - change 0xFFFF with (Z.ones 16).
    rewrite Z.testbit_ones_nonneg by lia.
    replace (n <? 16) with true by (symmetry; apply Z.ltb_lt; lia).
    reflexivity.
  - apply byte_bits in Hb. destruct Hb as [_ Hhi].
    rewrite (Hhi n Hge). reflexivity.
Qed.

Lemma setbit_byte b k : 0 <= b < 256 -> 0 <= k < 8 -> 0 <= Z.setbit b k < 256.
Proof.
  intros Hb Hk. apply byte_bits. apply byte_bits in Hb. destruct Hb as [H0 Hhi].
  split.
  - rewrite Z.setbit_spec'. apply Z.lor_nonneg. split; [exact H0 |].
    apply Z.pow_nonneg. lia.
  - intros n Hn. rewrite Z.setbit_eqb by lia. rewrite (Hhi n Hn).
    replace (k =? n) with false by (symmetry; apply Z.eqb_neq; lia).
    reflexivity.
Qed.

Lemma clearbit_byte b k : 0 <= b < 256 -> 0 <= Z.clearbit b k < 256.
Proof.
  intros Hb. apply byte_bits. apply byte_bits in Hb. destruct Hb as [H0 Hhi].
  split.
  - rewrite Z.clearbit_spec'. apply Z.ldiff_nonneg. left. exact H0.
  - intros n Hn. rewrite Z.clearbit_eqb, (Hhi n Hn). reflexivity.
Qed.
End Bits.

(** ** Pixel coordinates *)

Lemma pixel_pos_div lw x y :
  0 <= x -> 0 <= y -> pixel_pos lw x y = y / 3 * lw + x / 2.
Proof.
  intros Hx Hy. unfold pixel_pos, Py.int_div.
  rewrite !Z.quot_div_nonneg by lia. reflexivity.
Qed.

Lemma pixel_pos_range lw lc x y :
  0 < lw -> 0 <= x < lw * 2 -> 0 <= y < lc * 3 ->
  0 <= pixel_pos lw x y < lw * lc.
Proof.
  intros Hlw Hx Hy. rewrite pixel_pos_div by lia.
  assert (0 <= x / 2 < lw)
    by (split; [apply Z.div_pos | apply Z.div_lt_upper_bound]; lia).
  assert (0 <= y / 3 < lc)
    by (split; [apply Z.div_pos | apply Z.div_lt_upper_bound]; lia).
  nia.
Qed.

Lemma pixel_bit_range x y : 0 <= pixel_bit x y < 6.
Proof.
  unfold pixel_bit.
  pose proof (Z.mod_pos_bound y 3 ltac:(lia)).
  pose proof (Z.mod_pos_bound x 2 ltac:(lia)). lia.
Qed.

(** ** Well-formedness is kept by cell updates *)

Lemma same_setup_refl self : same_setup self self.
Proof. repeat split. Qed.

Lemma same_setup_trans a b c : same_setup a b -> same_setup b c -> same_setup a c.
Proof. unfold same_setup. intros H1 H2. intuition congruence. Qed.

Lemma wf_same_setup a b :
  wf a -> same_setup a b ->
  Z.of_nat (length (chars b)) = chars_len b ->
  Forall (fun c => 0 <= c < 256) (chars b) ->
  wf b.
Proof.
  intros W (Hlw & Hlc & Hcw & Hch & Hcd & Hf & Hn) Hlen Hcells.
  destruct W as [W1 W2 W3 W4 W5 W6].
  constructor; try congruence; try lia.
  intros c Hc. destruct (W6 c Hc) as (g & Hg & Hfit).
  exists g. split; [congruence |].
  unfold glyph_fits in *. rewrite Hcw, Hch, Hcd. exact Hfit.
Qed.

Lemma same_setup_updated self pos char g : same_setup self (updated self pos char g).
Proof. repeat split. Qed.

Lemma wf_updated self pos char g :
  wf self -> 0 <= char < 256 -> wf (updated self pos char g).
Proof.
  intros W Hc. apply (wf_same_setup self); [exact W | apply same_setup_updated | |].
  - simpl. rewrite length_insert. apply (wf_length _ W).
  - simpl. apply Forall_insert; [apply (wf_cells _ W) | exact Hc].
Qed.

Lemma wf_with_cursor self p : wf self -> wf (with_cursor self p).
Proof.
  intros W. apply (wf_same_setup self); [exact W | repeat split | |].
  - apply (wf_length _ W).
  - apply (wf_cells _ W).
Qed.

Lemma wf_cell self k :
  wf self -> 0 <= k < chars_len self ->
  exists b, cell self k = Some b /\ 0 <= b < 256.
Proof.
  intros W Hk. pose proof (wf_length _ W) as Hlen.
  destruct (lookup_lt_is_Some_2 (chars self) (Z.to_nat k)) as [b Hb]; [lia |].
  exists b. split; [exact Hb |].
  pose proof (wf_cells _ W) as Hall. rewrite Forall_lookup in Hall.
  exact (Hall _ _ Hb).
Qed.

Lemma wf_new_runtime lw lc cw ch cd f :
  0 < lw -> 0 < lc ->
  (forall c, 0 <= c < 256 ->
     exists g, f (0xE000 + c) = Some g /\
               0 <= dx g < cw /\ 0 <= - cd + ch - height g - dy g < ch) ->
  wf (new_runtime lw lc cw ch cd f).
Proof.
  intros Hlw Hlc Hf. constructor; simpl; try lia.
  - rewrite length_replicate. nia.
  - apply Forall_replicate. lia.
  - intros c Hc. destruct (Hf c Hc) as (g & Hg & Hfit). exists g. split; assumption.
Qed.

Lemma update_char_written pos char self :
  wf self -> 0 <= pos < chars_len self -> 0 <= char < 256 ->
  returns (_update_char pos char) self (fun _ s' => cell_written self pos char s').
Proof.
  intros W Hpos Hchar. apply returns_update_char; try assumption.
  - intros Hsame. unfold cell_written.
    rewrite (list_insert_id _ _ _ Hsame).
    destruct (decide (cell self pos = Some char)); [| contradiction].
    repeat split; try assumption; try lia; apply W.
  - intros g Hne Hg. unfold cell_written.
    destruct (decide (cell self pos = Some char)); [contradiction |].
    split; [apply wf_updated; assumption |].
    split; [apply same_setup_updated |].
    split; [reflexivity |]. split; [reflexivity |].
    unfold scrolls, redraws, updated. simpl.
    rewrite !List.filter_app, !length_app. simpl. split; lia.
Qed.

(** ** Semigraphics: [set], [reset], [point] *)

Section Pixels.
Variable self : Runtime.
Variables x y : Z.
Hypothesis W : wf self.
Hypothesis Hx : 0 <= x < line_width self * 2.
Hypothesis Hy : 0 <= y < line_count self * 3.


Lemma pixel_in_buffer : 0 <= pixel_pos (line_width self) x y < chars_len self.
Proof.
  rewrite (wf_len _ W). apply pixel_pos_range; [apply W | exact Hx | exact Hy].
Qed.

Lemma valid_asserts :
  (0 <=? x) && (x <? line_width self * 2) = true /\
  (0 <=? y) && (y <? line_count self * 3) = true.
Proof.
  split; apply andb_true_iff; split;
    first [apply Z.leb_le | apply Z.ltb_lt]; lia.
Qed.

Lemma point_value b :
  cell self (pixel_pos (line_width self) x y) = Some b ->
  point x y self = Ok (Z.testbit b 7 && Z.testbit b (pixel_bit x y), self).
Proof.
  intros Hb. destruct valid_asserts as [Ax Ay].
  pose proof pixel_in_buffer as Hpos. pose proof (wf_length _ W) as Hlen.
  assert (returns (point x y) self
            (fun v s => v = Z.testbit b 7 && Z.testbit b (pixel_bit x y)
                        /\ s = self)) as R.
  { unfold point. do 2 (step; step). cbv beta.
    step. step; [exact Ax |]. step. step; [exact Ay |].
    step. apply returns_chars_get; [lia |].
    intros v Hv. rewrite Hb in Hv. injection Hv as <-.
    rewrite top_bit_test. destruct (Z.testbit b 7); cbn [negb andb].
    - step. split; [| reflexivity]. apply bit_test.
      pose proof (pixel_bit_range x y). lia.
    - step. split; reflexivity. }
  destruct R as (v & s & E & -> & ->). exact E.
Qed.

Lemma set_written b :
  cell self (pixel_pos (line_width self) x y) = Some b -> 0 <= b < 256 ->
  returns (set x y) self
    (fun _ s' => cell_written self (pixel_pos (line_width self) x y)
                   (Z.setbit (base b) (pixel_bit x y)) s').
Proof.
  intros Hb Hbyte. destruct valid_asserts as [Ax Ay].
  pose proof pixel_in_buffer as Hpos. pose proof (wf_length _ W) as Hlen.
  pose proof (pixel_bit_range x y) as Hk.
  unfold set. do 2 (step; step). cbv beta.
  step. step; [exact Ax |]. step. step; [exact Ay |].
  step. apply returns_chars_get; [lia |].
  intros v Hv. rewrite Hb in Hv. injection Hv as <-.
  rewrite top_bit_test, or_bit.
  replace (if negb (Z.testbit b 7) then 128 else b) with (base b)
    by (unfold base; destruct (Z.testbit b 7); reflexivity).
  apply update_char_written; [exact W | exact Hpos |].
  apply setbit_byte; [| lia].
  unfold base. destruct (Z.testbit b 7); lia.
Qed.

Lemma reset_written b :
  cell self (pixel_pos (line_width self) x y) = Some b -> 0 <= b < 256 ->
  returns (reset x y) self
    (fun _ s' => cell_written self (pixel_pos (line_width self) x y)
                   (Z.clearbit (base b) (pixel_bit x y)) s').
Proof.
  intros Hb Hbyte. destruct valid_asserts as [Ax Ay].
  pose proof pixel_in_buffer as Hpos. pose proof (wf_length _ W) as Hlen.
  pose proof (pixel_bit_range x y) as Hk.
  assert (0 <= base b < 256) as Hbase
    by (unfold base; destruct (Z.testbit b 7); lia).
  unfold reset. do 2 (step; step). cbv beta.
  step. step; [exact Ax |]. step. step; [exact Ay |].
  step. apply returns_chars_get; [lia |].
  intros v Hv. rewrite Hb in Hv. injection Hv as <-.
  rewrite top_bit_test.
  replace (if negb (Z.testbit b 7) then 128 else b) with (base b)
    by (unfold base; destruct (Z.testbit b 7); reflexivity).
  rewrite and_not_bit by lia.
  apply update_char_written; [exact W | exact Hpos |].
  apply clearbit_byte. exact Hbase.
Qed.
End Pixels.

Lemma base_top b : Z.testbit (base b) 7 = true.
Proof. unfold base. destruct (Z.testbit b 7) eqn:E; [exact E | reflexivity]. Qed.

Lemma base_low b n :
  0 <= n < 6 -> Z.testbit (base b) n = Z.testbit b 7 && Z.testbit b n.
Proof.
  intros Hn. unfold base. destruct (Z.testbit b 7); [reflexivity |].
  change 0x80 with (2 ^ 7). rewrite Z.pow2_bits_eqb by lia.
  apply Z.eqb_neq. lia.
Qed.

Lemma returns_run {A} (m : M A) self (Q : A -> Runtime -> Prop) :
  returns m self Q -> exists a s', m self = Ok (a, s') /\ Q a s'.
Proof. intros H. exact H. Qed.

Lemma cell_after_write self pos c s' :
  0 <= pos < chars_len self -> wf self ->
  cell_written self pos c s' -> cell s' pos = Some c.
Proof.
  intros Hpos W (_ & _ & _ & Hch & _). unfold cell. rewrite Hch.
  apply list_lookup_insert_eq. pose proof (wf_length _ W). lia.
Qed.

Lemma cell_other_after_write self pos c s' j :
  0 <= pos -> 0 <= j -> j <> pos ->
  cell_written self pos c s' -> cell s' j = cell self j.
Proof.
  intros Hpos Hj Hne (_ & _ & _ & Hch & _). unfold cell. rewrite Hch.
  apply list_lookup_insert_ne. lia.
Qed.

Lemma point_after_write self s' x y c :
  wf self ->
  0 <= x < line_width self * 2 -> 0 <= y < line_count self * 3 ->
  cell_written self (pixel_pos (line_width self) x y) c s' ->
  point x y s' = Ok (Z.testbit c 7 && Z.testbit c (pixel_bit x y), s').
Proof.
  intros W Hx Hy Hw.
  pose proof (pixel_in_buffer self x y W Hx Hy) as Hpos.
  pose proof (cell_after_write _ _ _ _ Hpos W Hw) as Hc.
  destruct Hw as (W' & (Hlw & Hlc & _) & _).
  apply point_value; [exact W' | rewrite Hlw; exact Hx | rewrite Hlc; exact Hy |].
  rewrite Hlw. exact Hc.
Qed.

(** ** The claims on semigraphics *)

(** C3. For a valid pixel coordinate, [set], [reset] and [point] all work on
    the cell of index [(y div 3) * line_width + (x div 2)] and on bit
    [2 * (y mod 3) + (x mod 2)] of its code: [point] is true exactly when
    bit 7 and that bit are both set, [set] stores the (graphics) code with
    that bit set, [reset] the code with that bit cleared, and no other cell
    is written. *)
Theorem pixel_addressing (self : Runtime) (x y : Z) :
  wf self ->
  0 <= x < line_width self * 2 ->
  0 <= y < line_count self * 3 ->
  let pos := y / 3 * line_width self + x / 2 in
  let bit := 2 * (y mod 3) + x mod 2 in
  0 <= pos < chars_len self /\ 0 <= bit < 6 /\
  exists b,
    cell self pos = Some b /\
    point x y self = Ok (Z.testbit b 7 && Z.testbit b bit, self) /\
    (exists s', set x y self = Ok (tt, s') /\
       chars s' = <[Z.to_nat pos := Z.setbit (base b) bit]> (chars self)) /\
    (exists s', reset x y self = Ok (tt, s') /\
       chars s' = <[Z.to_nat pos := Z.clearbit (base b) bit]> (chars self)).
Proof.
  intros W Hx Hy pos bit.
  pose proof (pixel_in_buffer self x y W Hx Hy) as Hpos.
  assert (pixel_pos (line_width self) x y = pos) as Epos
    by (apply pixel_pos_div; lia).
  rewrite Epos in Hpos.
  split; [exact Hpos |]. split; [apply (pixel_bit_range x y) |].
  destruct (wf_cell self pos W Hpos) as (b & Hb & Hbyte).
  exists b. split; [exact Hb |].
  rewrite <- Epos in Hb.
  split; [apply (point_value self x y W Hx Hy b Hb) |]. split.
  - destruct (set_written self x y W Hx Hy b Hb Hbyte) as ([] & s' & E & Hw).
    exists s'. split; [exact E |]. rewrite <- Epos. apply Hw.
  - destruct (reset_written self x y W Hx Hy b Hb Hbyte) as ([] & s' & E & Hw).
    exists s'. split; [exact E |]. rewrite <- Epos. apply Hw.
Qed.

(** C4. For a valid pixel coordinate and any buffer contents, [set(x,y)]
    followed by [point(x,y)] gives true, and [reset(x,y)] followed by
    [point(x,y)] gives false. *)
Theorem set_reset_then_point (self : Runtime) (x y : Z) :
  wf self ->
  0 <= x < line_width self * 2 ->
  0 <= y < line_count self * 3 ->
  (exists s', set x y self = Ok (tt, s') /\ point x y s' = Ok (true, s')) /\
  (exists s', reset x y self = Ok (tt, s') /\ point x y s' = Ok (false, s')).
Proof.
  intros W Hx Hy.
  pose proof (pixel_in_buffer self x y W Hx Hy) as Hpos.
  pose proof (pixel_bit_range x y) as Hk.
  destruct (wf_cell self _ W Hpos) as (b & Hb & Hbyte).
  split.
  - destruct (set_written self x y W Hx Hy b Hb Hbyte) as ([] & s' & E & Hw).
    exists s'. split; [exact E |].
    rewrite (point_after_write self s' x y _ W Hx Hy Hw).
    rewrite !Z.setbit_eqb by lia. rewrite base_top, Z.eqb_refl, orb_true_r.
    reflexivity.
  - destruct (reset_written self x y W Hx Hy b Hb Hbyte) as ([] & s' & E & Hw).
    exists s'. split; [exact E |].
    rewrite (point_after_write self s' x y _ W Hx Hy Hw).
    rewrite !Z.clearbit_eqb. rewrite Z.eqb_refl. cbn [negb].
    rewrite !andb_false_r. reflexivity.
Qed.

(** C5. [set(x,y)] and [reset(x,y)] leave the other five sub-pixels of the
    cell as they were: for a valid [(x',y')] in the same cell but on another
    bit, [point(x',y')] has the same value after the call as before. *)
Theorem other_subpixels_kept (self : Runtime) (x y x' y' : Z) :
  wf self ->
  0 <= x < line_width self * 2 -> 0 <= y < line_count self * 3 ->
  0 <= x' < line_width self * 2 -> 0 <= y' < line_count self * 3 ->
  pixel_pos (line_width self) x' y' = pixel_pos (line_width self) x y ->
  pixel_bit x' y' <> pixel_bit x y ->
  exists v,
    point x' y' self = Ok (v, self) /\
    (exists s', set x y self = Ok (tt, s') /\ point x' y' s' = Ok (v, s')) /\
    (exists s', reset x y self = Ok (tt, s') /\ point x' y' s' = Ok (v, s')).
Proof.
  intros W Hx Hy Hx' Hy' Epos Hbit.
  pose proof (pixel_in_buffer self x y W Hx Hy) as Hpos.
  pose proof (pixel_bit_range x y) as Hk.
  pose proof (pixel_bit_range x' y') as Hk'.
  destruct (wf_cell self _ W Hpos) as (b & Hb & Hbyte).
  exists (Z.testbit b 7 && Z.testbit b (pixel_bit x' y')).
  split; [apply point_value; [exact W | exact Hx' | exact Hy' |];
          rewrite Epos; exact Hb |].
  split.
  - destruct (set_written self x y W Hx Hy b Hb Hbyte) as ([] & s' & E & Hw).
    exists s'. split; [exact E |].
    rewrite <- Epos in Hw.
    rewrite (point_after_write self s' x' y' _ W Hx' Hy' Hw).
    rewrite !Z.setbit_eqb by lia. rewrite base_top, orb_true_r.
    replace (pixel_bit x y =? pixel_bit x' y') with false
      by (symmetry; apply Z.eqb_neq; lia).
    rewrite base_low by lia. reflexivity.
  - destruct (reset_written self x y W Hx Hy b Hb Hbyte) as ([] & s' & E & Hw).
    exists s'. split; [exact E |].
    rewrite <- Epos in Hw.
    rewrite (point_after_write self s' x' y' _ W Hx' Hy' Hw).
    rewrite !Z.clearbit_eqb. rewrite base_top.
    replace (pixel_bit x y =? pixel_bit x' y') with false
      by (symmetry; apply Z.eqb_neq; lia).
    replace (pixel_bit x y =? 7) with false
      by (symmetry; apply Z.eqb_neq; lia).
    rewrite base_low by lia. simpl. rewrite andb_true_r. reflexivity.
Qed.

(** ** The update primitive as a function *)

Lemma update_char_eq pos char self :
  wf self -> 0 <= pos < chars_len self -> 0 <= char < 256 ->
  _update_char pos char self = Ok (tt, update_char_result self pos char).
Proof.
  intros W Hpos Hchar.
  assert (returns (_update_char pos char) self
            (fun _ s' => s' = update_char_result self pos char)) as R.
  { apply returns_update_char; try assumption; unfold update_char_result.
    - intros Hsame. destruct (decide (cell self pos = Some char)); [reflexivity | contradiction].
    - intros g Hne Hg. destruct (decide (cell self pos = Some char)); [contradiction |].
      rewrite Hg. reflexivity. }
  destruct R as ([] & s' & E & ->). exact E.
Qed.

Lemma update_char_result_written pos char self :
  wf self -> 0 <= pos < chars_len self -> 0 <= char < 256 ->
  cell_written self pos char (update_char_result self pos char).
Proof.
  intros W Hpos Hchar.
  destruct (update_char_written pos char self W Hpos Hchar) as ([] & s' & E & Hw).
  rewrite update_char_eq in E by assumption. injection E as <-. exact Hw.
Qed.

Lemma update_char_bad_code pos char self :
  ~ 0 <= char < 256 -> _update_char pos char self = Raise AssertionError.
Proof.
  intros Hbad. unfold _update_char, bind, assert.
  destruct (Z.leb_spec 0 char), (Z.ltb_spec char 256); simpl; try reflexivity; lia.
Qed.

(** ** The memory map: [peek], [poke] *)

Lemma window_test self addr :
  (15360 <=? addr) && (addr <? 15360 + chars_len self) = true <-> in_window self addr.
Proof.
  unfold in_window. rewrite andb_true_iff, Z.leb_le, Z.ltb_lt. reflexivity.
Qed.

Lemma peek_inside self addr :
  wf self -> in_window self addr ->
  exists v, cell self (addr - 15360) = Some v /\ peek addr self = Ok (v, self).
Proof.
  intros W Hin. pose proof (wf_length _ W) as Hlen.
  unfold peek, bind, get. rewrite (proj2 (window_test self addr) Hin).
  unfold in_window in Hin.
  destruct (getitem_in_range (chars self) (addr - 15360)) as (v & Hv & Hget);
    [lia |].
  exists v. split; [exact Hv |].
  unfold chars_get, bind, get, lift. rewrite Hget. reflexivity.
Qed.

Lemma peek_outside self addr :
  ~ in_window self addr -> peek addr self = Ok (0, self).
Proof.
  intros Hout. unfold peek, bind, get.
  destruct ((15360 <=? addr) && (addr <? 15360 + chars_len self)) eqn:E;
    [apply window_test in E; contradiction | reflexivity].
Qed.

Lemma poke_inside self addr val :
  in_window self addr -> poke addr val self = _update_char (addr - 15360) val self.
Proof.
  intros Hin. unfold poke, bind, get.
  rewrite (proj2 (window_test self addr) Hin). reflexivity.
Qed.

Lemma poke_outside self addr val :
  ~ in_window self addr -> poke addr val self = Ok (tt, self).
Proof.
  intros Hout. unfold poke, bind, get.
  destruct ((15360 <=? addr) && (addr <? 15360 + chars_len self)) eqn:E;
    [apply window_test in E; contradiction | reflexivity].
Qed.

(** C7. [peek(15360+k)] is the code stored at index [k]; [peek] of any
    address outside the window is 0; [poke(15360+k, v)] then [peek(15360+k)]
    gives [v] for every [v] in [0,255]; and a [poke] outside the window
    leaves the whole buffer as it was. *)
Theorem peek_poke_window (self : Runtime) :
  wf self ->
  (forall k, 0 <= k < chars_len self ->
     exists v, chars self !! Z.to_nat k = Some v /\
               peek (15360 + k) self = Ok (v, self)) /\
  (forall addr, ~ 15360 <= addr < 15360 + chars_len self ->
     peek addr self = Ok (0, self)) /\
  (forall k v, 0 <= k < chars_len self -> 0 <= v <= 255 ->
     exists s', poke (15360 + k) v self = Ok (tt, s') /\
                peek (15360 + k) s' = Ok (v, s')) /\
  (forall addr v, ~ 15360 <= addr < 15360 + chars_len self ->
     exists s', poke addr v self = Ok (tt, s') /\ chars s' = chars self).
Proof.
  intros W. repeat split.
  - intros k Hk.
    destruct (peek_inside self (15360 + k) W) as (v & Hv & E);
      [unfold in_window; lia |].
    replace (15360 + k - 15360) with k in Hv by lia.
    exists v. split; [exact Hv | exact E].
  - intros addr Hout. apply peek_outside. exact Hout.
  - intros k v Hk Hv.
    assert (in_window self (15360 + k)) as Hin by (unfold in_window; lia).
    exists (update_char_result self k v).
    rewrite poke_inside by exact Hin.
    replace (15360 + k - 15360) with k by lia.
    split; [apply update_char_eq; [exact W | exact Hk | lia] |].
    pose proof (update_char_result_written k v self W Hk ltac:(lia)) as Hw.
    pose proof (cell_after_write _ _ _ _ Hk W Hw) as Hc.
    destruct Hw as (W' & (_ & _ & _ & _ & _ & _ & Hn) & _).
    destruct (peek_inside (update_char_result self k v) (15360 + k) W')
      as (v' & Hv' & E); [unfold in_window; lia |].
    replace (15360 + k - 15360) with k in Hv' by lia.
    rewrite Hc in Hv'. injection Hv' as <-. exact E.
  - intros addr v Hout. exists self. split; [| reflexivity].
    apply poke_outside. exact Hout.
Qed.

(** C8, as the code has it.  [peek] returns for every address.  [poke]
    returns for every address when the value is a cell code in [0,255]: inside
    the window the value becomes the cell's code, outside nothing is written.
    Outside the window any value is ignored; inside the window a value that is
    not in [0,255] fails the assertion of [_update_char]. *)
Theorem peek_poke_returns (self : Runtime) :
  wf self ->
  (forall addr, exists v, peek addr self = Ok (v, self)) /\
  (forall addr val, 0 <= val < 256 ->
     exists s', poke addr val self = Ok (tt, s') /\
       chars s' = if decide (in_window self addr)
                  then <[Z.to_nat (addr - 15360) := val]> (chars self)
                  else chars self) /\
  (forall addr val, ~ in_window self addr -> poke addr val self = Ok (tt, self)) /\
  (forall addr val, in_window self addr -> ~ 0 <= val < 256 ->
     poke addr val self = Raise AssertionError).
Proof.
  intros W. repeat split.
  - intros addr. destruct (decide (in_window self addr)) as [Hin | Hout].
    + destruct (peek_inside self addr W Hin) as (v & _ & E). exists v. exact E.
    + exists 0. apply peek_outside. exact Hout.
  - intros addr val Hval. destruct (decide (in_window self addr)) as [Hin | Hout].
    + exists (update_char_result self (addr - 15360) val).
      rewrite poke_inside by exact Hin. unfold in_window in Hin.
      split; [apply update_char_eq; [exact W | lia | exact Hval] |].
      apply (update_char_result_written (addr - 15360) val self W); lia.
    + exists self. split; [apply poke_outside; exact Hout | reflexivity].
  - intros addr val Hout. apply poke_outside. exact Hout.
  - intros addr val Hin Hbad. rewrite poke_inside by exact Hin.
    apply update_char_bad_code. exact Hbad.
Qed.

(** ** Bulk operations: [_cls] and [_scroll] *)

Lemma blank_step {A} (cs : list A) (i j : nat) (x : A) :
  (i < length cs)%nat ->
  <[j := x]> (replicate j x ++ drop i cs) = replicate (S j) x ++ drop (S i) cs.
Proof.
  intros Hi.
  destruct (lookup_lt_is_Some_2 cs i Hi) as [y Hy].
  rewrite insert_app_r_alt by (rewrite length_replicate; lia).
  rewrite length_replicate, Nat.sub_diag.
  rewrite (drop_S cs y i Hy).
  rewrite replicate_S_end, <- app_assoc. reflexivity.
Qed.

Lemma shift_read {A} (cs : list A) (w i : nat) :
  (i + w <= length cs)%nat ->
  (take i (drop w cs) ++ drop i cs) !! (i + w)%nat = cs !! (i + w)%nat.
Proof.
  intros H.
  assert (length (take i (drop w cs)) = i) as L
    by (rewrite length_take, length_drop; lia).
  rewrite lookup_app_r by lia. rewrite L, lookup_drop. f_equal. lia.
Qed.

Lemma shift_step {A} (cs : list A) (w i : nat) (v : A) :
  cs !! (i + w)%nat = Some v ->
  <[i := v]> (take i (drop w cs) ++ drop i cs)
  = take (S i) (drop w cs) ++ drop (S i) cs.
Proof.
  intros Hv. pose proof (lookup_lt_Some _ _ _ Hv) as Hlt.
  assert (length (take i (drop w cs)) = i) as L
    by (rewrite length_take, length_drop; lia).
  rewrite insert_app_r_alt by lia. rewrite L, Nat.sub_diag.
  destruct (lookup_lt_is_Some_2 cs i) as [y Hy]; [lia |].
  rewrite (drop_S cs y i Hy).
  rewrite (take_S_r (drop w cs) i v)
    by (rewrite lookup_drop; rewrite <- Hv; f_equal; lia).
  rewrite <- app_assoc. reflexivity.
Qed.

Lemma cls_eq self :
  Z.of_nat (length (chars self)) = chars_len self ->
  _cls self = Ok (tt, cleared self).
Proof.
  intros Hlen.
  assert (returns _cls self (fun _ s' => s' = cleared self)) as R.
  { unfold _cls. step. step. step. step. cbv beta. step.
    eapply returns_mono.
    - apply (returns_for_range
        (fun i s => s = with_chars (with_drawn self (Fill 0))
                          (replicate (Z.to_nat i) 32 ++ drop (Z.to_nat i) (chars self)))).
      + simpl. lia.
      + reflexivity.
      + intros i s Hi ->. simpl in Hi. apply returns_chars_set.
        * simpl. rewrite length_app, length_replicate, length_drop. lia.
        * unfold with_chars. simpl. f_equal.
          replace (Z.to_nat (i + 1)) with (S (Z.to_nat i)) by lia.
          apply blank_step. lia.
    - intros u s ->. step. unfold cleared, with_cursor, with_chars. simpl.
      f_equal. rewrite drop_ge by lia. apply app_nil_r. }
  destruct R as ([] & s' & E & ->). exact E.
Qed.

Lemma scroll_eq self :
  wf self -> _scroll self = Ok (tt, scrolled self).
Proof.
  intros W.
  pose proof (wf_length _ W) as Hlen. pose proof (wf_len _ W) as Hn.
  pose proof (wf_width _ W) as Hlw. pose proof (wf_count _ W) as Hlc.
  set (n := chars_len self) in *. set (lw := line_width self) in *.
  set (cs := chars self) in *.
  assert (lw <= n) as Hle by nia.
  assert (returns _scroll self (fun _ s' => s' = scrolled self)) as R.
  { unfold _scroll. do 5 (step; step). cbv beta. fold n lw.
    step. eapply returns_mono.
    - apply (returns_for_range
        (fun i s => s = with_chars self
                          (take (Z.to_nat i) (drop (Z.to_nat lw) cs)
                             ++ drop (Z.to_nat i) cs))).
      + lia.
      + destruct self; reflexivity.
      + intros i s Hi ->. step. apply returns_chars_get.
        * simpl. rewrite length_app, length_take, !length_drop. fold cs. lia.
        * intros v Hv. unfold cell in Hv. simpl in Hv.
          replace (Z.to_nat (i + lw)) with (Z.to_nat i + Z.to_nat lw)%nat in Hv by lia.
          rewrite shift_read in Hv by lia.
          apply returns_chars_set.
          -- simpl. rewrite length_app, length_take, !length_drop. fold cs. lia.
          -- unfold with_chars. simpl. f_equal.
             replace (Z.to_nat (i + 1)) with (S (Z.to_nat i)) by lia.
             apply shift_step. exact Hv.
    - intros u s ->. cbv beta. step. eapply returns_mono.
      + apply (returns_for_range
          (fun i s => s = with_chars self
                            (drop (Z.to_nat lw) cs
                               ++ replicate (Z.to_nat (i - (n - lw))) 32
                               ++ drop (Z.to_nat i) cs))).
        * lia.
        * unfold with_chars. simpl. f_equal.
          rewrite Z.sub_diag. simpl.
          rewrite take_ge by (rewrite length_drop; lia). reflexivity.
        * intros i s Hi ->. apply returns_chars_set.
          -- simpl. rewrite !length_app, length_replicate, !length_drop. fold cs. lia.
          -- unfold with_chars. simpl. f_equal.
             rewrite insert_app_r_alt by (rewrite length_drop; lia).
             rewrite length_drop. f_equal.
             replace (Z.to_nat i - (length cs - Z.to_nat lw))%nat
               with (Z.to_nat (i - (n - lw))) by lia.
             replace (Z.to_nat (i + 1 - (n - lw)))
               with (S (Z.to_nat (i - (n - lw)))) by lia.
             replace (Z.to_nat (i + 1)) with (S (Z.to_nat i)) by lia.
             apply blank_step. lia.
      + intros u' s ->. cbv beta. step. step. step.
        unfold scrolled, with_drawn, with_chars. simpl. fold lw cs.
        rewrite <- app_assoc. simpl. f_equal.
        replace (n - (n - lw)) with lw by lia.
        rewrite (drop_ge cs (Z.to_nat n)) by lia. rewrite app_nil_r. reflexivity. }
  destruct R as ([] & s' & E & ->). exact E.
Qed.

Lemma wf_scrolled self : wf self -> wf (scrolled self).
Proof.
  intros W. apply (wf_same_setup self); [exact W | repeat split | |].
  - simpl. rewrite length_app, length_drop, length_replicate.
    pose proof (wf_length _ W). pose proof (wf_len _ W).
    pose proof (wf_width _ W). pose proof (wf_count _ W). nia.
  - simpl. apply Forall_app. split.
    + apply Forall_drop. apply (wf_cells _ W).
    + apply Forall_replicate. lia.
Qed.

Lemma wf_cleared self : wf self -> wf (cleared self).
Proof.
  intros W. apply (wf_same_setup self); [exact W | repeat split | |].
  - simpl. rewrite length_replicate.
    pose proof (wf_length _ W). lia.
  - simpl. apply Forall_replicate. lia.
Qed.

(** ** The control codes of [print] *)

(** What the blanking loops of codes 10, 13, 30 and 31 keep. *)
Lemma returns_blank_run self cur k :
  wf self -> 0 <= cur -> cur + k <= chars_len self ->
  returns (for_each (Py.range 0 k) (fun i => _update_char (cur + i) 32)) self
    (fun _ s' => wf s' /\ same_setup self s' /\ cursor s' = cursor self /\
                 scrolls s' = scrolls self).
Proof.
  intros W Hcur Hk. destruct (Z.le_gt_cases k 0) as [Hle | Hgt].
  - exists tt, self. split; [apply for_range_empty; exact Hle |].
    repeat split; try assumption; try apply W.
  - apply (returns_for_range
             (fun _ s => wf s /\ same_setup self s /\ cursor s = cursor self /\
                         scrolls s = scrolls self)).
    + lia.
    + repeat split; try assumption; try apply W.
    + intros i s Hi (Ws & Hs & Hc & Hsc).
      assert (chars_len s = chars_len self) as Hn by apply Hs.
      eapply returns_mono;
        [apply update_char_written; [exact Ws | lia | lia] |].
      intros u s' (Ws' & Hs' & Hc' & _ & Hsc' & _). cbv beta.
      split; [exact Ws' |].
      split; [eapply same_setup_trans; eassumption |].
      split; congruence.
Qed.

Lemma for_each_app {A} (xs ys : list A) (body : A -> M unit) self :
  for_each (xs ++ ys) body self
  = bind (for_each xs body) (fun _ => for_each ys body) self.
Proof.
  revert self. induction xs as [| x xs IH]; intros self.
  - reflexivity.
  - simpl. unfold bind. destruct (body x self) as [[[] s] | e].
    + rewrite IH. reflexivity.
    + reflexivity.
Qed.

Lemma cursor_split lw lc cur :
  0 < lw -> 0 <= cur < lw * lc ->
  0 <= Py.int_div cur lw < lc /\ 0 <= cur mod lw < lw /\
  cur = Py.int_div cur lw * lw + cur mod lw.
Proof.
  intros Hlw Hcur. split; [apply row_in_range; assumption |].
  split; [apply Z.mod_pos_bound; lia |].
  unfold Py.int_div. rewrite Z.quot_div_nonneg by lia.
  pose proof (Z.div_mod cur lw ltac:(lia)). lia.
Qed.

(** A tab code moves the cursor to [row * line_width + max(col, c - 191)]
    and touches nothing else, whatever the geometry. *)
Lemma print_char_tab self c :
  191 <= c < 256 ->
  print_char c self =
  Ok (tt, with_cursor self
            (Py.int_div (cursor self) (line_width self) * line_width self
             + (if cursor self mod line_width self <? c - 191
                then c - 191 else cursor self mod line_width self))).
Proof.
  intros Hc. unfold print_char, bind, get.
  repeat match goal with
         | |- context [c =? ?k] => destruct (Z.eqb_spec c k); [lia |]
         end.
  simpl.
  destruct (Z.leb_spec 191 c); [| lia].
  destruct (Z.ltb_spec c 256); [| lia].
  reflexivity.
Qed.

Lemma print_char_plain self c :
  is_plain c ->
  print_char c self =
  bind (_update_char (cursor self) c) (fun _ =>
  bind (modify (fun s => with_cursor s (cursor self + 1))) (fun _ =>
    if chars_len self <=? cursor self + 1 then
      bind _scroll (fun _ =>
        modify (fun s => with_cursor s ((line_count self - 1) * line_width self)))
    else ret tt)) self.
Proof.
  intros (Hc & H8 & H10 & H13 & Hctl). unfold print_char.
  unfold bind at 1 2 3 4. unfold get at 1 2 3 4.
  repeat match goal with
         | |- context [c =? ?k] => destruct (Z.eqb_spec c k); [lia |]
         end.
  simpl.
  destruct (Z.leb_spec 191 c); [lia |]. reflexivity.
Qed.

(** Moving the cursor alone keeps everything else. *)
Lemma moved_keeps self p :
  wf self -> 0 <= p < chars_len self ->
  wf (with_cursor self p) /\ same_setup self (with_cursor self p) /\
  cursor_ok (with_cursor self p).
Proof.
  intros W Hp. split; [apply wf_with_cursor; exact W |].
  split; [repeat split | exact Hp].
Qed.

Lemma print_char_plain_returns self c :
  wf self -> cursor_ok self -> is_plain c ->
  returns (print_char c) self
    (fun _ s' =>
       wf s' /\ same_setup self s' /\
       if chars_len self <=? cursor self + 1 then
         cursor s' = (line_count self - 1) * line_width self /\
         chars s' = chars (scrolled (update_char_result self (cursor self) c)) /\
         scrolls s' = S (scrolls self)
       else
         cursor s' = cursor self + 1 /\
         chars s' = <[Z.to_nat (cursor self) := c]> (chars self) /\
         scrolls s' = scrolls self).
Proof.
  intros W Hcur Hplain. pose proof Hplain as (Hc & _).
  exists tt. rewrite print_char_plain by exact Hplain.
  unfold bind at 1. rewrite update_char_eq by (try assumption; lia).
  pose proof (update_char_result_written (cursor self) c self W Hcur ltac:(lia))
    as (W1 & S1 & C1 & Ch1 & Sc1 & _).
  set (s1 := update_char_result self (cursor self) c) in *.
  unfold bind at 1, modify at 1.
  destruct (Z.leb_spec (chars_len self) (cursor self + 1)) as [Hend | Hmid].
  - unfold bind. rewrite scroll_eq by (apply wf_with_cursor; exact W1).
    unfold modify. eexists. split; [reflexivity |].
    split; [apply wf_with_cursor, wf_scrolled, wf_with_cursor; exact W1 |].
    split; [| split; [reflexivity | split; [reflexivity |]]].
    + destruct S1 as (? & ? & ? & ? & ? & ? & ?). repeat split; assumption.
    + unfold scrolls in *. simpl. rewrite List.filter_app, length_app, Sc1.
      simpl. lia.
  - unfold ret. eexists. split; [reflexivity |].
    split; [apply wf_with_cursor; exact W1 |].
    split; [| split; [reflexivity | split; [exact Ch1 | exact Sc1]]].
    destruct S1 as (? & ? & ? & ? & ? & ? & ?). repeat split; assumption.
Qed.

(** Every code in [0,256) keeps the Runtime well formed and the cursor in
    range, provided a tab code names a column of the row. *)
Lemma print_char_keeps self c :
  wf self -> cursor_ok self -> 0 <= c < 256 ->
  (191 <= c -> c - 191 < line_width self) ->
  returns (print_char c) self
    (fun _ s' => wf s' /\ same_setup self s' /\ cursor_ok s').
Proof.
  intros W Hcur Hc Htab.
  pose proof (wf_width _ W) as Hlw. pose proof (wf_count _ W) as Hlc.
  pose proof (wf_len _ W) as Hn.
  unfold cursor_ok in Hcur. rewrite Hn in Hcur.
  destruct (cursor_split _ _ _ Hlw Hcur) as (Hrow & Hcol & Hsplit).
  set (row := Py.int_div (cursor self) (line_width self)) in *.
  set (col := cursor self mod line_width self) in *.
  destruct (Z.le_gt_cases 191 c) as [Ht | Hnt].
  { exists tt. rewrite print_char_tab by lia. eexists. split; [reflexivity |].
    apply moved_keeps; [exact W |]. rewrite Hn. fold row col.
    specialize (Htab Ht). destruct (col <? c - 191); nia. }
  destruct (decide (is_plain c)) as [Hp | Hnp].
  { eapply returns_mono;
      [apply print_char_plain_returns; [exact W | unfold cursor_ok; lia | exact Hp] |].
    intros u s' (W' & S' & Hif). cbv beta.
    split; [exact W' |]. split; [exact S' |].
    unfold cursor_ok. replace (chars_len s') with (chars_len self) by (symmetry; apply S').
    rewrite Hn in *.
    destruct (Z.leb_spec (line_width self * line_count self) (cursor self + 1));
      destruct Hif as (-> & _); nia. }
  assert (c = 8 \/ c = 10 \/ c = 13 \/ c = 24 \/ c = 25 \/ c = 26 \/ c = 27 \/
          c = 28 \/ c = 29 \/ c = 30 \/ c = 31) as Hcases
    by (unfold is_plain in Hnp; lia).
  assert (forall p, 0 <= p < line_width self * line_count self ->
            returns (modify (fun s => with_cursor s p)) self
              (fun _ s' => wf s' /\ same_setup self s' /\ cursor_ok s')) as Hmove.
  { intros p Hp. step. apply moved_keeps; [exact W | lia]. }
  assert (forall k, cursor self + k <= chars_len self ->
            returns (for_each (Py.range 0 k)
                       (fun i => _update_char (cursor self + i) 32)) self
              (fun _ s' => wf s' /\ same_setup self s' /\ cursor s' = cursor self))
    as Hblank.
  { intros k Hk. eapply returns_mono;
      [apply returns_blank_run; [exact W | lia | exact Hk] |].
    cbv beta. intros u s' (? & ? & ? & ?). auto. }
  destruct Hcases as [-> | [-> | [-> | [-> | [-> | [-> | [-> | [-> | [-> | [-> | ->]]]]]]]]]];
    unfold print_char; do 4 (step; step); cbv beta;
    change (8 =? 8) with true; cbn [Z.eqb Pos.eqb orb andb]; fold row col.
  - (* 8: back space *)
    pose proof (Z.mod_pos_bound (cursor self - 1 + chars_len self) (chars_len self)
                  ltac:(lia)) as Hb.
    step. step. eapply returns_mono;
      [apply update_char_written; [apply wf_with_cursor; exact W | exact Hb | lia] |].
    intros u s' (W' & S' & C' & _). cbv beta.
    split; [exact W' |]. split; [exact S' |].
    unfold cursor_ok. rewrite C'. simpl.
    replace (chars_len s') with (chars_len self) by (symmetry; apply S'). exact Hb.
  - (* 10: line feed *)
    step. eapply returns_mono; [apply Hblank; nia |].
    intros u s (Ws & Ss & Cs). cbv beta.
    assert (line_width s = line_width self /\ line_count s = line_count self
            /\ chars_len s = chars_len self) as (El & Ec & En)
      by (destruct Ss as (? & ? & ? & ? & ? & ? & ?); auto).
    destruct (row <? line_count self - 1) eqn:E.
    + apply Z.ltb_lt in E. step.
      destruct (moved_keeps s ((row + 1) * line_width self) Ws ltac:(nia))
        as (? & ? & ?).
      split; [assumption |]. split; [eapply same_setup_trans; eassumption | assumption].
    + step. exists tt, (scrolled s). split; [apply scroll_eq; exact Ws |].
      step.
      destruct (moved_keeps (scrolled s) (row * line_width self)
                  (wf_scrolled s Ws) ltac:(simpl; nia)) as (? & ? & ?).
      split; [assumption |]. split; [| assumption].
      eapply same_setup_trans; [exact Ss |].
      eapply same_setup_trans; [| eassumption]. repeat split.
  - (* 13: carriage return *)
    step. eapply returns_mono; [apply Hblank; nia |].
    intros u s (Ws & Ss & Cs). cbv beta.
    assert (line_width s = line_width self /\ line_count s = line_count self
            /\ chars_len s = chars_len self) as (El & Ec & En)
      by (destruct Ss as (? & ? & ? & ? & ? & ? & ?); auto).
    destruct (row <? line_count self - 1) eqn:E.
    + apply Z.ltb_lt in E. step.
      destruct (moved_keeps s ((row + 1) * line_width self) Ws ltac:(nia))
        as (? & ? & ?).
      split; [assumption |]. split; [eapply same_setup_trans; eassumption | assumption].
    + step. exists tt, (scrolled s). split; [apply scroll_eq; exact Ws |].
      step.
      destruct (moved_keeps (scrolled s) (row * line_width self)
                  (wf_scrolled s Ws) ltac:(simpl; nia)) as (? & ? & ?).
      split; [assumption |]. split; [| assumption].
      eapply same_setup_trans; [exact Ss |].
      eapply same_setup_trans; [| eassumption]. repeat split.
  - (* 24: left *)
    apply Hmove.
    pose proof (Z.mod_pos_bound (col - 1 + line_width self) (line_width self)
                  ltac:(lia)). nia.
  - (* 25: right *)
    apply Hmove.
    pose proof (Z.mod_pos_bound (col + 1) (line_width self) ltac:(lia)). nia.
  - (* 26: down *)
    apply Hmove.
    pose proof (Z.mod_pos_bound (row + 1) (line_count self) ltac:(lia)). nia.
  - (* 27: up *)
    apply Hmove.
    pose proof (Z.mod_pos_bound (row - 1 + line_count self) (line_count self)
                  ltac:(lia)). nia.
  - (* 28: home *)
    apply Hmove. nia.
  - (* 29: start of line *)
    apply Hmove. nia.
  - (* 30: clear to end of line *)
    eapply returns_mono; [apply Hblank; nia |].
    intros u s (Ws & Ss & Cs). cbv beta.
    split; [exact Ws |]. split; [exact Ss |].
    unfold cursor_ok. rewrite Cs.
    replace (chars_len s) with (chars_len self) by (symmetry; apply Ss). lia.
  - (* 31: clear to end of screen *)
    eapply returns_mono; [apply Hblank; lia |].
    intros u s (Ws & Ss & Cs). cbv beta.
    split; [exact Ws |]. split; [exact Ss |].
    unfold cursor_ok. rewrite Cs.
    replace (chars_len s) with (chars_len self) by (symmetry; apply Ss). lia.
Qed.

(** ** Printing plain characters *)

Lemma print_cons c text self :
  print (c :: text) self = bind (print_char c) (fun _ => print text) self.
Proof. reflexivity. Qed.

Lemma print_app t1 t2 self :
  print (t1 ++ t2) self = bind (print t1) (fun _ => print t2) self.
Proof. apply for_each_app. Qed.

Lemma take_succ_insert {A} (l : list A) (p : nat) (c : A) :
  (p < length l)%nat -> take (S p) (<[p := c]> l) = take p l ++ [c].
Proof.
  intros Hp. rewrite (take_S_r _ p c).
  - rewrite take_insert_ge by lia. reflexivity.
  - apply list_lookup_insert_eq. exact Hp.
Qed.

(** Plain characters that stay before the last cell are written one after
    the other, and nothing scrolls. *)
Lemma print_plain_run text : forall self,
  wf self -> 0 <= cursor self ->
  Forall is_plain text ->
  cursor self + Z.of_nat (length text) < chars_len self ->
  returns (print text) self
    (fun _ s' =>
       wf s' /\ same_setup self s' /\
       cursor s' = cursor self + Z.of_nat (length text) /\
       chars s' = take (Z.to_nat (cursor self)) (chars self) ++ text
                    ++ drop (Z.to_nat (cursor self) + length text) (chars self) /\
       scrolls s' = scrolls self).
Proof.
  induction text as [| c text IH]; intros self W Hcur Hplain Hfit.
  - exists tt, self. split; [reflexivity |].
    split; [exact W |]. split; [apply same_setup_refl |].
    split; [simpl; lia |]. split; [| reflexivity].
    simpl. rewrite Nat.add_0_r. symmetry. apply take_drop.
  - apply Forall_cons in Hplain. destruct Hplain as [Hc Hrest].
    simpl length in Hfit.
    destruct (print_char_plain_returns self c W ltac:(unfold cursor_ok; lia) Hc)
      as ([] & s1 & E1 & W1 & S1 & Hif).
    destruct (Z.leb_spec (chars_len self) (cursor self + 1)) as [? | _]; [lia |].
    destruct Hif as (C1 & Ch1 & Sc1).
    assert (chars_len s1 = chars_len self) as En by apply S1.
    destruct (IH s1 W1 ltac:(lia) Hrest ltac:(lia)) as ([] & s' & E' & W' & S' & C' & Ch' & Sc').
    exists tt, s'. split; [rewrite print_cons; unfold bind; rewrite E1; exact E' |].
    split; [exact W' |]. split; [eapply same_setup_trans; eassumption |].
    split; [simpl length; lia |]. split; [| congruence].
    rewrite Ch', C1, Ch1. pose proof (wf_length _ W) as Hlen.
    replace (Z.to_nat (cursor self + 1)) with (S (Z.to_nat (cursor self))) by lia.
    rewrite take_succ_insert by lia.
    rewrite drop_insert_lt by lia.
    simpl length.
    replace (Z.to_nat (cursor self) + S (length text))%nat
      with (S (Z.to_nat (cursor self)) + length text)%nat by lia.
    rewrite <- app_assoc. reflexivity.
Qed.

(** ** The claim on scrolling *)

(** C6. [_scroll] copies cell [i + line_width] to cell [i] for every
    [i] in [0, chars_len - line_width) and blanks the last row.  Printing
    [line_width] plain characters from column 0 of a row that is not the last
    puts the cursor at the start of the next row and scrolls nothing;
    from column 0 of the last row it scrolls exactly once, leaves the cursor
    at the start of the last row, and the last row is all blank. *)
Theorem scroll_and_full_line (self : Runtime) :
  wf self ->
  (exists s', _scroll self = Ok (tt, s') /\
     (forall i, 0 <= i < chars_len self - line_width self ->
                cell s' i = cell self (i + line_width self)) /\
     (forall i, chars_len self - line_width self <= i < chars_len self ->
                cell s' i = Some 32)) /\
  (forall (text : str) (row : Z),
     Forall is_plain text ->
     Z.of_nat (length text) = line_width self ->
     0 <= row < line_count self ->
     cursor self = row * line_width self ->
     exists s', print text self = Ok (tt, s') /\
       if row <? line_count self - 1 then
         cursor s' = (row + 1) * line_width self /\
         scrolls s' = scrolls self
       else
         scrolls s' = S (scrolls self) /\
         cursor s' = (line_count self - 1) * line_width self /\
         (forall i, chars_len self - line_width self <= i < chars_len self ->
                    cell s' i = Some 32)).
Proof.
  intros W.
  pose proof (wf_width _ W) as Hlw. pose proof (wf_count _ W) as Hlc.
  pose proof (wf_len _ W) as Hn. pose proof (wf_length _ W) as Hl.
  assert (forall s i, wf s -> chars_len s = chars_len self ->
            line_width s = line_width self ->
            chars_len self - line_width self <= i < chars_len self ->
            cell (scrolled s) i = Some 32) as Hblank.
  { intros s i Ws En El Hi. unfold cell, scrolled. simpl.
    pose proof (wf_length _ Ws).
    rewrite lookup_app_r by (rewrite length_drop; nia).
    apply lookup_replicate_2. rewrite length_drop. nia. }
  split.
  - exists (scrolled self). split; [apply scroll_eq; exact W |]. split.
    + intros i Hi. unfold cell, scrolled. simpl.
      rewrite lookup_app_l by (rewrite length_drop; lia).
      rewrite lookup_drop. f_equal. lia.
    + intros i Hi. apply Hblank; [exact W | reflexivity | reflexivity | exact Hi].
  - intros text row Hplain Hlen Hrow Hcur.
    destruct (Z.ltb_spec row (line_count self - 1)) as [Hmid | Hlast].
    + destruct (print_plain_run text self W ltac:(nia) Hplain ltac:(nia))
        as ([] & s' & E & _ & _ & C' & _ & Sc').
      exists s'. split; [exact E |]. split; [nia | exact Sc'].
    + assert (row = line_count self - 1) as -> by lia.
      destruct (exists_last (l := text)) as (t & c & ->).
      { intros ->. simpl in Hlen. lia. }
      rewrite length_app in Hlen. simpl in Hlen.
      apply Forall_app in Hplain. destruct Hplain as [Ht Hc].
      apply Forall_cons in Hc. destruct Hc as [Hc _].
      destruct (print_plain_run t self W ltac:(nia) Ht ltac:(nia))
        as ([] & s1 & E1 & W1 & S1 & C1 & _ & Sc1).
      assert (chars_len s1 = chars_len self /\ line_width s1 = line_width self
              /\ line_count s1 = line_count self) as (En & El & Ec)
        by (destruct S1 as (? & ? & ? & ? & ? & ? & ?); auto).
      destruct (print_char_plain_returns s1 c W1 ltac:(unfold cursor_ok; nia) Hc)
        as ([] & s' & E' & W' & S' & Hif).
      destruct (Z.leb_spec (chars_len s1) (cursor s1 + 1)) as [_ | ?]; [| nia].
      destruct Hif as (C' & Ch' & Sc').
      exists s'. split.
      { rewrite print_app. unfold bind. rewrite E1.
        rewrite print_cons. unfold bind. rewrite E'. reflexivity. }
      split; [congruence |]. split; [congruence |].
      intros i Hi. unfold cell. rewrite Ch'.
      pose proof (update_char_result_written (cursor s1) c s1 W1
                    ltac:(nia) ltac:(destruct Hc; lia)) as (W2 & S2 & _).
      apply (Hblank _ i W2); [| | exact Hi].
      * transitivity (chars_len s1); [apply S2 | exact En].
      * transitivity (line_width s1); [apply S2 | exact El].
Qed.

(** ** Tab codes and the range of the cursor *)

(** A tab code whose column exists in the row: the cursor goes to that
    column when it lies to the right, stays otherwise; the row is kept, the
    cursor never goes left and no cell changes. *)
Lemma tab_within_row self c :
  wf self -> cursor_ok self ->
  191 <= c <= 255 -> c - 191 < line_width self ->
  exists s', print [c] self = Ok (tt, s') /\
    chars s' = chars self /\
    Py.int_div (cursor s') (line_width self)
      = Py.int_div (cursor self) (line_width self) /\
    cursor s' mod line_width self
      = (if cursor self mod line_width self <? c - 191
         then c - 191 else cursor self mod line_width self) /\
    cursor self <= cursor s'.
Proof.
  intros W Hcur Hc Htab.
  pose proof (wf_width _ W) as Hlw. pose proof (wf_len _ W) as Hn.
  unfold cursor_ok in Hcur. rewrite Hn in Hcur.
  destruct (cursor_split _ _ _ Hlw Hcur) as (Hrow & Hcol & Hsplit).
  eexists. split.
  { rewrite print_cons. unfold bind. rewrite print_char_tab by lia. reflexivity. }
  set (row := Py.int_div (cursor self) (line_width self)) in *.
  set (col := cursor self mod line_width self) in *.
  set (col' := if col <? c - 191 then c - 191 else col).
  assert (0 <= col' < line_width self /\ col <= col') as (Hc' & Hge)
    by (unfold col'; destruct (Z.ltb_spec col (c - 191)); lia).
  simpl. split; [reflexivity |].
  split; [| split].
  - unfold Py.int_div. rewrite Z.quot_div_nonneg by nia.
    symmetry. apply (Z.div_unique _ _ row col'); [lia | lia].
  - symmetry. apply (Z.mod_unique _ _ row col'); [lia | lia].
  - lia.
Qed.

Lemma print_keeps text : forall self,
  wf self -> cursor_ok self -> cell_codes text -> tabs_in_row self text ->
  returns (print text) self
    (fun _ s' => wf s' /\ same_setup self s' /\ cursor_ok s').
Proof.
  induction text as [| c text IH]; intros self W Hcur Hcodes Htabs.
  - exists tt, self. split; [reflexivity |].
    split; [exact W |]. split; [apply same_setup_refl | exact Hcur].
  - apply Forall_cons in Hcodes. destruct Hcodes as [Hc Hcodes].
    apply Forall_cons in Htabs. destruct Htabs as [Ht Htabs].
    destruct (print_char_keeps self c W Hcur Hc Ht) as ([] & s1 & E1 & W1 & S1 & C1).
    assert (line_width s1 = line_width self) as El by apply S1.
    destruct (IH s1 W1 C1 Hcodes) as ([] & s' & E' & W' & S' & C').
    { unfold tabs_in_row. rewrite El. exact Htabs. }
    exists tt, s'. split; [rewrite print_cons; unfold bind; rewrite E1; exact E' |].
    split; [exact W' |]. split; [eapply same_setup_trans; eassumption | exact C'].
Qed.

Lemma written_keeps self pos c s' :
  cursor_ok self -> cell_written self pos c s' ->
  wf s' /\ same_setup self s' /\ cursor_ok s'.
Proof.
  intros Hcur (W' & S' & C' & _). split; [exact W' |]. split; [exact S' |].
  unfold cursor_ok. rewrite C'.
  replace (chars_len s') with (chars_len self) by (symmetry; apply S'). exact Hcur.
Qed.

(** Each call keeps the Runtime well formed and the cursor in range, as long
    as the tab codes it prints name columns of the row. *)
Lemma perform_keeps self c :
  wf self -> cursor_ok self -> precondition self c -> tabs_fit self c ->
  returns (perform c) self
    (fun _ s' => wf s' /\ same_setup self s' /\ cursor_ok s').
Proof.
  intros W Hcur Hpre Htabs.
  pose proof (wf_width _ W) as Hlw. pose proof (wf_count _ W) as Hlc.
  pose proof (wf_len _ W) as Hn.
  destruct c as [| text | pos text | addr val | x y | x y]; simpl in *.
  - exists tt, (cleared self). split; [apply cls_eq, (wf_length _ W) |].
    split; [apply wf_cleared; exact W |]. split; [repeat split |].
    unfold cursor_ok. simpl. nia.
  - apply print_keeps; assumption.
  - destruct Hpre as [Hpos Hcodes]. unfold print_at.
    do 2 (step; step). cbv beta. step. step.
    { apply andb_true_iff. split; [apply Z.leb_le | apply Z.ltb_lt]; lia. }
    step. step. cbv beta.
    destruct (moved_keeps self pos W ltac:(lia)) as (W1 & S1 & C1).
    eapply returns_mono; [apply print_keeps; [exact W1 | exact C1 | exact Hcodes | exact Htabs] |].
    cbv beta. intros u s' (W' & S' & C'). split; [exact W' |].
    split; [exact (same_setup_trans _ _ _ S1 S') | exact C'].
  - destruct (decide (in_window self addr)) as [Hin | Hout].
    + exists tt, (update_char_result self (addr - 15360) val).
      unfold in_window in Hin.
      split; [rewrite poke_inside by exact Hin;
              apply update_char_eq; [exact W | lia | exact Hpre] |].
      eapply written_keeps; [exact Hcur |].
      apply update_char_result_written; [exact W | lia | exact Hpre].
    + exists tt, self. split; [apply poke_outside; exact Hout |].
      split; [exact W |]. split; [apply same_setup_refl | exact Hcur].
  - destruct Hpre as [Hx Hy].
    pose proof (pixel_in_buffer self x y W Hx Hy) as Hpos.
    destruct (wf_cell self _ W Hpos) as (b & Hb & Hbyte).
    eapply returns_mono; [apply (set_written self x y W Hx Hy b Hb Hbyte) |].
    cbv beta. intros u s'. apply written_keeps. exact Hcur.
  - destruct Hpre as [Hx Hy].
    pose proof (pixel_in_buffer self x y W Hx Hy) as Hpos.
    destruct (wf_cell self _ W Hpos) as (b & Hb & Hbyte).
    eapply returns_mono; [apply (reset_written self x y W Hx Hy b Hb Hbyte) |].
    cbv beta. intros u s'. apply written_keeps. exact Hcur.
Qed.

Lemma precondition_same_setup a b c :
  same_setup a b -> precondition a c -> precondition b c.
Proof.
  intros (El & Ec & _) H. destruct c; simpl in *; rewrite ?El, ?Ec; exact H.
Qed.

Lemma tabs_fit_same_setup a b c :
  same_setup a b -> tabs_fit a c -> tabs_fit b c.
Proof.
  intros (El & _) H. destruct c; simpl in *; unfold tabs_in_row in *;
    rewrite ?El; exact H.
Qed.

(** A whole sequence of calls, under the same proviso. *)
Lemma calls_keep_cursor cs : forall self,
  wf self -> cursor_ok self ->
  Forall (precondition self) cs -> Forall (tabs_fit self) cs ->
  returns (for_each cs perform) self
    (fun _ s' => wf s' /\ same_setup self s' /\ cursor_ok s').
Proof.
  induction cs as [| c cs IH]; intros self W Hcur Hpre Htabs.
  - exists tt, self. split; [reflexivity |].
    split; [exact W |]. split; [apply same_setup_refl | exact Hcur].
  - apply Forall_cons in Hpre. destruct Hpre as [Hp Hpre].
    apply Forall_cons in Htabs. destruct Htabs as [Ht Htabs].
    destruct (perform_keeps self c W Hcur Hp Ht) as ([] & s1 & E1 & W1 & S1 & C1).
    destruct (IH s1 W1 C1) as ([] & s' & E' & W' & S' & C').
    { eapply Forall_impl; [exact Hpre |]. intros c'. apply precondition_same_setup. exact S1. }
    { eapply Forall_impl; [exact Htabs |]. intros c'. apply tabs_fit_same_setup. exact S1. }
    exists tt, s'. split; [simpl; unfold bind; rewrite E1; exact E' |].
    split; [exact W' |]. split; [eapply same_setup_trans; eassumption | exact C'].
Qed.

(** ** The supported modes *)

Example print_two_lines :
  exists s', print (txt "AB" ++ [10] ++ txt "CD") small = Ok (tt, s') /\
             chars s' = [65; 66; 32; 32; 67; 68; 32; 32] /\ cursor s' = 6.
Proof. eexists. split; [vm_compute; reflexivity |]. split; reflexivity. Qed.

Example cls_resets :
  exists s1 s2, print (txt "ABCDEFGHIJ") small = Ok (tt, s1) /\
                cls s1 = Ok (tt, s2) /\
                chars s2 = replicate 8 32 /\ cursor s2 = 0.
Proof.
  eexists. eexists. split; [vm_compute; reflexivity |].
  split; [vm_compute; reflexivity |]. split; reflexivity.
Qed.

Example tab_from_column_2_and_8 :
  (exists s', print_at 2 [191 + 5] mode64 = Ok (tt, s') /\ cursor s' = 5) /\
  (exists s', print_at 8 [191 + 5] mode64 = Ok (tt, s') /\ cursor s' = 8).
Proof.
  split; eexists; (split; [vm_compute; reflexivity | reflexivity]).
Qed.

(** The codes [tab] hands out are 191 to 254; column 64 (code 255) is not
    among them. *)
Example tab_codes self :
  tab 0 self = Ok ([191], self) /\ tab 40 self = Ok ([231], self) /\
  tab 63 self = Ok ([254], self) /\ tab 64 self = Raise AssertionError.
Proof. repeat split. Qed.

Lemma init_64 load_font :
  __init__ load_font 64
  = Ok (new_runtime 64 16 4 12 5 (load_font "fonts/AnotherMansTreasureMIII64C.pcf"%string)).
Proof. reflexivity. Qed.

Lemma init_32 load_font :
  __init__ load_font 32
  = Ok (new_runtime 32 16 8 12 5 (load_font "fonts/AnotherMansTreasureMIII32C.pcf"%string)).
Proof. reflexivity. Qed.

Lemma init_unsupported load_font mode :
  mode <> 64 -> mode <> 32 -> __init__ load_font mode = Raise ValueError.
Proof.
  intros H64 H32. unfold __init__.
  destruct (Z.eqb_spec mode 64); [contradiction |].
  destruct (Z.eqb_spec mode 32); [contradiction | reflexivity].
Qed.

Lemma demo_font_fits cw ch :
  4 <= cw -> 12 <= ch ->
  forall name c, 0 <= c < 256 ->
    exists g, demo_font name (0xE000 + c) = Some g /\
              0 <= dx g < cw /\ 0 <= - 5 + ch - height g - dy g < ch.
Proof.
  intros Hcw Hch name c _. eexists. split; [reflexivity |]. simpl. lia.
Qed.

Lemma wf_mode64 : wf mode64.
Proof.
  apply wf_new_runtime; [lia | lia |]. apply (demo_font_fits 4 12); lia.
Qed.

Lemma wf_mode32 : wf mode32.
Proof.
  apply wf_new_runtime; [lia | lia |]. apply (demo_font_fits 8 12); lia.
Qed.

(** ** Unfolding a method up to its call of [_update_char] *)

Lemma bind_get {A B} (f : Runtime -> A) (k : A -> M B) self :
  bind (get f) k self = k (f self) self.
Proof. reflexivity. Qed.

Lemma bind_assert {B} (b : bool) (k : unit -> M B) self :
  b = true -> bind (assert b) k self = k tt self.
Proof. intros ->. reflexivity. Qed.

Lemma bind_chars_get {B} pos v (k : Z -> M B) self :
  0 <= pos < Z.of_nat (length (chars self)) ->
  cell self pos = Some v ->
  bind (chars_get pos) k self = k v self.
Proof.
  intros Hpos Hv.
  destruct (getitem_in_range (chars self) pos Hpos) as (x & Hx & Hget).
  unfold cell in Hv. rewrite Hv in Hx. injection Hx as <-.
  unfold bind, chars_get, bind, get, lift. rewrite Hget. reflexivity.
Qed.

Lemma set_through_update self x y b :
  wf self ->
  0 <= x < line_width self * 2 -> 0 <= y < line_count self * 3 ->
  cell self (pixel_pos (line_width self) x y) = Some b ->
  set x y self
  = _update_char (pixel_pos (line_width self) x y)
      (Z.setbit (base b) (pixel_bit x y)) self.
Proof.
  intros W Hx Hy Hb. destruct (valid_asserts self x y Hx Hy) as [Ax Ay].
  pose proof (pixel_in_buffer self x y W Hx Hy) as Hpos.
  pose proof (wf_length _ W) as Hlen.
  unfold set. rewrite !bind_get.
  rewrite bind_assert by exact Ax. rewrite bind_assert by exact Ay.
  rewrite (bind_chars_get _ b) by (try exact Hb; lia).
  rewrite top_bit_test, or_bit.
  replace (if negb (Z.testbit b 7) then 128 else b) with (base b)
    by (unfold base; destruct (Z.testbit b 7); reflexivity).
  reflexivity.
Qed.

Lemma reset_through_update self x y b :
  wf self ->
  0 <= x < line_width self * 2 -> 0 <= y < line_count self * 3 ->
  cell self (pixel_pos (line_width self) x y) = Some b -> 0 <= b < 256 ->
  reset x y self
  = _update_char (pixel_pos (line_width self) x y)
      (Z.clearbit (base b) (pixel_bit x y)) self.
Proof.
  intros W Hx Hy Hb Hbyte. destruct (valid_asserts self x y Hx Hy) as [Ax Ay].
  pose proof (pixel_in_buffer self x y W Hx Hy) as Hpos.
  pose proof (wf_length _ W) as Hlen.
  pose proof (pixel_bit_range x y) as Hk.
  unfold reset. rewrite !bind_get.
  rewrite bind_assert by exact Ax. rewrite bind_assert by exact Ay.
  rewrite (bind_chars_get _ b) by (try exact Hb; lia).
  rewrite top_bit_test.
  replace (if negb (Z.testbit b 7) then 128 else b) with (base b)
    by (unfold base; destruct (Z.testbit b 7); reflexivity).
  rewrite and_not_bit by (try lia; unfold base; destruct (Z.testbit b 7); lia).
  reflexivity.
Qed.

(** ** The claims on the cursor *)

(** C1, at inputs where the cursor leaves the buffer.  In mode 64, from the
    start of the last row, the tab code 255 names column 64 and puts the
    cursor at 1024 = [chars_len]; in mode 32, from the start of the last row,
    the tab code 254 (the one [tab(63)] returns) puts it at 543, past
    [chars_len] = 512.  In both states the next printed character raises
    [IndexError].  (With tab columns inside the row the cursor stays in
    range: [calls_keep_cursor].) *)
Theorem tab_moves_cursor_out_of_range (load_font : string -> Z -> option Glyph) :
  (exists r s',
     __init__ load_font 64 = Ok r /\ cursor_ok r /\
     precondition r (PrintAt 960 [255]) /\
     perform (PrintAt 960 [255]) r = Ok (tt, s') /\
     cursor s' = 1024 /\ chars_len s' = 1024 /\ ~ cursor_ok s' /\
     perform (Print [65]) s' = Raise IndexError) /\
  (exists r s',
     __init__ load_font 32 = Ok r /\ cursor_ok r /\
     precondition r (PrintAt 480 [254]) /\
     perform (PrintAt 480 [254]) r = Ok (tt, s') /\
     cursor s' = 543 /\ chars_len s' = 512 /\ ~ cursor_ok s' /\
     perform (Print [65]) s' = Raise IndexError).
Proof.
  split.
  - pose (r := new_runtime 64 16 4 12 5
                (load_font "fonts/AnotherMansTreasureMIII64C.pcf"%string)).
    exists r, (with_cursor r 1024).
    split; [reflexivity |].
    split; [unfold cursor_ok; simpl; lia |].
    split; [split; [simpl; lia | repeat constructor; lia] |].
    split; [vm_compute; reflexivity |].
    split; [reflexivity |]. split; [reflexivity |].
    split; [unfold cursor_ok; simpl; lia |].
    vm_compute. reflexivity.
  - pose (r := new_runtime 32 16 8 12 5
                (load_font "fonts/AnotherMansTreasureMIII32C.pcf"%string)).
    exists r, (with_cursor r 543).
    split; [reflexivity |].
    split; [unfold cursor_ok; simpl; lia |].
    split; [split; [simpl; lia | repeat constructor; lia] |].
    split; [vm_compute; reflexivity |].
    split; [reflexivity |]. split; [reflexivity |].
    split; [unfold cursor_ok; simpl; lia |].
    vm_compute. reflexivity.
Qed.

(** C2, at inputs where a tab code does not stay in its row.  In mode 64,
    from cursor 0, code 255 (column 64) puts the cursor at 64: row 1,
    column 0.  In mode 32, from cursor 0, code 231 (column 40, the code of
    [tab(40)]) puts it at 40: row 1, column 8.  No cell changes.  (When
    the column exists in the row the claim holds: [tab_within_row].) *)
Theorem tab_code_leaves_row (load_font : string -> Z -> option Glyph) :
  (exists r s',
     __init__ load_font 64 = Ok r /\ cursor r = 0 /\
     print [255] r = Ok (tt, s') /\ chars s' = chars r /\
     cursor s' = 64 /\
     Py.int_div (cursor r) (line_width r) = 0 /\
     Py.int_div (cursor s') (line_width s') = 1 /\
     cursor s' mod line_width s' = 0) /\
  (exists r s',
     __init__ load_font 32 = Ok r /\ cursor r = 0 /\
     print [231] r = Ok (tt, s') /\ chars s' = chars r /\
     cursor s' = 40 /\
     Py.int_div (cursor r) (line_width r) = 0 /\
     Py.int_div (cursor s') (line_width s') = 1 /\
     cursor s' mod line_width s' = 8).
Proof.
  split.
  - pose (r := new_runtime 64 16 4 12 5
                (load_font "fonts/AnotherMansTreasureMIII64C.pcf"%string)).
    exists r, (with_cursor r 64).
    split; [reflexivity |]. split; [reflexivity |].
    split; [vm_compute; reflexivity |].
    repeat split.
  - pose (r := new_runtime 32 16 8 12 5
                (load_font "fonts/AnotherMansTreasureMIII32C.pcf"%string)).
    exists r, (with_cursor r 40).
    split; [reflexivity |]. split; [reflexivity |].
    split; [vm_compute; reflexivity |].
    repeat split.
Qed.

(** ** The claims on the memory map and the update primitive *)

(** C8 as stated fails: a value outside [0,255] poked inside the window
    raises [AssertionError]. *)
Lemma poke_rejects_wide_value :
  __init__ demo_font 64 = Ok mode64 /\
  poke 15360 256 mode64 = Raise AssertionError /\
  poke 15360 (-1) mode64 = Raise AssertionError.
Proof. repeat split; vm_compute; reflexivity. Qed.


Lemma redraws_cleared self : redraws (cleared self) = redraws self.
Proof.
  unfold redraws, cleared. simpl.
  rewrite List.filter_app, length_app. simpl. lia.
Qed.


(** ** Which methods act through the update primitive *)




















(** C10. [point] and [peek] only read: for a valid pixel coordinate and for
    any address, the call returns and leaves the buffer and the cursor as
    they were. *)
Theorem queries_are_pure (self : Runtime) :
  wf self ->
  (forall x y,
     0 <= x < line_width self * 2 -> 0 <= y < line_count self * 3 ->
     exists v s', point x y self = Ok (v, s') /\
                  chars s' = chars self /\ cursor s' = cursor self) /\
  (forall addr,
     exists v s', peek addr self = Ok (v, s') /\
                  chars s' = chars self /\ cursor s' = cursor self).
Proof.
  intros W. split.
  - intros x y Hx Hy.
    pose proof (pixel_in_buffer self x y W Hx Hy) as Hpos.
    destruct (wf_cell self _ W Hpos) as (b & Hb & _).
    eexists _, self. split; [apply (point_value self x y W Hx Hy b Hb) |].
    split; reflexivity.
  - intros addr. destruct (decide (in_window self addr)) as [Hin | Hout].
    + destruct (peek_inside self addr W Hin) as (v & _ & E).
      exists v, self. split; [exact E |]. split; reflexivity.
    + exists 0, self. split; [apply peek_outside; exact Hout |]. split; reflexivity.
Qed.

(** ** The theorems at concrete inputs *)

Lemma pixel_addressing_witness :
  wf mode64 /\ 0 <= 3 < line_width mode64 * 2 /\ 0 <= 4 < line_count mode64 * 3 /\
  exists b, cell mode64 65 = Some b /\
            point 3 4 mode64 = Ok (Z.testbit b 7 && Z.testbit b 3, mode64).
Proof.
  split; [exact wf_mode64 |].
  split; [simpl; lia |]. split; [simpl; lia |].
  destruct (pixel_addressing mode64 3 4 wf_mode64 ltac:(simpl; lia) ltac:(simpl; lia))
    as (_ & _ & b & Hb & Hp & _).
  exists b. split; [exact Hb | exact Hp].
Defined.

Lemma set_reset_then_point_witness :
  wf mode64 /\ 0 <= 127 < line_width mode64 * 2 /\ 0 <= 47 < line_count mode64 * 3 /\
  (exists s', set 127 47 mode64 = Ok (tt, s') /\ point 127 47 s' = Ok (true, s')) /\
  (exists s', reset 127 47 mode64 = Ok (tt, s') /\ point 127 47 s' = Ok (false, s')).
Proof.
  split; [exact wf_mode64 |].
  split; [simpl; lia |]. split; [simpl; lia |].
  apply (set_reset_then_point mode64 127 47 wf_mode64); simpl; lia.
Defined.

Lemma other_subpixels_kept_witness :
  wf mode32 /\
  pixel_pos (line_width mode32) 1 0 = pixel_pos (line_width mode32) 0 0 /\
  pixel_bit 1 0 <> pixel_bit 0 0 /\
  exists v,
    point 1 0 mode32 = Ok (v, mode32) /\
    (exists s', set 0 0 mode32 = Ok (tt, s') /\ point 1 0 s' = Ok (v, s')) /\
    (exists s', reset 0 0 mode32 = Ok (tt, s') /\ point 1 0 s' = Ok (v, s')).
Proof.
  split; [exact wf_mode32 |].
  split; [reflexivity |]. split; [vm_compute; lia |].
  apply (other_subpixels_kept mode32 0 0 1 0 wf_mode32);
    try (simpl; lia); [reflexivity | vm_compute; lia].
Defined.

Lemma scroll_and_full_line_witness :
  wf (with_cursor mode64 960) /\
  Forall is_plain (replicate 64 65) /\
  exists s', print (replicate 64 65) (with_cursor mode64 960) = Ok (tt, s') /\
             scrolls s' = 1%nat /\ cursor s' = 960 /\
             (forall i, 960 <= i < 1024 -> cell s' i = Some 32).
Proof.
  assert (Forall is_plain (replicate 64 65)) as Hplain
    by (apply Forall_replicate; unfold is_plain; lia).
  split; [apply wf_with_cursor; exact wf_mode64 |].
  split; [exact Hplain |].
  destruct (scroll_and_full_line (with_cursor mode64 960)
              (wf_with_cursor mode64 960 wf_mode64)) as (_ & Hline).
  destruct (Hline (replicate 64 65) 15 Hplain ltac:(reflexivity)
              ltac:(simpl; lia) ltac:(reflexivity)) as (s' & E & Hs & Hc & Hb).
  exists s'. split; [exact E |]. split; [exact Hs |]. split; [exact Hc | exact Hb].
Defined.

Lemma peek_poke_window_witness :
  wf mode64 /\
  peek 15359 mode64 = Ok (0, mode64) /\
  exists s', poke (15360 + 1023) 255 mode64 = Ok (tt, s') /\
             peek (15360 + 1023) s' = Ok (255, s').
Proof.
  split; [exact wf_mode64 |].
  destruct (peek_poke_window mode64 wf_mode64) as (_ & Hout & Hin & _).
  split; [apply Hout; simpl; lia |].
  apply Hin; simpl; lia.
Defined.

Lemma peek_poke_returns_witness :
  wf mode32 /\
  (exists v, peek (-5) mode32 = Ok (v, mode32)) /\
  poke 20000 300 mode32 = Ok (tt, mode32) /\
  poke 15360 300 mode32 = Raise AssertionError.
Proof.
  split; [exact wf_mode32 |].
  destruct (peek_poke_returns mode32 wf_mode32) as (Hpeek & _ & Hout & Hbad).
  split; [apply Hpeek |].
  split; [apply Hout; unfold in_window; simpl; lia |].
  apply Hbad; [unfold in_window; simpl; lia | lia].
Defined.


Lemma queries_are_pure_witness :
  wf mode64 /\
  (exists v s', point 10 10 mode64 = Ok (v, s') /\
                chars s' = chars mode64 /\ cursor s' = cursor mode64) /\
  (exists v s', peek 15360 mode64 = Ok (v, s') /\
                chars s' = chars mode64 /\ cursor s' = cursor mode64).
Proof.
  split; [exact wf_mode64 |].
  destruct (queries_are_pure mode64 wf_mode64) as (Hpoint & Hpeek).
  split; [apply Hpoint; simpl; lia | apply Hpeek].
Defined.

(** * Further properties of the code *)

(** ** Cursor codes 24 to 29 *)

Lemma with_cursor_same self : with_cursor self (cursor self) = self.
Proof. destruct self. reflexivity. Qed.

Lemma with_cursor_twice self p q :
  with_cursor (with_cursor self p) q = with_cursor self q.
Proof. reflexivity. Qed.

(** Row and column of the cell [r * lw + c]. *)
Lemma cursor_join lw r c :
  0 < lw -> 0 <= r -> 0 <= c < lw ->
  Py.int_div (r * lw + c) lw = r /\ (r * lw + c) mod lw = c.
Proof.
  intros Hlw Hr Hc. unfold Py.int_div. rewrite Z.quot_div_nonneg by nia. split.
  - symmetry. apply (Z.div_unique _ _ r c); lia.
  - symmetry. apply (Z.mod_unique _ _ r c); lia.
Qed.

Lemma print_two a b self :
  print [a; b] self = bind (print_char a) (fun _ => print_char b) self.
Proof.
  unfold print. simpl. unfold bind.
  destruct (print_char a self) as [[[] s] | e]; [| reflexivity].
  destruct (print_char b s) as [[[] s'] | e]; reflexivity.
Qed.

Lemma print_one c self : print [c] self = print_char c self.
Proof.
  unfold print. simpl. unfold bind.
  destruct (print_char c self) as [[[] s] | e]; reflexivity.
Qed.

Lemma print_char_left self :
  print_char 24 self =
  Ok (tt, with_cursor self
            (Py.int_div (cursor self) (line_width self) * line_width self
             + (cursor self mod line_width self - 1 + line_width self)
               mod line_width self)).
Proof. reflexivity. Qed.

Lemma print_char_right self :
  print_char 25 self =
  Ok (tt, with_cursor self
            (Py.int_div (cursor self) (line_width self) * line_width self
             + (cursor self mod line_width self + 1) mod line_width self)).
Proof. reflexivity. Qed.

Lemma print_char_down self :
  print_char 26 self =
  Ok (tt, with_cursor self
            ((Py.int_div (cursor self) (line_width self) + 1) mod line_count self
               * line_width self
             + cursor self mod line_width self)).
Proof. reflexivity. Qed.

Lemma print_char_up self :
  print_char 27 self =
  Ok (tt, with_cursor self
            ((Py.int_div (cursor self) (line_width self) - 1 + line_count self)
               mod line_count self * line_width self
             + cursor self mod line_width self)).
Proof. reflexivity. Qed.

Lemma print_char_home self : print_char 28 self = Ok (tt, with_cursor self 0).
Proof. reflexivity. Qed.

Lemma print_char_sol self :
  print_char 29 self =
  Ok (tt, with_cursor self
            (Py.int_div (cursor self) (line_width self) * line_width self)).
Proof. reflexivity. Qed.

(** X1. Codes 24 (left) and 25 (right) undo each other, in either order:
    printing the two leaves the Runtime exactly as it was. *)
Theorem left_right_cancel (self : Runtime) :
  wf self -> cursor_ok self ->
  print [24; 25] self = Ok (tt, self) /\ print [25; 24] self = Ok (tt, self).
Proof.
  intros W Hcur.
  pose proof (wf_width _ W) as Hlw. pose proof (wf_len _ W) as Hn.
  unfold cursor_ok in Hcur. rewrite Hn in Hcur.
  destruct (cursor_split _ _ _ Hlw Hcur) as (Hrow & Hcol & Hsplit).
  set (lw := line_width self) in *.
  set (row := Py.int_div (cursor self) lw) in *.
  set (col := cursor self mod lw) in *.
  split; rewrite print_two; unfold bind.
  - rewrite print_char_left, print_char_right. fold lw row col.
    cbn [cursor line_width with_cursor]. fold lw.
    pose proof (Z.mod_pos_bound (col - 1 + lw) lw Hlw) as Hb.
    destruct (cursor_join lw row ((col - 1 + lw) mod lw) Hlw ltac:(lia) Hb)
      as (-> & ->).
    rewrite with_cursor_twice. rewrite Z.add_mod_idemp_l by lia.
    replace (col - 1 + lw + 1) with (col + 1 * lw) by lia.
    rewrite Z.mod_add by lia. rewrite (Z.mod_small col lw) by lia.
    rewrite <- Hsplit. rewrite with_cursor_same. reflexivity.
  - rewrite print_char_right, print_char_left. fold lw row col.
    cbn [cursor line_width with_cursor]. fold lw.
    pose proof (Z.mod_pos_bound (col + 1) lw Hlw) as Hb.
    destruct (cursor_join lw row ((col + 1) mod lw) Hlw ltac:(lia) Hb)
      as (-> & ->).
    rewrite with_cursor_twice.
    replace ((col + 1) mod lw - 1 + lw) with ((col + 1) mod lw + (lw - 1)) by lia.
    rewrite Z.add_mod_idemp_l by lia.
    replace (col + 1 + (lw - 1)) with (col + 1 * lw) by lia.
    rewrite Z.mod_add by lia. rewrite (Z.mod_small col lw) by lia.
    rewrite <- Hsplit. rewrite with_cursor_same. reflexivity.
Qed.

(** X2. Codes 26 (down) and 27 (up) undo each other, in either order. *)
Theorem down_up_cancel (self : Runtime) :
  wf self -> cursor_ok self ->
  print [26; 27] self = Ok (tt, self) /\ print [27; 26] self = Ok (tt, self).
Proof.
  intros W Hcur.
  pose proof (wf_width _ W) as Hlw. pose proof (wf_count _ W) as Hlc.
  pose proof (wf_len _ W) as Hn.
  unfold cursor_ok in Hcur. rewrite Hn in Hcur.
  destruct (cursor_split _ _ _ Hlw Hcur) as (Hrow & Hcol & Hsplit).
  set (lw := line_width self) in *. set (lc := line_count self) in *.
  set (row := Py.int_div (cursor self) lw) in *.
  set (col := cursor self mod lw) in *.
  split; rewrite print_two; unfold bind.
  - rewrite print_char_down, print_char_up. fold lw lc row col.
    cbn [cursor line_width line_count with_cursor]. fold lw lc.
    pose proof (Z.mod_pos_bound (row + 1) lc Hlc) as Hb.
    destruct (cursor_join lw ((row + 1) mod lc) col Hlw ltac:(lia) Hcol)
      as (-> & ->).
    rewrite with_cursor_twice.
    replace ((row + 1) mod lc - 1 + lc) with ((row + 1) mod lc + (lc - 1)) by lia.
    rewrite Z.add_mod_idemp_l by lia.
    replace (row + 1 + (lc - 1)) with (row + 1 * lc) by lia.
    rewrite Z.mod_add by lia. rewrite (Z.mod_small row lc) by lia.
    rewrite <- Hsplit. rewrite with_cursor_same. reflexivity.
  - rewrite print_char_up, print_char_down. fold lw lc row col.
    cbn [cursor line_width line_count with_cursor]. fold lw lc.
    pose proof (Z.mod_pos_bound (row - 1 + lc) lc Hlc) as Hb.
    destruct (cursor_join lw ((row - 1 + lc) mod lc) col Hlw ltac:(lia) Hcol)
      as (-> & ->).
    rewrite with_cursor_twice. rewrite Z.add_mod_idemp_l by lia.
    replace (row - 1 + lc + 1) with (row + 1 * lc) by lia.
    rewrite Z.mod_add by lia. rewrite (Z.mod_small row lc) by lia.
    rewrite <- Hsplit. rewrite with_cursor_same. reflexivity.
Qed.

(** X3. The cursor codes 24 to 29 and the tab codes 191 to 255 only move the
    cursor.  On a well-formed Runtime whose cursor is below [2^53] in
    absolute value (so that [int(self.cursor/self.line_width)] is the
    integer quotient), inside the buffer or not, the call returns, and the
    buffer, the bitmap and every other field are the ones it started with.
    This covers the states a tab code leaves the cursor in when its column
    is not in the row. *)
Theorem cursor_codes_only_move (self : Runtime) (c : Z) :
  wf self -> - 2 ^ 53 < cursor self < 2 ^ 53 ->
  24 <= c <= 29 \/ 191 <= c <= 255 ->
  exists p, print [c] self = Ok (tt, with_cursor self p).
Proof.
  intros _ _ Hc. rewrite print_one.
  destruct Hc as [Hc | Hc].
  - assert (c = 24 \/ c = 25 \/ c = 26 \/ c = 27 \/ c = 28 \/ c = 29) as H by lia.
    destruct H as [-> | [-> | [-> | [-> | [-> | ->]]]]]; eexists;
      [apply print_char_left | apply print_char_right | apply print_char_down
      | apply print_char_up | apply print_char_home | apply print_char_sol].
  - eexists. apply print_char_tab. lia.
Qed.

(** ** Code 8 and the blanking codes 10, 13, 30, 31 *)

Lemma print_char_back self :
  print_char 8 self =
  bind (modify (fun s => with_cursor s
                  ((cursor self - 1 + chars_len self) mod chars_len self)))
       (fun _ => _update_char
                   ((cursor self - 1 + chars_len self) mod chars_len self) 32)
       self.
Proof. reflexivity. Qed.

Lemma back_one n cur :
  0 <= cur < n ->
  (cur - 1 + n) mod n = (if cur =? 0 then n - 1 else cur - 1) /\
  0 <= (if cur =? 0 then n - 1 else cur - 1) < n.
Proof.
  intros H. destruct (Z.eqb_spec cur 0) as [-> | E].
  - split; [| lia].
    replace (0 - 1 + n) with (n - 1) by lia. apply Z.mod_small. lia.
  - split; [| lia].
    replace (cur - 1 + n) with (cur - 1 + 1 * n) by lia.
    rewrite Z.mod_add by lia. apply Z.mod_small. lia.
Qed.

(** X4. Code 8 moves the cursor one cell back, from cell 0 to the last cell
    of the buffer, and blanks the cell it arrives on; no other cell changes
    and nothing scrolls. *)
Theorem backspace_blanks_previous_cell (self : Runtime) :
  wf self -> cursor_ok self ->
  exists s',
    print [8] self = Ok (tt, s') /\
    cursor s' = (if cursor self =? 0 then chars_len self - 1
                 else cursor self - 1) /\
    chars s' = <[Z.to_nat (cursor s') := 32]> (chars self) /\
    scrolls s' = scrolls self.
Proof.
  intros W Hcur. unfold cursor_ok in Hcur.
  set (p := if cursor self =? 0 then chars_len self - 1 else cursor self - 1).
  pose proof (back_one (chars_len self) (cursor self) Hcur) as (Ep & Hp).
  fold p in Ep, Hp.
  exists (update_char_result (with_cursor self p) p 32).
  pose proof (update_char_result_written p 32 (with_cursor self p)
                (wf_with_cursor self p W) Hp ltac:(lia))
    as (_ & _ & C' & Ch' & Sc' & _).
  split.
  { rewrite print_one, print_char_back, Ep. unfold bind, modify.
    apply update_char_eq; [apply wf_with_cursor; exact W | exact Hp | lia]. }
  rewrite C'. split; [reflexivity |]. split; [exact Ch' | exact Sc'].
Qed.

(** The blanking loop of codes 10, 13, 30 and 31, with the buffer it leaves. *)
Lemma returns_blank_cells self cur k :
  wf self -> 0 <= cur -> 0 <= k -> cur + k <= chars_len self ->
  returns (for_each (Py.range 0 k) (fun i => _update_char (cur + i) 32)) self
    (fun _ s' => wf s' /\ same_setup self s' /\ cursor s' = cursor self /\
                 scrolls s' = scrolls self /\
                 chars s' = take (Z.to_nat cur) (chars self)
                              ++ replicate (Z.to_nat k) 32
                              ++ drop (Z.to_nat (cur + k)) (chars self)).
Proof.
  intros W Hcur Hk Hfit. pose proof (wf_length _ W) as Hlen.
  apply (returns_for_range
           (fun i s => wf s /\ same_setup self s /\ cursor s = cursor self /\
                       scrolls s = scrolls self /\
                       chars s = take (Z.to_nat cur) (chars self)
                                   ++ replicate (Z.to_nat i) 32
                                   ++ drop (Z.to_nat (cur + i)) (chars self))).
  - exact Hk.
  - split; [exact W |]. split; [apply same_setup_refl |].
    split; [reflexivity |]. split; [reflexivity |].
    rewrite Z.add_0_r. simpl. symmetry. apply take_drop.
  - intros i s Hi (Ws & Hs & Hc & Hsc & Hch).
    assert (chars_len s = chars_len self) as Hn by apply Hs.
    eapply returns_mono;
      [apply update_char_written; [exact Ws | lia | lia] |].
    intros u s' (Ws' & Hs' & Hc' & Hch' & Hsc' & _). cbv beta.
    split; [exact Ws' |].
    split; [eapply same_setup_trans; eassumption |].
    split; [congruence |]. split; [congruence |].
    rewrite Hch', Hch.
    rewrite insert_app_r_alt by (rewrite length_take; lia).
    rewrite length_take. f_equal.
    replace (Z.to_nat (cur + i) - Z.to_nat cur `min` length (chars self))%nat
      with (Z.to_nat i) by lia.
    replace (Z.to_nat (i + 1)) with (S (Z.to_nat i)) by lia.
    replace (Z.to_nat (cur + (i + 1))) with (S (Z.to_nat (cur + i))) by lia.
    apply blank_step. lia.
Qed.

Lemma print_char_newline self c :
  c = 10 \/ c = 13 ->
  print_char c self =
  bind (for_each (Py.range 0 (line_width self - cursor self mod line_width self))
          (fun i => _update_char (cursor self + i) 32))
       (fun _ =>
          if Py.int_div (cursor self) (line_width self) <? line_count self - 1
          then modify (fun s => with_cursor s
                 ((Py.int_div (cursor self) (line_width self) + 1)
                  * line_width self))
          else bind _scroll (fun _ =>
                 modify (fun s => with_cursor s
                   (Py.int_div (cursor self) (line_width self)
                    * line_width self))))
       self.
Proof. intros [-> | ->]; reflexivity. Qed.

(** X5. Codes 10 and 13 blank the cells from the cursor to the end of its
    row.  On a row that is not the last the cursor goes to the start of the
    next row, nothing scrolls and the other cells keep their codes; on the
    last row the buffer then scrolls once and the cursor goes to the start of
    the last row. *)
Theorem newline_blanks_and_advances (self : Runtime) (c : Z) :
  wf self -> cursor_ok self -> c = 10 \/ c = 13 ->
  let lw := line_width self in
  let row := cursor self / lw in
  let col := cursor self mod lw in
  let blanked := take (Z.to_nat (cursor self)) (chars self)
                   ++ replicate (Z.to_nat (lw - col)) 32
                   ++ drop (Z.to_nat ((row + 1) * lw)) (chars self) in
  exists s',
    print [c] self = Ok (tt, s') /\
    if row <? line_count self - 1 then
      cursor s' = (row + 1) * lw /\ chars s' = blanked /\
      scrolls s' = scrolls self
    else
      cursor s' = row * lw /\
      chars s' = drop (Z.to_nat lw) blanked ++ replicate (Z.to_nat lw) 32 /\
      scrolls s' = S (scrolls self).
Proof.
  intros W Hcur Hc lw row col blanked. subst lw row col blanked.
  pose proof (wf_width _ W) as Hlw. pose proof (wf_count _ W) as Hlc.
  pose proof (wf_len _ W) as Hn.
  unfold cursor_ok in Hcur. rewrite Hn in Hcur.
  destruct (cursor_split _ _ _ Hlw Hcur) as (Hrow & Hcol & Hsplit).
  assert (Py.int_div (cursor self) (line_width self)
          = cursor self / line_width self) as Erow
    by (unfold Py.int_div; apply Z.quot_div_nonneg; lia).
  rewrite Erow in Hrow, Hsplit.
  destruct (returns_blank_cells self (cursor self)
              (line_width self - cursor self mod line_width self) W
              ltac:(lia) ltac:(lia) ltac:(nia))
    as ([] & s1 & E1 & W1 & S1 & C1 & Sc1 & Ch1).
  replace (cursor self + (line_width self - cursor self mod line_width self))
    with ((cursor self / line_width self + 1) * line_width self) in Ch1 by lia.
  rewrite print_one, (print_char_newline self c Hc).
  unfold bind at 1. rewrite E1. rewrite Erow.
  destruct (cursor self / line_width self <? line_count self - 1).
  - eexists. split; [reflexivity |].
    split; [reflexivity |]. split; [exact Ch1 | exact Sc1].
  - unfold bind. rewrite scroll_eq by exact W1.
    eexists. split; [reflexivity |].
    split; [reflexivity |].
    assert (line_width s1 = line_width self) as El by apply S1.
    split.
    + cbn [chars scrolled with_cursor]. rewrite El, Ch1. reflexivity.
    + unfold scrolls in *. cbn [chars_bitmap scrolled with_cursor].
      rewrite List.filter_app, length_app, Sc1. simpl. lia.
Qed.

Lemma print_char_ceol self :
  print_char 30 self =
  for_each (Py.range 0 (line_width self - cursor self mod line_width self))
    (fun i => _update_char (cursor self + i) 32) self.
Proof. reflexivity. Qed.

Lemma print_char_ceof self :
  print_char 31 self =
  for_each (Py.range 0 (chars_len self - cursor self))
    (fun i => _update_char (cursor self + i) 32) self.
Proof. reflexivity. Qed.

(** X6. Code 30 blanks the cells from the cursor to the end of its row and
    code 31 those from the cursor to the end of the buffer; the cells before
    the cursor, the cells of later rows (for code 30) and the cursor itself
    are unchanged, and nothing scrolls. *)
Theorem clear_to_end (self : Runtime) :
  wf self -> cursor_ok self ->
  let lw := line_width self in
  let row_end := (cursor self / lw + 1) * lw in
  (exists s',
     print [30] self = Ok (tt, s') /\ cursor s' = cursor self /\
     scrolls s' = scrolls self /\
     chars s' = take (Z.to_nat (cursor self)) (chars self)
                  ++ replicate (Z.to_nat (row_end - cursor self)) 32
                  ++ drop (Z.to_nat row_end) (chars self)) /\
  (exists s',
     print [31] self = Ok (tt, s') /\ cursor s' = cursor self /\
     scrolls s' = scrolls self /\
     chars s' = take (Z.to_nat (cursor self)) (chars self)
                  ++ replicate (Z.to_nat (chars_len self - cursor self)) 32).
Proof.
  intros W Hcur lw row_end.
  pose proof (wf_width _ W) as Hlw. pose proof (wf_count _ W) as Hlc.
  pose proof (wf_len _ W) as Hn. pose proof (wf_length _ W) as Hlen.
  unfold cursor_ok in Hcur. pose proof Hcur as Hcur'. rewrite Hn in Hcur'.
  destruct (cursor_split _ _ _ Hlw Hcur') as (Hrow & Hcol & Hsplit).
  unfold Py.int_div in Hrow, Hsplit.
  rewrite Z.quot_div_nonneg in Hrow, Hsplit by lia.
  fold lw in Hrow, Hcol, Hsplit, Hn.
  assert (lw - cursor self mod lw = row_end - cursor self) as Ek
    by (unfold row_end; lia).
  split.
  - destruct (returns_blank_cells self (cursor self) (row_end - cursor self) W
                ltac:(lia) ltac:(unfold row_end; nia) ltac:(unfold row_end; nia))
      as ([] & s' & E & _ & _ & C' & Sc' & Ch').
    exists s'. rewrite print_one, print_char_ceol. fold lw. rewrite Ek.
    split; [exact E |]. split; [exact C' |]. split; [exact Sc' |].
    rewrite Ch'. do 3 f_equal. lia.
  - destruct (returns_blank_cells self (cursor self)
                (chars_len self - cursor self) W ltac:(lia) ltac:(lia) ltac:(lia))
      as ([] & s' & E & _ & _ & C' & Sc' & Ch').
    exists s'. rewrite print_one, print_char_ceof.
    split; [exact E |]. split; [exact C' |]. split; [exact Sc' |].
    rewrite Ch'. rewrite drop_ge by lia. rewrite app_nil_r. reflexivity.
Qed.

(** ** Whole texts *)

Lemma print_char_wide self c :
  256 <= c -> print_char c self = Raise AssertionError.
Proof.
  intros Hc. unfold print_char.
  unfold bind at 1 2 3 4. unfold get at 1 2 3 4.
  repeat match goal with
         | |- context [c =? ?k] => destruct (Z.eqb_spec c k); [lia |]
         end.
  simpl.
  destruct (Z.ltb_spec c 256); [lia |]. rewrite andb_false_r.
  unfold bind at 1. rewrite update_char_bad_code by lia. reflexivity.
Qed.

(** X7. A code point of 256 or more is not printable: once the characters
    before it are printed, [print] raises [AssertionError] (the assertion of
    [_update_char]), whatever follows. *)
Theorem print_rejects_wide_code (self s1 : Runtime) (t1 t2 : str) (c : Z) :
  256 <= c ->
  print t1 self = Ok (tt, s1) ->
  print (t1 ++ c :: t2) self = Raise AssertionError.
Proof.
  intros Hc E1. rewrite print_app. unfold bind. rewrite E1.
  rewrite print_cons. unfold bind. rewrite print_char_wide by exact Hc.
  reflexivity.
Qed.

(** X8. Printing a text in two pieces is printing it whole: [print] of
    [t1 ++ t2] is [print t1] followed, if it returns, by [print t2]. *)
Theorem print_in_pieces (self : Runtime) (t1 t2 : str) :
  print (t1 ++ t2) self =
  match print t1 self with
  | Ok (_, s1) => print t2 s1
  | Raise e => Raise e
  end.
Proof.
  revert self. induction t1 as [| c t1 IH]; intros self.
  - reflexivity.
  - simpl app. rewrite !print_cons. unfold bind.
    destruct (print_char c self) as [[[] s] | e]; [apply IH | reflexivity].
Qed.

(** X9. What [print] writes, [peek] reads back: after plain characters that
    end before the last cell, the cursor has advanced by their number, the
    address of each printed position holds its code, and every other cell
    holds what it held. *)
Theorem print_then_peek (self : Runtime) (text : str) :
  wf self -> cursor_ok self ->
  Forall is_plain text ->
  cursor self + Z.of_nat (length text) < chars_len self ->
  exists s',
    print text self = Ok (tt, s') /\
    cursor s' = cursor self + Z.of_nat (length text) /\
    (forall j c, text !! j = Some c ->
       peek (15360 + cursor self + Z.of_nat j) s' = Ok (c, s')) /\
    (forall k, 0 <= k < chars_len self ->
       ~ cursor self <= k < cursor self + Z.of_nat (length text) ->
       exists v, peek (15360 + k) self = Ok (v, self) /\
                 peek (15360 + k) s' = Ok (v, s')).
Proof.
  intros W Hcur Hplain Hfit. unfold cursor_ok in Hcur.
  pose proof (wf_length _ W) as Hlen.
  destruct (print_plain_run text self W ltac:(lia) Hplain Hfit)
    as ([] & s' & E & W' & S' & C' & Ch' & _).
  assert (chars_len s' = chars_len self) as En by apply S'.
  exists s'. split; [exact E |]. split; [exact C' |]. split.
  - intros j c Hj. pose proof (lookup_lt_Some _ _ _ Hj) as Hjlt.
    destruct (peek_inside s' (15360 + cursor self + Z.of_nat j) W')
      as (v & Hv & Ep); [unfold in_window; lia |].
    replace v with c in Ep; [exact Ep |].
    unfold cell in Hv. rewrite Ch' in Hv.
    rewrite lookup_app_r in Hv by (rewrite length_take; lia).
    rewrite length_take in Hv.
    replace (Z.to_nat (15360 + cursor self + Z.of_nat j - 15360)
             - Z.to_nat (cursor self) `min` length (chars self))%nat
      with j in Hv by lia.
    rewrite lookup_app_l in Hv by exact Hjlt.
    pose proof (eq_trans (eq_sym Hj) Hv) as X. injection X. auto.
  - intros k Hk Hout.
    destruct (peek_inside self (15360 + k) W) as (v & Hv & Ep);
      [unfold in_window; lia |].
    destruct (peek_inside s' (15360 + k) W') as (v' & Hv' & Ep');
      [unfold in_window; lia |].
    exists v. split; [exact Ep |]. replace v with v'; [exact Ep' |].
    unfold cell in Hv, Hv'. replace (15360 + k - 15360) with k in Hv, Hv' by lia.
    rewrite Ch' in Hv'.
    destruct (Z.lt_ge_cases k (cursor self)) as [Hlo | Hhi].
    + rewrite lookup_app_l in Hv' by (rewrite length_take; lia).
      rewrite lookup_take_lt in Hv' by lia. congruence.
    + rewrite lookup_app_r in Hv' by (rewrite length_take; lia).
      rewrite length_take in Hv'.
      rewrite lookup_app_r in Hv' by lia.
      rewrite lookup_drop in Hv'.
      replace (Z.to_nat (cursor self) + length text
               + (Z.to_nat k - Z.to_nat (cursor self) `min` length (chars self)
                  - length text))%nat
        with (Z.to_nat k) in Hv' by lia.
      congruence.
Qed.

(** X10. With arguments that meet the assertions, codes in [0,255], and tab
    codes whose column exists in the row, every sequence of [cls], [print],
    [print_at], [poke], [set] and [reset] calls returns, and leaves a
    well-formed Runtime of the same geometry with the cursor inside the
    buffer. *)
Theorem cursor_stays_in_buffer (self : Runtime) (cs : list call) :
  wf self -> cursor_ok self ->
  Forall (precondition self) cs -> Forall (tabs_fit self) cs ->
  exists s',
    for_each cs perform self = Ok (tt, s') /\
    wf s' /\ same_setup self s' /\ 0 <= cursor s' < chars_len s'.
Proof.
  intros W Hcur Hpre Htabs.
  destruct (calls_keep_cursor cs self W Hcur Hpre Htabs)
    as ([] & s' & E & W' & S' & C').
  exists s'. split; [exact E |]. split; [exact W' |]. split; [exact S' | exact C'].
Qed.

(** X11. A tab code whose column exists in the row (code - 191 below
    [line_width]) moves the cursor to that column when it lies to the right
    of the cursor and leaves it where it is otherwise; the row and the buffer
    are unchanged. *)
Theorem tab_inside_row (self : Runtime) (c : Z) :
  wf self -> cursor_ok self ->
  191 <= c <= 255 -> c - 191 < line_width self ->
  let lw := line_width self in
  exists s',
    print [c] self = Ok (tt, s') /\
    chars s' = chars self /\
    cursor s' / lw = cursor self / lw /\
    cursor s' mod lw = Z.max (cursor self mod lw) (c - 191).
Proof.
  intros W Hcur Hc Htab lw. subst lw.
  pose proof (wf_width _ W) as Hlw.
  destruct (tab_within_row self c W Hcur Hc Htab)
    as (s' & E & Hch & Hrow & Hcol & Hle).
  unfold cursor_ok in Hcur.
  exists s'. split; [exact E |]. split; [exact Hch |].
  unfold Py.int_div in Hrow. rewrite !Z.quot_div_nonneg in Hrow by lia.
  split; [exact Hrow |]. rewrite Hcol.
  destruct (Z.ltb_spec (cursor self mod line_width self) (c - 191)); lia.
Qed.

(** X12. Arguments outside the asserted ranges raise [AssertionError]: a
    position outside the buffer for [print_at], a pixel outside the screen for
    [set], [reset] and [point], a tab stop outside [0,64) for [tab]. *)
Theorem bad_arguments_raise (self : Runtime) :
  (forall pos text,
     ~ 0 <= pos < line_width self * line_count self ->
     print_at pos text self = Raise AssertionError) /\
  (forall x y,
     ~ (0 <= x < line_width self * 2 /\ 0 <= y < line_count self * 3) ->
     set x y self = Raise AssertionError /\
     reset x y self = Raise AssertionError /\
     point x y self = Raise AssertionError) /\
  (forall n, ~ 0 <= n < 64 -> tab n self = Raise AssertionError).
Proof.
  assert (forall a hi, ~ 0 <= a < hi -> (0 <=? a) && (a <? hi) = false) as Hoff.
  { intros a hi H. destruct (Z.leb_spec 0 a), (Z.ltb_spec a hi);
      simpl; try reflexivity; lia. }
  split; [| split].
  - intros pos text Hpos. unfold print_at. rewrite !bind_get.
    unfold bind, assert. rewrite Hoff by exact Hpos. reflexivity.
  - intros x y Hxy.
    destruct (Z.leb_spec 0 x), (Z.ltb_spec x (line_width self * 2));
      unfold set, reset, point; rewrite !bind_get; unfold bind at 1, assert at 1;
      try (rewrite (Hoff x) by lia; repeat split; reflexivity).
    rewrite (proj2 (Z.leb_le 0 x)) by lia.
    rewrite (proj2 (Z.ltb_lt x _)) by lia. cbn [andb ret].
    unfold bind at 1, assert at 1. unfold bind at 2, assert at 2.
    unfold bind at 3, assert at 3.
    rewrite (Hoff y) by lia. repeat split; reflexivity.
  - intros n Hn. unfold tab, bind, assert. rewrite Hoff by exact Hn. reflexivity.
Qed.

(** X13. [cls] works from any well-formed state, also one whose cursor has
    left the buffer: it returns with every cell blank (32) and the cursor at
    0, keeps the geometry, and asks for no per-cell redraw. *)
Theorem cls_blanks_everything (self : Runtime) :
  wf self ->
  exists s',
    cls self = Ok (tt, s') /\
    chars s' = replicate (Z.to_nat (chars_len self)) 32 /\
    cursor s' = 0 /\
    wf s' /\ cursor_ok s' /\ same_setup self s' /\
    redraws s' = redraws self.
Proof.
  intros W. exists (cleared self).
  split; [apply cls_eq, (wf_length _ W) |].
  split; [reflexivity |]. split; [reflexivity |].
  split; [apply wf_cleared; exact W |].
  split.
  - unfold cursor_ok. simpl.
    pose proof (wf_width _ W). pose proof (wf_count _ W).
    pose proof (wf_len _ W). nia.
  - split; [repeat split | apply redraws_cleared].
Qed.

(** X14. [__init__] accepts only the modes 64 and 32.  With a font that has a
    fitting glyph for each of the 256 codes, the Runtime it builds is well
    formed: [mode] columns by 16 rows, every cell blank, the cursor at 0
    inside the buffer.  Any other mode raises [ValueError]. *)
Theorem init_builds_blank_screen
    (load_font : string -> Z -> option Glyph) (mode : Z) :
  (forall name c, 0 <= c < 256 ->
     exists g, load_font name (0xE000 + c) = Some g /\
               0 <= dx g < 4 /\ 0 <= - 5 + 12 - height g - dy g < 12) ->
  (mode = 64 \/ mode = 32 ->
   exists r, __init__ load_font mode = Ok r /\
     wf r /\ cursor_ok r /\ cursor r = 0 /\
     line_width r = mode /\ line_count r = 16 /\
     chars r = replicate (Z.to_nat (mode * 16)) 32) /\
  (mode <> 64 -> mode <> 32 -> __init__ load_font mode = Raise ValueError).
Proof.
  intros Hfont. split; [| apply init_unsupported].
  intros [-> | ->]; eexists; (split; [reflexivity |]).
  - split.
    { apply wf_new_runtime; [lia | lia |]. intros c Hc.
      destruct (Hfont "fonts/AnotherMansTreasureMIII64C.pcf"%string c Hc)
        as (g & Hg & Hx & Hy). exists g. split; [exact Hg |]. lia. }
    split; [unfold cursor_ok; simpl; lia |]. repeat split.
  - split.
    { apply wf_new_runtime; [lia | lia |]. intros c Hc.
      destruct (Hfont "fonts/AnotherMansTreasureMIII32C.pcf"%string c Hc)
        as (g & Hg & Hx & Hy). exists g. split; [exact Hg |]. lia. }
    split; [unfold cursor_ok; simpl; lia |]. repeat split.
Qed.

(** ** Pixels across the whole screen *)

Lemma point_other_after_write self s' x y pos c b :
  wf self ->
  0 <= x < line_width self * 2 -> 0 <= y < line_count self * 3 ->
  0 <= pos ->
  pixel_pos (line_width self) x y <> pos ->
  cell self (pixel_pos (line_width self) x y) = Some b ->
  cell_written self pos c s' ->
  point x y s' = Ok (Z.testbit b 7 && Z.testbit b (pixel_bit x y), s').
Proof.
  intros W Hx Hy Hpos Hne Hb Hw.
  pose proof (pixel_in_buffer self x y W Hx Hy) as Hp.
  pose proof (cell_other_after_write self pos c s'
                (pixel_pos (line_width self) x y) Hpos ltac:(lia) Hne Hw) as Hc.
  destruct Hw as (W' & (Hlw & Hlc & _) & _).
  apply point_value; [exact W' | rewrite Hlw; exact Hx | rewrite Hlc; exact Hy |].
  rewrite Hlw, Hc. exact Hb.
Qed.

(** The value of every pixel after [set(x,y)]: true at [(x,y)], the former
    value elsewhere. *)
Lemma point_after_set self x y x' y' :
  wf self ->
  0 <= x < line_width self * 2 -> 0 <= y < line_count self * 3 ->
  0 <= x' < line_width self * 2 -> 0 <= y' < line_count self * 3 ->
  exists s' v,
    set x y self = Ok (tt, s') /\
    wf s' /\ same_setup self s' /\ cursor s' = cursor self /\
    point x' y' self = Ok (v, self) /\
    point x' y' s' =
      Ok (if decide (pixel_pos (line_width self) x' y'
                       = pixel_pos (line_width self) x y
                     /\ pixel_bit x' y' = pixel_bit x y)
          then true else v, s').
Proof.
  intros W Hx Hy Hx' Hy'.
  pose proof (pixel_in_buffer self x y W Hx Hy) as Hpos.
  pose proof (pixel_in_buffer self x' y' W Hx' Hy') as Hpos'.
  pose proof (pixel_bit_range x y) as Hk.
  pose proof (pixel_bit_range x' y') as Hk'.
  destruct (wf_cell self _ W Hpos) as (b & Hb & Hbyte).
  destruct (wf_cell self _ W Hpos') as (b' & Hb' & _).
  destruct (set_written self x y W Hx Hy b Hb Hbyte) as ([] & s' & E & Hw).
  exists s', (Z.testbit b' 7 && Z.testbit b' (pixel_bit x' y')).
  split; [exact E |].
  split; [apply Hw |]. split; [apply Hw |]. split; [apply Hw |].
  split; [apply (point_value self x' y' W Hx' Hy' b' Hb') |].
  destruct (Z.eq_dec (pixel_pos (line_width self) x' y')
              (pixel_pos (line_width self) x y)) as [Epos | Hne].
  - rewrite <- Epos in Hw, Hb.
    assert (b' = b) as -> by congruence.
    rewrite (point_after_write self s' x' y' _ W Hx' Hy' Hw).
    rewrite !Z.setbit_eqb by lia. rewrite base_top, orb_true_r. cbn [andb].
    f_equal. f_equal.
    destruct (Z.eqb_spec (pixel_bit x y) (pixel_bit x' y')) as [Ek | Hnk].
    + destruct (decide _) as [_ | Hn]; [reflexivity |].
      exfalso. apply Hn. split; congruence.
    + destruct (decide _) as [[_ Hk2] | _]; [congruence |].
      cbn [orb]. apply base_low. lia.
  - rewrite (point_other_after_write self s' x' y'
               (pixel_pos (line_width self) x y) _ b' W Hx' Hy'
               (proj1 Hpos) Hne Hb' Hw).
    destruct (decide _) as [[Hp2 _] | _]; [contradiction | reflexivity].
Qed.

(** The value of every pixel after [reset(x,y)]: false at [(x,y)], the
    former value elsewhere. *)
Lemma point_after_reset self x y x' y' :
  wf self ->
  0 <= x < line_width self * 2 -> 0 <= y < line_count self * 3 ->
  0 <= x' < line_width self * 2 -> 0 <= y' < line_count self * 3 ->
  exists s' v,
    reset x y self = Ok (tt, s') /\
    wf s' /\ same_setup self s' /\ cursor s' = cursor self /\
    point x' y' self = Ok (v, self) /\
    point x' y' s' =
      Ok (if decide (pixel_pos (line_width self) x' y'
                       = pixel_pos (line_width self) x y
                     /\ pixel_bit x' y' = pixel_bit x y)
          then false else v, s').
Proof.
  intros W Hx Hy Hx' Hy'.
  pose proof (pixel_in_buffer self x y W Hx Hy) as Hpos.
  pose proof (pixel_in_buffer self x' y' W Hx' Hy') as Hpos'.
  pose proof (pixel_bit_range x y) as Hk.
  pose proof (pixel_bit_range x' y') as Hk'.
  destruct (wf_cell self _ W Hpos) as (b & Hb & Hbyte).
  destruct (wf_cell self _ W Hpos') as (b' & Hb' & _).
  destruct (reset_written self x y W Hx Hy b Hb Hbyte) as ([] & s' & E & Hw).
  exists s', (Z.testbit b' 7 && Z.testbit b' (pixel_bit x' y')).
  split; [exact E |].
  split; [apply Hw |]. split; [apply Hw |]. split; [apply Hw |].
  split; [apply (point_value self x' y' W Hx' Hy' b' Hb') |].
  destruct (Z.eq_dec (pixel_pos (line_width self) x' y')
              (pixel_pos (line_width self) x y)) as [Epos | Hne].
  - rewrite <- Epos in Hw, Hb.
    assert (b' = b) as -> by congruence.
    rewrite (point_after_write self s' x' y' _ W Hx' Hy' Hw).
    rewrite !Z.clearbit_eqb. rewrite base_top.
    replace (pixel_bit x y =? 7) with false by (symmetry; apply Z.eqb_neq; lia).
    cbn [andb negb].
    f_equal. f_equal.
    destruct (Z.eqb_spec (pixel_bit x y) (pixel_bit x' y')) as [Ek | Hnk].
    + destruct (decide _) as [_ | Hn]; [apply andb_false_r |].
      exfalso. apply Hn. split; congruence.
    + destruct (decide _) as [[_ Hk2] | _]; [congruence |].
      cbn [negb]. rewrite andb_true_r. apply base_low. lia.
  - rewrite (point_other_after_write self s' x' y'
               (pixel_pos (line_width self) x y) _ b' W Hx' Hy'
               (proj1 Hpos) Hne Hb' Hw).
    destruct (decide _) as [[Hp2 _] | _]; [contradiction | reflexivity].
Qed.

(** Two valid pixels with the same cell and bit are the same pixel. *)
Lemma pixel_unique lw x y x' y' :
  0 < lw -> 0 <= x < lw * 2 -> 0 <= x' < lw * 2 -> 0 <= y -> 0 <= y' ->
  pixel_pos lw x' y' = pixel_pos lw x y -> pixel_bit x' y' = pixel_bit x y ->
  x' = x /\ y' = y.
Proof.
  intros Hlw Hx Hx' Hy Hy' Hpos Hbit.
  rewrite !pixel_pos_div in Hpos by lia. unfold pixel_bit in Hbit.
  pose proof (Z.div_mod x 2 ltac:(lia)). pose proof (Z.div_mod x' 2 ltac:(lia)).
  pose proof (Z.div_mod y 3 ltac:(lia)). pose proof (Z.div_mod y' 3 ltac:(lia)).
  pose proof (Z.mod_pos_bound x 2 ltac:(lia)).
  pose proof (Z.mod_pos_bound x' 2 ltac:(lia)).
  pose proof (Z.mod_pos_bound y 3 ltac:(lia)).
  pose proof (Z.mod_pos_bound y' 3 ltac:(lia)).
  assert (0 <= x / 2 < lw)
    by (split; [apply Z.div_pos | apply Z.div_lt_upper_bound]; lia).
  assert (0 <= x' / 2 < lw)
    by (split; [apply Z.div_pos | apply Z.div_lt_upper_bound]; lia).
  assert (0 <= y / 3) by (apply Z.div_pos; lia).
  assert (0 <= y' / 3) by (apply Z.div_pos; lia).
  assert (y' / 3 = y / 3) by nia.
  assert (x' / 2 = x / 2) by nia.
  lia.
Qed.

Lemma setbit_twice a k : 0 <= k -> Z.setbit (Z.setbit a k) k = Z.setbit a k.
Proof.
  intros Hk. apply Z.bits_inj'. intros n Hn.
  rewrite !Z.setbit_eqb by exact Hk.
  destruct (k =? n); reflexivity.
Qed.

Lemma clearbit_twice a k : Z.clearbit (Z.clearbit a k) k = Z.clearbit a k.
Proof.
  apply Z.bits_inj'. intros n Hn. rewrite !Z.clearbit_eqb.
  destruct (k =? n), (Z.testbit a n); reflexivity.
Qed.

Lemma base_of_graphics c : Z.testbit c 7 = true -> base c = c.
Proof. intros H. unfold base. rewrite H. reflexivity. Qed.

Lemma update_char_same pos c self :
  wf self -> 0 <= pos < chars_len self -> 0 <= c < 256 ->
  cell self pos = Some c -> _update_char pos c self = Ok (tt, self).
Proof.
  intros W Hpos Hc Hcell. rewrite update_char_eq by assumption.
  unfold update_char_result.
  destruct (decide (cell self pos = Some c)); [reflexivity | contradiction].
Qed.

(** X15. [set] and [reset] are idempotent: a second [set(x,y)] right after
    the first, or a second [reset(x,y)], changes nothing at all (no cell, no
    redraw). *)
Theorem set_reset_idempotent (self : Runtime) (x y : Z) :
  wf self ->
  0 <= x < line_width self * 2 -> 0 <= y < line_count self * 3 ->
  (exists s', set x y self = Ok (tt, s') /\ set x y s' = Ok (tt, s')) /\
  (exists s', reset x y self = Ok (tt, s') /\ reset x y s' = Ok (tt, s')).
Proof.
  intros W Hx Hy.
  pose proof (pixel_in_buffer self x y W Hx Hy) as Hpos.
  pose proof (pixel_bit_range x y) as Hk.
  destruct (wf_cell self _ W Hpos) as (b & Hb & Hbyte).
  assert (0 <= base b < 256) as Hbase
    by (unfold base; destruct (Z.testbit b 7); lia).
  split.
  - destruct (set_written self x y W Hx Hy b Hb Hbyte) as ([] & s' & E & Hw).
    exists s'. split; [exact E |].
    pose proof (cell_after_write _ _ _ _ Hpos W Hw) as Hc.
    destruct Hw as (W' & (Hlw & Hlc & _ & _ & _ & _ & Hn) & _).
    rewrite (set_through_update s' x y (Z.setbit (base b) (pixel_bit x y)) W')
      by (rewrite ?Hlw, ?Hlc; assumption).
    rewrite base_of_graphics
      by (rewrite Z.setbit_eqb by lia; rewrite base_top; apply orb_true_r).
    rewrite setbit_twice by lia.
    apply update_char_same;
      [exact W' | rewrite Hlw, Hn; exact Hpos | apply setbit_byte; lia
      | rewrite Hlw; exact Hc].
  - destruct (reset_written self x y W Hx Hy b Hb Hbyte) as ([] & s' & E & Hw).
    exists s'. split; [exact E |].
    pose proof (cell_after_write _ _ _ _ Hpos W Hw) as Hc.
    destruct Hw as (W' & (Hlw & Hlc & _ & _ & _ & _ & Hn) & _).
    rewrite (reset_through_update s' x y (Z.clearbit (base b) (pixel_bit x y)) W')
      by (rewrite ?Hlw, ?Hlc; try assumption; apply clearbit_byte; exact Hbase).
    rewrite base_of_graphics.
    2:{ rewrite Z.clearbit_eqb, base_top.
        replace (pixel_bit x y =? 7) with false
          by (symmetry; apply Z.eqb_neq; lia). reflexivity. }
    rewrite clearbit_twice.
    apply update_char_same;
      [exact W' | rewrite Hlw, Hn; exact Hpos | apply clearbit_byte; exact Hbase
      | rewrite Hlw; exact Hc].
Qed.

(** X16. [set(x,y)] and [reset(x,y)] touch one pixel of the screen: for
    every other valid pixel, in the same cell or in another, [point] gives
    the same value after the call as before, and the cursor does not move. *)
Theorem set_reset_touch_one_pixel (self : Runtime) (x y x' y' : Z) :
  wf self ->
  0 <= x < line_width self * 2 -> 0 <= y < line_count self * 3 ->
  0 <= x' < line_width self * 2 -> 0 <= y' < line_count self * 3 ->
  (x', y') <> (x, y) ->
  exists v,
    point x' y' self = Ok (v, self) /\
    (exists s', set x y self = Ok (tt, s') /\ cursor s' = cursor self /\
                point x' y' s' = Ok (v, s')) /\
    (exists s', reset x y self = Ok (tt, s') /\ cursor s' = cursor self /\
                point x' y' s' = Ok (v, s')).
Proof.
  intros W Hx Hy Hx' Hy' Hne.
  pose proof (wf_width _ W) as Hlw.
  assert (~ (pixel_pos (line_width self) x' y' = pixel_pos (line_width self) x y
             /\ pixel_bit x' y' = pixel_bit x y)) as Hother.
  { intros [Hp Hb]. apply Hne.
    destruct (pixel_unique (line_width self) x y x' y') as [-> ->];
      try assumption; try lia. reflexivity. }
  destruct (point_after_set self x y x' y' W Hx Hy Hx' Hy')
    as (s1 & v & E1 & _ & _ & C1 & P0 & P1).
  destruct (point_after_reset self x y x' y' W Hx Hy Hx' Hy')
    as (s2 & v2 & E2 & _ & _ & C2 & P0' & P2).
  assert (v2 = v) as -> by congruence.
  destruct (decide _) as [? | _] in P1; [contradiction |].
  destruct (decide _) as [? | _] in P2; [contradiction |].
  exists v. split; [exact P0 |]. split.
  - exists s1. split; [exact E1 |]. split; [exact C1 | exact P1].
  - exists s2. split; [exact E2 |]. split; [exact C2 | exact P2].
Qed.

(** X17. A code poked into video memory is the pixel pattern [point] reads:
    after [poke(15360+pos, v)] with [v] in [0,255], [point] of a pixel of
    cell [pos] is true exactly when bit 7 of [v] and the pixel's bit
    [2*(y mod 3) + x mod 2] are both set. *)
Theorem poke_then_point (self : Runtime) (x y v : Z) :
  wf self ->
  0 <= x < line_width self * 2 -> 0 <= y < line_count self * 3 ->
  0 <= v < 256 ->
  exists s',
    poke (15360 + (y / 3 * line_width self + x / 2)) v self = Ok (tt, s') /\
    point x y s' =
      Ok (Z.testbit v 7 && Z.testbit v (2 * (y mod 3) + x mod 2), s').
Proof.
  intros W Hx Hy Hv.
  pose proof (pixel_in_buffer self x y W Hx Hy) as Hpos.
  rewrite <- pixel_pos_div by lia.
  set (pos := pixel_pos (line_width self) x y) in *.
  exists (update_char_result self pos v).
  assert (in_window self (15360 + pos)) as Hin by (unfold in_window; lia).
  rewrite poke_inside by exact Hin.
  replace (15360 + pos - 15360) with pos by lia.
  split; [apply update_char_eq; assumption |].
  apply (point_after_write self _ x y v W Hx Hy).
  apply update_char_result_written; assumption.
Qed.

(** A run of [set] calls, pixel by pixel. *)
Lemma set_run_paints (ps : list (Z * Z)) : forall self : Runtime,
  wf self ->
  Forall (fun p => 0 <= fst p < line_width self * 2 /\
                   0 <= snd p < line_count self * 3) ps ->
  exists s',
    for_each ps (fun p => set (fst p) (snd p)) self = Ok (tt, s') /\
    wf s' /\ same_setup self s' /\ cursor s' = cursor self /\
    forall x' y',
      0 <= x' < line_width self * 2 -> 0 <= y' < line_count self * 3 ->
      exists v, point x' y' self = Ok (v, self) /\
                point x' y' s' =
                  Ok (if decide ((x', y') ∈ ps) then true else v, s').
Proof.
  induction ps as [| [x y] ps IH]; intros self W Hvalid.
  - exists self. split; [reflexivity |].
    split; [exact W |]. split; [apply same_setup_refl |]. split; [reflexivity |].
    intros x' y' Hx' Hy'.
    pose proof (pixel_in_buffer self x' y' W Hx' Hy') as Hpos'.
    destruct (wf_cell self _ W Hpos') as (b' & Hb' & _).
    eexists. split; [apply (point_value self x' y' W Hx' Hy' b' Hb') |].
    destruct (decide _) as [Hin | _]; [inversion Hin |].
    apply (point_value self x' y' W Hx' Hy' b' Hb').
  - apply Forall_cons in Hvalid. destruct Hvalid as [[Hx Hy] Hrest].
    simpl in Hx, Hy.
    destruct (point_after_set self x y x y W Hx Hy Hx Hy)
      as (s1 & _ & E1 & W1 & S1 & C1 & _ & _).
    assert (line_width s1 = line_width self /\ line_count s1 = line_count self)
      as [El Ec] by (split; apply S1).
    destruct (IH s1 W1) as (s' & E' & W' & S' & C' & Hpix).
    { rewrite El, Ec. exact Hrest. }
    exists s'. split; [simpl; unfold bind; simpl; rewrite E1; exact E' |].
    split; [exact W' |]. split; [eapply same_setup_trans; eassumption |].
    split; [congruence |].
    intros x' y' Hx' Hy'.
    destruct (point_after_set self x y x' y' W Hx Hy Hx' Hy')
      as (s1' & v & E1' & _ & _ & _ & P0 & P1).
    assert (s1' = s1) as -> by congruence.
    destruct (Hpix x' y') as (v1 & P1' & P');
      [rewrite El; exact Hx' | rewrite Ec; exact Hy' |].
    exists v. split; [exact P0 |]. rewrite P'. f_equal. f_equal.
    assert (v1 = if decide (pixel_pos (line_width self) x' y'
                              = pixel_pos (line_width self) x y
                            /\ pixel_bit x' y' = pixel_bit x y)
                 then true else v) as -> by congruence.
    pose proof (wf_width _ W) as Hlw.
    destruct (decide ((x', y') ∈ ps)) as [Hin | Hnin].
    + destruct (decide ((x', y') ∈ (x, y) :: ps)) as [_ | Hn];
        [reflexivity | exfalso; apply Hn; right; exact Hin].
    + destruct (decide (pixel_pos _ _ _ = _ /\ _)) as [[Hp Hb] | Hne].
      * destruct (pixel_unique (line_width self) x y x' y') as [-> ->];
          try assumption; try lia.
        destruct (decide _) as [_ | Hn]; [reflexivity |].
        exfalso. apply Hn. left.
      * destruct (decide ((x', y') ∈ (x, y) :: ps)) as [Hin | _];
          [| reflexivity].
        apply elem_of_cons in Hin. destruct Hin as [Heq | Hin];
          [| contradiction].
        injection Heq as -> ->. exfalso. apply Hne. split; reflexivity.
Qed.

(** X18. A run of [set] calls paints exactly its pixels: when all the
    coordinates are valid the whole run returns, the cursor has not moved,
    and [point] is true for every pixel of the run and has its former value
    for every other pixel of the screen. *)
Theorem set_many_paints (ps : list (Z * Z)) : forall self : Runtime,
  wf self ->
  Forall (fun p => 0 <= fst p < line_width self * 2 /\
                   0 <= snd p < line_count self * 3) ps ->
  exists s',
    for_each ps (fun p => set (fst p) (snd p)) self = Ok (tt, s') /\
    wf s' /\ same_setup self s' /\ cursor s' = cursor self /\
    forall x' y',
      0 <= x' < line_width self * 2 -> 0 <= y' < line_count self * 3 ->
      exists v, point x' y' self = Ok (v, self) /\
                point x' y' s' =
                  Ok (if decide ((x', y') ∈ ps) then true else v, s').
Proof. exact (set_run_paints ps). Qed.

(** ** Line drawing: [line] of [demos-code.py] *)

(** A loop over [range(lo, hi)] that threads local variables, with
    invariant [I]. *)
Lemma returns_for_fold {S} (I : Z -> S -> Runtime -> Prop)
    (body : Z -> S -> M S) lo hi (s0 : S) self :
  lo <= hi ->
  I lo s0 self ->
  (forall i s r, lo <= i < hi -> I i s r ->
                 returns (body i s) r (fun s' r' => I (i + 1) s' r')) ->
  returns (for_fold (Py.range lo hi) body s0) self (fun s' r' => I hi s' r').
Proof.
  unfold Py.range. intros Hle.
  remember (Z.to_nat (hi - lo)) as k eqn:Hk.
  revert lo s0 self Hle Hk.
  induction k as [|k IH]; intros lo s0 self Hle Hk H0 Hstep.
  - assert (hi = lo) as -> by lia. rewrite Z.sub_diag. simpl.
    apply returns_ret. exact H0.
  - rewrite (seqZ_cons lo (hi - lo)) by lia. simpl.
    apply returns_bind.
    eapply returns_mono; [apply (Hstep lo s0 self); [lia | exact H0] |].
    intros s r Hs. simpl in Hs |- *.
    replace (Z.pred (hi - lo)) with (hi - Z.succ lo) by lia.
    apply IH; [lia | lia | replace (Z.succ lo) with (lo + 1) by lia; exact Hs |].
    intros i s1 r1 Hi. apply Hstep. lia.
Qed.

Lemma painted_within_refl B self : wf self -> painted_within B self self.
Proof.
  intros W. split; [exact W |]. split; [apply same_setup_refl |].
  split; [reflexivity |]. intros x y Hx Hy.
  pose proof (pixel_in_buffer self x y W Hx Hy) as Hpos.
  destruct (wf_cell self _ W Hpos) as (b & Hb & _).
  pose proof (point_value self x y W Hx Hy b Hb) as P.
  eexists _, _. split; [exact P |]. split; [exact P |]. split; auto.
Qed.

(** One [set] inside the region. *)
Lemma set_painted_within (B : Z -> Z -> Prop) self r x y :
  painted_within B self r ->
  0 <= x < line_width self * 2 -> 0 <= y < line_count self * 3 ->
  B x y ->
  exists r',
    set x y r = Ok (tt, r') /\ painted_within B self r' /\
    point x y r' = Ok (true, r') /\
    (forall x' y',
       0 <= x' < line_width self * 2 -> 0 <= y' < line_count self * 3 ->
       point x' y' r = Ok (true, r) -> point x' y' r' = Ok (true, r')).
Proof.
  intros (Wr & Sr & Cr & Hpix) Hx Hy HB.
  assert (line_width r = line_width self /\ line_count r = line_count self)
    as [El Ec] by (split; apply Sr).
  pose proof (wf_width _ Wr) as Hlw.
  assert (forall x' y',
            0 <= x' < line_width self * 2 -> 0 <= y' < line_count self * 3 ->
            exists r' v,
              set x y r = Ok (tt, r') /\ wf r' /\ same_setup r r' /\
              cursor r' = cursor r /\ point x' y' r = Ok (v, r) /\
              point x' y' r' =
                Ok (if decide (pixel_pos (line_width r) x' y'
                                 = pixel_pos (line_width r) x y
                               /\ pixel_bit x' y' = pixel_bit x y)
                    then true else v, r')) as Hset.
  { intros x' y' Hx' Hy'. apply point_after_set; rewrite ?El, ?Ec; assumption. }
  destruct (Hset x y Hx Hy) as (r' & v0 & E & W' & S' & C' & _ & Pxy).
  exists r'. split; [exact E |]. split; [| split].
  - split; [exact W' |]. split; [eapply same_setup_trans; eassumption |].
    split; [congruence |]. intros x' y' Hx' Hy'.
    destruct (Hpix x' y' Hx' Hy') as (v & v' & P0 & Pr & Hmono & Hout).
    destruct (Hset x' y' Hx' Hy') as (r2 & w & E2 & _ & _ & _ & Pr2 & P').
    assert (r2 = r') as -> by congruence.
    assert (w = v') as -> by congruence.
    eexists v, _. split; [exact P0 |]. split; [exact P' |]. split.
    + intros Hv.
      destruct (decide (pixel_pos (line_width r) x' y' = pixel_pos (line_width r) x y
                         /\ pixel_bit x' y' = pixel_bit x y));
        [reflexivity | auto].
    + intros HnB.
      destruct (decide (pixel_pos (line_width r) x' y' = pixel_pos (line_width r) x y
                         /\ pixel_bit x' y' = pixel_bit x y))
        as [[Hp Hb] | _]; [| auto].
      exfalso. apply HnB. rewrite El in Hp, Hlw.
      assert (x' = x /\ y' = y) as [-> ->]
        by (apply (pixel_unique (line_width self)); try assumption; lia).
      exact HB.
  - destruct (decide (pixel_pos _ _ _ = _ /\ _)) as [_ | Hn] in Pxy;
      [exact Pxy |].
    exfalso. apply Hn. split; reflexivity.
  - intros x' y' Hx' Hy' Plit.
    destruct (Hset x' y' Hx' Hy') as (r2 & w & E2 & _ & _ & _ & Pr2 & P').
    assert (r2 = r') as -> by congruence.
    assert (w = true) as -> by congruence.
    rewrite P'.
    destruct (decide (pixel_pos (line_width r) x' y' = pixel_pos (line_width r) x y
                         /\ pixel_bit x' y' = pixel_bit x y));
      reflexivity.
Qed.

(** The loop of the branch [dy <= dx]: [dx] steps along x, the error term
    deciding the steps along y.  After [j] steps the point is
    [(x1 + ix*j, y1 + iy*k)] with [2*dy*j - 2*dx*k] in [[-dx, dx)]. *)
Lemma line_loop_shallow (B : Z -> Z -> Prop) self x1 y1 ix iy dx dy :
  wf self -> 0 <= dy <= dx ->
  (forall j k, 0 <= j <= dx -> 0 <= k <= dy ->
     (0 <= x1 + ix * j < line_width self * 2 /\
      0 <= y1 + iy * k < line_count self * 3) /\
     B (x1 + ix * j) (y1 + iy * k)) ->
  returns
    (for_fold (Py.range 1 (dx + 1))
       (fun _ '(x1, y1, e) =>
          set x1 y1 ;;;
          let x1 := x1 + ix in
          if e <? 0 then ret (x1, y1, e + 2 * dy)
          else ret (x1, y1 + iy, e + (2 * dy - 2 * dx)))
       (x1, y1, - dx + 2 * dy))
    self
    (fun st r =>
       (exists e, st = (x1 + ix * dx, y1 + iy * dy, e)) /\
       painted_within B self r /\
       (0 < dx -> point x1 y1 r = Ok (true, r))).
Proof.
  intros W Hd Hbox.
  eapply returns_mono.
  - apply (returns_for_fold
      (fun i st r =>
         exists k, 0 <= k <= dy /\
           - dx <= 2 * dy * (i - 1) - 2 * dx * k /\
           (2 * dy * (i - 1) - 2 * dx * k < dx \/ dx = 0) /\
           st = (x1 + ix * (i - 1), y1 + iy * k,
                 2 * dy * (i - 1) - 2 * dx * k + 2 * dy - dx) /\
           painted_within B self r /\
           (1 < i -> point x1 y1 r = Ok (true, r)))).
    + lia.
    + exists 0. split; [lia |]. split; [lia |]. split; [lia |].
      split; [f_equal; [f_equal |]; lia |].
      split; [apply painted_within_refl; exact W | lia].
    + intros i st r Hi (k & Hk & Hlo & Hhi & -> & Hp & Hstart).
      destruct (Hbox (i - 1) k ltac:(lia) Hk) as ((Hx & Hy) & HB).
      destruct (set_painted_within B self r _ _ Hp Hx Hy HB)
        as (r' & E & Hp' & Plit & Hmono).
      assert (point x1 y1 r' = Ok (true, r')) as Hstart'.
      { destruct (Z.eq_dec i 1) as [-> | Hne].
        - assert (k = 0) as -> by nia.
          replace (x1 + ix * (1 - 1)) with x1 in Plit by lia.
          replace (y1 + iy * 0) with y1 in Plit by lia. exact Plit.
        - destruct (Hbox 0 0 ltac:(lia) ltac:(lia)) as ((Hx1 & Hy1) & _).
          replace (x1 + ix * 0) with x1 in Hx1 by lia.
          replace (y1 + iy * 0) with y1 in Hy1 by lia.
          apply Hmono; [exact Hx1 | exact Hy1 | apply Hstart; lia]. }
      apply returns_bind. exists tt, r'. split; [exact E |].
      destruct (Z.ltb_spec
                  (2 * dy * (i - 1) - 2 * dx * k + 2 * dy - dx) 0) as [Hneg | Hpos].
      * apply returns_ret. exists k.
        split; [exact Hk |]. split; [lia |]. split; [lia |].
        split; [f_equal; [f_equal |]; lia |].
        split; [exact Hp' | intros _; exact Hstart'].
      * apply returns_ret. exists (k + 1).
        assert (k + 1 <= dy)
          by (destruct (Z.le_gt_cases (k + 1) dy); [assumption | exfalso; nia]).
        split; [lia |]. split; [lia |]. split; [lia |].
        split; [f_equal; [f_equal |]; lia |].
        split; [exact Hp' | intros _; exact Hstart'].
  - cbv beta. intros st r (k & Hk & Hlo & Hhi & -> & Hp & Hstart).
    replace (dx + 1 - 1) with dx in * by lia.
    assert (k = dy) as -> by nia.
    split; [eexists; reflexivity |]. split; [exact Hp |].
    intros Hdx. apply Hstart. lia.
Qed.

(** The loop of the branch [dy > dx]: the same with the axes exchanged. *)
Lemma line_loop_steep (B : Z -> Z -> Prop) self x1 y1 ix iy dx dy :
  wf self -> 0 <= dx <= dy ->
  (forall j k, 0 <= j <= dx -> 0 <= k <= dy ->
     (0 <= x1 + ix * j < line_width self * 2 /\
      0 <= y1 + iy * k < line_count self * 3) /\
     B (x1 + ix * j) (y1 + iy * k)) ->
  returns
    (for_fold (Py.range 1 (dy + 1))
       (fun _ '(x1, y1, e) =>
          set x1 y1 ;;;
          let y1 := y1 + iy in
          if e <? 0 then ret (x1, y1, e + 2 * dx)
          else ret (x1 + ix, y1, e + (2 * dx - 2 * dy)))
       (x1, y1, - dy + 2 * dx))
    self
    (fun st r =>
       (exists e, st = (x1 + ix * dx, y1 + iy * dy, e)) /\
       painted_within B self r /\
       (0 < dy -> point x1 y1 r = Ok (true, r))).
Proof.
  intros W Hd Hbox.
  eapply returns_mono.
  - apply (returns_for_fold
      (fun i st r =>
         exists k, 0 <= k <= dx /\
           - dy <= 2 * dx * (i - 1) - 2 * dy * k /\
           (2 * dx * (i - 1) - 2 * dy * k < dy \/ dy = 0) /\
           st = (x1 + ix * k, y1 + iy * (i - 1),
                 2 * dx * (i - 1) - 2 * dy * k + 2 * dx - dy) /\
           painted_within B self r /\
           (1 < i -> point x1 y1 r = Ok (true, r)))).
    + lia.
    + exists 0. split; [lia |]. split; [lia |]. split; [lia |].
      split; [f_equal; [f_equal |]; lia |].
      split; [apply painted_within_refl; exact W | lia].
    + intros i st r Hi (k & Hk & Hlo & Hhi & -> & Hp & Hstart).
      destruct (Hbox k (i - 1) Hk ltac:(lia)) as ((Hx & Hy) & HB).
      destruct (set_painted_within B self r _ _ Hp Hx Hy HB)
        as (r' & E & Hp' & Plit & Hmono).
      assert (point x1 y1 r' = Ok (true, r')) as Hstart'.
      { destruct (Z.eq_dec i 1) as [-> | Hne].
        - assert (k = 0) as -> by nia.
          replace (x1 + ix * 0) with x1 in Plit by lia.
          replace (y1 + iy * (1 - 1)) with y1 in Plit by lia. exact Plit.
        - destruct (Hbox 0 0 ltac:(lia) ltac:(lia)) as ((Hx1 & Hy1) & _).
          replace (x1 + ix * 0) with x1 in Hx1 by lia.
          replace (y1 + iy * 0) with y1 in Hy1 by lia.
          apply Hmono; [exact Hx1 | exact Hy1 | apply Hstart; lia]. }
      apply returns_bind. exists tt, r'. split; [exact E |].
      destruct (Z.ltb_spec
                  (2 * dx * (i - 1) - 2 * dy * k + 2 * dx - dy) 0) as [Hneg | Hpos].
      * apply returns_ret. exists k.
        split; [exact Hk |]. split; [lia |]. split; [lia |].
        split; [f_equal; [f_equal |]; lia |].
        split; [exact Hp' | intros _; exact Hstart'].
      * apply returns_ret. exists (k + 1).
        assert (k + 1 <= dx)
          by (destruct (Z.le_gt_cases (k + 1) dx); [assumption | exfalso; nia]).
        split; [lia |]. split; [lia |]. split; [lia |].
        split; [f_equal; [f_equal |]; lia |].
        split; [exact Hp' | intros _; exact Hstart'].
  - cbv beta. intros st r (k & Hk & Hlo & Hhi & -> & Hp & Hstart).
    replace (dy + 1 - 1) with dy in * by lia.
    assert (k = dx) as -> by nia.
    split; [eexists; reflexivity |]. split; [exact Hp |].
    intros Hdy. apply Hstart. lia.
Qed.

(** [line] returns, lights its end points and paints inside their
    rectangle only. *)
Lemma line_paints (self : Runtime) (x1 y1 x2 y2 : Z) :
  wf self ->
  0 <= x1 < line_width self * 2 -> 0 <= y1 < line_count self * 3 ->
  0 <= x2 < line_width self * 2 -> 0 <= y2 < line_count self * 3 ->
  returns (line x1 y1 x2 y2) self
    (fun _ s' =>
       wf s' /\ cursor s' = cursor self /\
       point x1 y1 s' = Ok (true, s') /\
       point x2 y2 s' = Ok (true, s') /\
       painted_within
         (fun x y => Z.min x1 x2 <= x <= Z.max x1 x2 /\
                     Z.min y1 y2 <= y <= Z.max y1 y2) self s').
Proof.
  intros W Hx1 Hy1 Hx2 Hy2.
  set (B := fun x y => Z.min x1 x2 <= x <= Z.max x1 x2 /\
                       Z.min y1 y2 <= y <= Z.max y1 y2).
  set (ix := if x2 - x1 <? 0 then -1 else 1).
  set (dx := if x2 - x1 <? 0 then - (x2 - x1) else x2 - x1).
  set (iy := if y2 - y1 <? 0 then -1 else 1).
  set (dy := if y2 - y1 <? 0 then - (y2 - y1) else y2 - y1).
  assert (0 <= dx /\ x1 + ix * dx = x2 /\
          forall j, 0 <= j <= dx ->
                    Z.min x1 x2 <= x1 + ix * j <= Z.max x1 x2) as (Hdx & Ex & Hjx).
  { unfold ix, dx. destruct (Z.ltb_spec (x2 - x1) 0);
      (split; [lia |]; split; [lia |]; intros j Hj; lia). }
  assert (0 <= dy /\ y1 + iy * dy = y2 /\
          forall k, 0 <= k <= dy ->
                    Z.min y1 y2 <= y1 + iy * k <= Z.max y1 y2) as (Hdy & Ey & Hky).
  { unfold iy, dy. destruct (Z.ltb_spec (y2 - y1) 0);
      (split; [lia |]; split; [lia |]; intros k Hk; lia). }
  assert (forall j k, 0 <= j <= dx -> 0 <= k <= dy ->
            (0 <= x1 + ix * j < line_width self * 2 /\
             0 <= y1 + iy * k < line_count self * 3) /\
            B (x1 + ix * j) (y1 + iy * k)) as Hbox.
  { intros j k Hj Hk. pose proof (Hjx j Hj). pose proof (Hky k Hk).
    unfold B. lia. }
  assert (forall (st : Z * Z * Z) r,
            (exists e, st = (x1 + ix * dx, y1 + iy * dy, e)) ->
            painted_within B self r ->
            (0 < dx \/ 0 < dy -> point x1 y1 r = Ok (true, r)) ->
            returns (let '(a, b, _) := st in set a b) r
              (fun _ s' =>
                 wf s' /\ cursor s' = cursor self /\
                 point x1 y1 s' = Ok (true, s') /\
                 point x2 y2 s' = Ok (true, s') /\
                 painted_within B self s')) as Hlast.
  { intros st r (e & ->) Hp Hstart. rewrite Ex, Ey.
    assert (B x2 y2) as HB2 by (unfold B; lia).
    destruct (set_painted_within B self r x2 y2 Hp Hx2 Hy2 HB2)
      as (r' & E & Hp' & Plit & Hmono).
    exists tt, r'. split; [exact E |].
    split; [apply Hp' |]. split; [apply Hp' |].
    split; [| split; [exact Plit | exact Hp']].
    destruct (Z.eq_dec dx 0) as [Hx0 | Hx0], (Z.eq_dec dy 0) as [Hy0 | Hy0];
      try (apply Hmono; [exact Hx1 | exact Hy1 | apply Hstart; lia]).
    rewrite Hx0 in Ex. rewrite Hy0 in Ey.
    replace x1 with x2 by lia. replace y1 with y2 by lia. exact Plit. }
  assert (returns (line x1 y1 x2 y2) self
            (fun _ s' =>
               wf s' /\ cursor s' = cursor self /\
               point x1 y1 s' = Ok (true, s') /\
               point x2 y2 s' = Ok (true, s') /\
               painted_within B self s')) as R.
  { unfold line. fold ix dx iy dy.
    destruct (Z.ltb_spec dx dy) as [Hsteep | Hshallow].
    - apply returns_bind.
      eapply returns_mono;
        [apply (line_loop_steep B self x1 y1 ix iy dx dy W ltac:(lia) Hbox) |].
      cbv beta. intros st r (Hst & Hp & Hstart).
      apply Hlast; [exact Hst | exact Hp | intros _; apply Hstart; lia].
    - apply returns_bind.
      eapply returns_mono;
        [apply (line_loop_shallow B self x1 y1 ix iy dx dy W ltac:(lia) Hbox) |].
      cbv beta. intros st r (Hst & Hp & Hstart).
      apply Hlast; [exact Hst | exact Hp | intros H; apply Hstart; lia]. }
  exact R.
Qed.

(** X19. [line(x1,y1,x2,y2)] between two pixels of the screen returns
    without leaving the screen, lights both end points, keeps every pixel
    that was lit, changes no pixel outside the rectangle spanned by the end
    points, and does not move the cursor. *)
Theorem line_joins_end_points (self : Runtime) (x1 y1 x2 y2 : Z) :
  wf self ->
  0 <= x1 < line_width self * 2 -> 0 <= y1 < line_count self * 3 ->
  0 <= x2 < line_width self * 2 -> 0 <= y2 < line_count self * 3 ->
  exists s',
    line x1 y1 x2 y2 self = Ok (tt, s') /\
    wf s' /\ cursor s' = cursor self /\
    point x1 y1 s' = Ok (true, s') /\
    point x2 y2 s' = Ok (true, s') /\
    forall x y,
      0 <= x < line_width self * 2 -> 0 <= y < line_count self * 3 ->
      exists v v',
        point x y self = Ok (v, self) /\ point x y s' = Ok (v', s') /\
        (v = true -> v' = true) /\
        (~ (Z.min x1 x2 <= x <= Z.max x1 x2 /\
            Z.min y1 y2 <= y <= Z.max y1 y2) -> v' = v).
Proof.
  intros W Hx1 Hy1 Hx2 Hy2.
  destruct (line_paints self x1 y1 x2 y2 W Hx1 Hy1 Hx2 Hy2)
    as ([] & s' & E & W' & C' & P1 & P2 & Hp).
  exists s'. split; [exact E |]. split; [exact W' |]. split; [exact C' |].
  split; [exact P1 |]. split; [exact P2 |]. apply Hp.
Qed.

(** ** The line editor: [_input] *)

Lemma update_char_outside pos c self :
  Z.of_nat (length (chars self)) <= pos -> 0 <= c < 256 ->
  _update_char pos c self = Raise IndexError.
Proof.
  intros Hpos Hc. unfold _update_char.
  rewrite bind_assert
    by (apply andb_true_iff; split; [apply Z.leb_le | apply Z.ltb_lt]; lia).
  unfold bind at 1, chars_get, bind, get, lift, Py.getitem.
  rewrite index_out_of_range by exact Hpos. reflexivity.
Qed.

Lemma update_char_run pos c self :
  wf self -> 0 <= pos < chars_len self -> 0 <= c < 256 ->
  exists r, _update_char pos c self = Ok (tt, r) /\
            wf r /\ same_setup self r /\ cursor r = cursor self /\
            chars r = <[Z.to_nat pos := c]> (chars self).
Proof.
  intros W Hpos Hc. exists (update_char_result self pos c).
  split; [apply update_char_eq; assumption |].
  destruct (update_char_result_written pos c self W Hpos Hc)
    as (W' & S' & C' & Ch' & _).
  split; [exact W' |]. split; [exact S' |]. split; [exact C' | exact Ch'].
Qed.

(** A call of [_update_char] at a non-negative position that returns has
    written inside the buffer. *)
Lemma update_char_returned pos c self u r :
  wf self -> 0 <= pos ->
  _update_char pos c self = Ok (u, r) ->
  0 <= pos < chars_len self /\ 0 <= c < 256 /\
  wf r /\ same_setup self r /\ cursor r = cursor self /\
  chars r = <[Z.to_nat pos := c]> (chars self).
Proof.
  intros W Hpos E. pose proof (wf_length _ W) as Hlen.
  destruct (decide (0 <= c < 256)) as [Hc | Hc];
    [| rewrite update_char_bad_code in E by exact Hc; discriminate].
  destruct (Z.lt_ge_cases pos (chars_len self)) as [Hin | Hout];
    [| rewrite update_char_outside in E by lia; discriminate].
  destruct (update_char_run pos c self W ltac:(lia) Hc)
    as (r' & E' & W' & S' & C' & Ch').
  rewrite E' in E. injection E as Hu Hr. subst r.
  split; [lia |]. split; [exact Hc |].
  split; [exact W' |]. split; [exact S' |]. split; [exact C' | exact Ch'].
Qed.

Lemma input_loop_turn t env d text self :
  _input_loop (t :: env) d text self =
  bind (_update_char (cursor self) (blink t)) (fun _ =>
    if scripted d then
      let s := match demoInput d with Some s => s | None => [] end in
      let* c := lift (Py.getitem s (demoInputPos d)) in
      let d := mkDemo (demoInput d)
                 ((demoInputPos d + 1) mod Z.of_nat (length s)) in
      if c =? 0 then _input_loop env d text
      else if (c =? 10) || (c =? 13) then
        _update_char (cursor self) 32 ;;;
        ret (Returned text d)
      else
        _update_char (cursor self) c ;;;
        modify (fun r => with_cursor r (cursor self + 1)) ;;;
        _input_loop env d (text ++ [c])
    else
      match serial t with
      | Some c =>
        if (c =? 8) || (c =? 127) then
          if (0 <? Z.of_nat (length text))%Z then
            _update_char (cursor self) 32 ;;;
            modify (fun r => with_cursor r (cursor self - 1)) ;;;
            _update_char (cursor self - 1) 32 ;;;
            _input_loop env d (removelast text)
          else _input_loop env d text
        else if (c =? 10) || (c =? 13) then
          _update_char (cursor self) 32 ;;;
          ret (Returned text d)
        else
          _update_char (cursor self) c ;;;
          modify (fun r => with_cursor r (cursor self + 1)) ;;;
          _input_loop env d (text ++ [c])
      | None => _input_loop env d text
      end) self.
Proof.
  simpl. rewrite bind_get. unfold blink.
  destruct (Z.land (ticks_ms t) 256 =? 0); reflexivity.
Qed.

Lemma blink_code t : 0 <= blink t < 256.
Proof. unfold blink. destruct (_ =? _); lia. Qed.

(** X20. The line editor neither wraps nor scrolls.  A character typed (from
    the serial line) while the cursor is on the last cell of the buffer is
    drawn there: the turn returns with the character appended to the text,
    the last cell holding its code, every other cell as it was, nothing
    scrolled, and the cursor at [chars_len], outside the buffer.  From that
    state the next turn of the loop, whatever it reads, raises [IndexError],
    and so does [_input] as a whole. *)
Theorem input_overflows_at_end
    (self : Runtime) (d : Demo) (c ms : Z) :
  wf self -> cursor self = chars_len self - 1 ->
  scripted d = false ->
  0 <= c < 256 -> c <> 8 -> c <> 127 -> c <> 10 -> c <> 13 ->
  exists r,
    (forall text,
       _input_loop [mkTick ms (Some c)] d text self
       = Ok (Waiting (text ++ [c]) d, r)) /\
    cursor r = chars_len self /\
    chars r = <[Z.to_nat (chars_len self - 1) := c]> (chars self) /\
    scrolls r = scrolls self /\
    (forall t2 env d' text,
       _input_loop (t2 :: env) d' text r = Raise IndexError) /\
    (forall t2 env,
       _input None (mkTick ms (Some c) :: t2 :: env) d self
       = Raise IndexError).
Proof.
  intros W Hcur Hd Hc H8 H127 H10 H13.
  pose proof (wf_width _ W) as Hlw. pose proof (wf_count _ W) as Hlc.
  pose proof (wf_len _ W) as Hn.
  assert (0 <= cursor self < chars_len self) as Hin by nia.
  set (t := mkTick ms (Some c)).
  pose proof (update_char_eq (cursor self) (blink t) self W Hin (blink_code t))
    as E1.
  destruct (update_char_result_written (cursor self) (blink t) self W Hin
              (blink_code t)) as (W1 & S1 & C1 & Ch1 & Sc1 & _).
  set (r1 := update_char_result self (cursor self) (blink t)) in *.
  assert (chars_len r1 = chars_len self) as En1 by apply S1.
  assert (0 <= cursor self < chars_len r1) as Hin1 by lia.
  pose proof (update_char_eq (cursor self) c r1 W1 Hin1 Hc) as E2.
  destruct (update_char_result_written (cursor self) c r1 W1 Hin1 Hc)
    as (W2 & S2 & C2 & Ch2 & Sc2 & _).
  set (r2 := update_char_result r1 (cursor self) c) in *.
  assert (chars_len r2 = chars_len self)
    as En2 by (transitivity (chars_len r1); [apply S2 | exact En1]).
  set (r := with_cursor r2 (cursor self + 1)).
  assert (forall env text,
            _input_loop (t :: env) d text self
            = _input_loop env d (text ++ [c]) r) as Hturn.
  { intros env text. rewrite input_loop_turn. unfold bind at 1.
    rewrite E1, Hd. unfold t at 1. cbn [serial].
    destruct (Z.eqb_spec c 8); [contradiction |].
    destruct (Z.eqb_spec c 127); [contradiction |].
    destruct (Z.eqb_spec c 10); [contradiction |].
    destruct (Z.eqb_spec c 13); [contradiction |]. cbn [orb].
    unfold bind at 1. rewrite E2. reflexivity. }
  assert (forall t2 env d' text,
            _input_loop (t2 :: env) d' text r = Raise IndexError) as Hnext.
  { intros t2 env d' text. rewrite input_loop_turn. unfold bind at 1.
    rewrite update_char_outside; [reflexivity | | apply blink_code].
    unfold r. cbn [chars cursor with_cursor]. rewrite (wf_length _ W2). lia. }
  exists r. split; [intros text; apply Hturn |].
  split; [unfold r; cbn [cursor with_cursor]; lia |].
  split.
  { unfold r. cbn [chars with_cursor]. rewrite Ch2, Ch1, Hcur.
    apply list_insert_insert_eq. }
  split; [unfold r; rewrite <- Sc1, <- Sc2; reflexivity |].
  split; [exact Hnext |].
  intros t2 env. unfold _input. unfold bind at 1, ret at 1. unfold bind at 1.
  fold t. rewrite Hturn, Hnext. reflexivity.
Qed.

Lemma bind_returned {A B} (m : M A) (k : A -> M B) self b r :
  bind m k self = Ok (b, r) ->
  exists a s, m self = Ok (a, s) /\ k a s = Ok (b, r).
Proof.
  unfold bind. destruct (m self) as [[a s] | e]; [| discriminate].
  intros H. exists a, s. split; [reflexivity | exact H].
Qed.

Lemma length_removelast_pos {A} (l : list A) :
  (0 < length l)%nat -> length (removelast l) = (length l - 1)%nat.
Proof.
  intros H. destruct (exists_last (l := l)) as (l' & a & ->).
  { intros ->. simpl in H. lia. }
  rewrite removelast_last, length_app. simpl. lia.
Qed.

(** X21. While the line editor runs, the cursor is the place where the
    input started plus the number of characters typed so far: whatever the
    turns read (scripted characters, serial characters, back spaces, nothing),
    if the loop returns or is still waiting without having raised, the
    Runtime is well formed, has the same geometry, and its cursor minus the
    length of the text equals the starting cursor minus the length of the
    starting text.  In particular back spaces never take the cursor before the
    start of the input. *)
Theorem input_cursor_follows_text (env : list tick) :
  forall (d : Demo) (text : str) (self : Runtime) (res : input_result)
         (r : Runtime),
    wf self -> Z.of_nat (length text) <= cursor self ->
    _input_loop env d text self = Ok (res, r) ->
    wf r /\ same_setup self r /\
    cursor r - Z.of_nat (length (typed res))
      = cursor self - Z.of_nat (length text).
Proof.
  induction env as [| t env IH]; intros d text self res r W Hlen E.
  - injection E as <- <-. split; [exact W |].
    split; [apply same_setup_refl | reflexivity].
  - rewrite input_loop_turn in E.
    apply bind_returned in E as (u1 & r1 & E1 & E).
    apply update_char_returned in E1 as (Hcur & _ & W1 & S1 & C1 & _);
      [| exact W | lia].
    assert (forall c r2 d' res' r',
              (_update_char (cursor self) c ;;;
               modify (fun r => with_cursor r (cursor self + 1)) ;;;
               _input_loop env d' (text ++ [c])) r2 = Ok (res', r') ->
              wf r2 -> same_setup self r2 -> cursor r2 = cursor self ->
              wf r' /\ same_setup self r' /\
              cursor r' - Z.of_nat (length (typed res'))
                = cursor self - Z.of_nat (length text)) as Htype.
    { intros c r2 d' res' r' H W2 S2 C2.
      apply bind_returned in H as (u & r3 & E3 & H).
      apply update_char_returned in E3 as (_ & _ & W3 & S3 & C3 & _);
        [| exact W2 | lia].
      apply bind_returned in H as (u' & r4 & E4 & H).
      injection E4 as _ <-.
      apply IH in H as (W' & S' & C');
        [| apply wf_with_cursor; exact W3
         | cbn [cursor with_cursor]; rewrite length_app; simpl; lia].
      split; [exact W' |]. split.
      - eapply same_setup_trans; [exact S2 |].
        eapply same_setup_trans; [exact S3 |].
        eapply same_setup_trans; [| exact S']. repeat split.
      - rewrite C'. cbn [cursor with_cursor]. rewrite length_app. simpl. lia. }
    assert (forall d' r2 res' r',
              (_update_char (cursor self) 32 ;;; ret (Returned text d')) r2
                = Ok (res', r') ->
              wf r2 -> same_setup self r2 -> cursor r2 = cursor self ->
              wf r' /\ same_setup self r' /\
              cursor r' - Z.of_nat (length (typed res'))
                = cursor self - Z.of_nat (length text)) as Hend.
    { intros d' r2 res' r' H W2 S2 C2.
      apply bind_returned in H as (u & r3 & E3 & H).
      apply update_char_returned in E3 as (_ & _ & W3 & S3 & C3 & _);
        [| exact W2 | lia].
      injection H as <- <-. split; [exact W3 |].
      split; [eapply same_setup_trans; eassumption |]. simpl. lia. }
    assert (forall d' res' r',
              _input_loop env d' text r1 = Ok (res', r') ->
              wf r' /\ same_setup self r' /\
              cursor r' - Z.of_nat (length (typed res'))
                = cursor self - Z.of_nat (length text)) as Hskip.
    { intros d' res' r' H.
      apply IH in H as (W' & S' & C'); [| exact W1 | lia].
      split; [exact W' |].
      split; [eapply same_setup_trans; eassumption | lia]. }
    destruct (scripted d).
    + apply bind_returned in E as (c & r2 & E2 & E).
      unfold lift in E2.
      destruct (Py.getitem _ _) as [c' | e] in E2; [| discriminate].
      injection E2 as <- <-.
      destruct (c' =? 0); [eapply Hskip; exact E |].
      destruct ((c' =? 10) || (c' =? 13)).
      * eapply Hend; [exact E | exact W1 | exact S1 | exact C1].
      * eapply Htype; [exact E | exact W1 | exact S1 | exact C1].
    + destruct (serial t) as [c |]; [| eapply Hskip; exact E].
      destruct ((c =? 8) || (c =? 127)).
      * destruct (Z.ltb_spec 0 (Z.of_nat (length text))) as [Hpos | Hzero];
          [| eapply Hskip; exact E].
        apply bind_returned in E as (u2 & r2 & E2 & E).
        apply update_char_returned in E2 as (_ & _ & W2 & S2 & C2 & _);
          [| exact W1 | lia].
        apply bind_returned in E as (u3 & r3 & E3 & E).
        injection E3 as _ <-.
        apply bind_returned in E as (u4 & r4 & E4 & E).
        apply update_char_returned in E4 as (_ & _ & W4 & S4 & C4 & _);
          [| apply wf_with_cursor; exact W2 | lia].
        cbn [cursor with_cursor] in C4.
        apply IH in E as (W' & S' & C');
          [| exact W4 | rewrite length_removelast_pos by lia; lia].
        split; [exact W' |]. split.
        -- eapply same_setup_trans; [exact S1 |].
           eapply same_setup_trans; [exact S2 |].
           eapply same_setup_trans; [| exact S'].
           eapply same_setup_trans; [| exact S4]. repeat split.
        -- rewrite C', C4. rewrite length_removelast_pos by lia. lia.
      * destruct ((c =? 10) || (c =? 13)).
        -- eapply Hend; [exact E | exact W1 | exact S1 | exact C1].
        -- eapply Htype; [exact E | exact W1 | exact S1 | exact C1].
Qed.

(** X22. A back space (8 or 127) from the serial line rubs out the last
    typed character: after typing [c] and then a back space the editor goes
    on with the text and the cursor it had before, and with the cell of the
    character and the cell after it blank.  With nothing typed a back space
    is ignored: only the blink touches the buffer. *)
Theorem input_rub_out
    (self : Runtime) (d : Demo) (c bs m1 m2 : Z) :
  wf self -> 0 <= cursor self -> cursor self + 1 < chars_len self ->
  scripted d = false ->
  0 <= c < 256 -> c <> 8 -> c <> 127 -> c <> 10 -> c <> 13 ->
  bs = 8 \/ bs = 127 ->
  (exists r,
     wf r /\ cursor r = cursor self /\
     chars r = <[Z.to_nat (cursor self) := 32]>
                 (<[Z.to_nat (cursor self + 1) := 32]> (chars self)) /\
     forall env text,
       _input_loop (mkTick m1 (Some c) :: mkTick m2 (Some bs) :: env) d text self
       = _input_loop env d text r) /\
  (exists r,
     wf r /\ cursor r = cursor self /\
     chars r = <[Z.to_nat (cursor self) := blink (mkTick m1 (Some bs))]>
                 (chars self) /\
     forall env,
       _input_loop (mkTick m1 (Some bs) :: env) d [] self
       = _input_loop env d [] r).
Proof.
  intros W Hc0 Hc1 Hd Hc H8 H127 H10 H13 Hbs.
  set (cur := cursor self) in *.
  assert ((bs =? 8) || (bs =? 127) = true) as Ebs
    by (destruct Hbs as [-> | ->]; reflexivity).
  split.
  - destruct (update_char_run cur (blink (mkTick m1 (Some c))) self W
                ltac:(lia) (blink_code _)) as (r1 & E1 & W1 & S1 & C1 & Ch1).
    assert (chars_len r1 = chars_len self) as En1 by apply S1.
    destruct (update_char_run cur c r1 W1 ltac:(lia) Hc)
      as (r2 & E2 & W2 & S2 & C2 & Ch2).
    assert (chars_len r2 = chars_len self)
      as En2 by (transitivity (chars_len r1); [apply S2 | exact En1]).
    pose proof (wf_with_cursor r2 (cur + 1) W2) as W2'.
    destruct (update_char_run (cur + 1) (blink (mkTick m2 (Some bs)))
                (with_cursor r2 (cur + 1)) W2'
                ltac:(cbn [chars_len with_cursor]; lia) (blink_code _))
      as (r3 & E3 & W3 & S3 & C3 & Ch3).
    assert (chars_len r3 = chars_len self)
      as En3 by (transitivity (chars_len (with_cursor r2 (cur + 1)));
                 [apply S3 | exact En2]).
    destruct (update_char_run (cur + 1) 32 r3 W3 ltac:(lia) ltac:(lia))
      as (r4 & E4 & W4 & S4 & C4 & Ch4).
    assert (chars_len r4 = chars_len self)
      as En4 by (transitivity (chars_len r3); [apply S4 | exact En3]).
    pose proof (wf_with_cursor r4 (cur + 1 - 1) W4) as W4'.
    destruct (update_char_run (cur + 1 - 1) 32 (with_cursor r4 (cur + 1 - 1)) W4'
                ltac:(cbn [chars_len with_cursor]; lia) ltac:(lia))
      as (r5 & E5 & W5 & S5 & C5 & Ch5).
    exists r5. split; [exact W5 |].
    split; [rewrite C5; cbn [cursor with_cursor]; lia |]. split.
    + rewrite Ch5. cbn [chars with_cursor]. rewrite Ch4, Ch3.
      cbn [chars with_cursor]. rewrite Ch2, Ch1.
      replace (Z.to_nat (cur + 1 - 1)) with (Z.to_nat cur) by lia.
      rewrite !list_insert_insert_eq.
      rewrite (list_insert_insert_ne _ (Z.to_nat (cur + 1)) (Z.to_nat cur)) by lia.
      rewrite list_insert_insert_eq. reflexivity.
    + intros env text. rewrite input_loop_turn. fold cur.
      unfold bind at 1. rewrite E1, Hd. cbn [serial].
      destruct (Z.eqb_spec c 8); [contradiction |].
      destruct (Z.eqb_spec c 127); [contradiction |].
      destruct (Z.eqb_spec c 10); [contradiction |].
      destruct (Z.eqb_spec c 13); [contradiction |]. cbn [orb].
      unfold bind at 1. rewrite E2. unfold bind at 1, modify at 1.
      rewrite input_loop_turn. cbn [cursor with_cursor].
      unfold bind at 1. rewrite E3, Hd. cbn [serial]. rewrite Ebs.
      replace (0 <? Z.of_nat (length (text ++ [c]))) with true
        by (symmetry; apply Z.ltb_lt; rewrite length_app; simpl; lia).
      unfold bind at 1. rewrite E4. unfold bind at 1, modify at 1.
      unfold bind at 1. rewrite E5. rewrite removelast_last. reflexivity.
  - destruct (update_char_run cur (blink (mkTick m1 (Some bs))) self W
                ltac:(lia) (blink_code _)) as (r1 & E1 & W1 & S1 & C1 & Ch1).
    exists r1. split; [exact W1 |]. split; [exact C1 |]. split; [exact Ch1 |].
    intros env. rewrite input_loop_turn. fold cur.
    unfold bind at 1. rewrite E1, Hd. cbn [serial]. rewrite Ebs. reflexivity.
Qed.

Lemma scripted_inside s p :
  p < Z.of_nat (length s) -> (0 < length s)%nat ->
  scripted (mkDemo (Some s) p) = true.
Proof.
  intros Hp Hs. unfold scripted. cbn [demoInput demoInputPos].
  apply andb_true_iff. split; [| apply Z.ltb_lt; exact Hp].
  destruct (length s); [lia | reflexivity].
Qed.

Lemma script_char (pre seg post : str) c :
  Py.getitem (pre ++ c :: seg ++ post) (Z.of_nat (length pre)) = Ok c.
Proof.
  destruct (getitem_in_range (pre ++ c :: seg ++ post) (Z.of_nat (length pre)))
    as (x & Hx & Hget).
  { rewrite length_app. simpl. lia. }
  rewrite Nat2Z.id in Hx. rewrite lookup_app_r in Hx by lia.
  rewrite Nat.sub_diag in Hx. simpl in Hx. injection Hx as <-. exact Hget.
Qed.

(** A stretch of the script that holds no end of line: each turn consumes one
    character of it, the non-null ones are typed. *)
Lemma input_script_segment (post : list Z) (seg : list Z) :
  forall (ts : list tick) (pre text : list Z) (self : Runtime) (base : list Z)
         (env : list tick),
    length ts = length seg -> post <> [] ->
    Forall (fun c => 0 <= c < 256 /\ c <> 10 /\ c <> 13) seg ->
    wf self -> 0 <= cursor self ->
    cursor self + Z.of_nat (length (filter (fun c => c <> 0) seg))
      < chars_len self ->
    length base = length (chars self) ->
    (forall j, j <> Z.to_nat (cursor self) -> chars self !! j = base !! j) ->
    exists r,
      _input_loop (ts ++ env)
        (mkDemo (Some (pre ++ seg ++ post)) (Z.of_nat (length pre))) text self
      = _input_loop env
          (mkDemo (Some (pre ++ seg ++ post))
             (Z.of_nat (length pre) + Z.of_nat (length seg)))
          (text ++ filter (fun c => c <> 0) seg) r /\
      wf r /\ same_setup self r /\
      cursor r = cursor self
                 + Z.of_nat (length (filter (fun c => c <> 0) seg)) /\
      (forall j, j <> Z.to_nat (cursor r) ->
         chars r !! j
         = (take (Z.to_nat (cursor self)) base
              ++ filter (fun c => c <> 0) seg
              ++ drop (Z.to_nat (cursor self)
                       + length (filter (fun c => c <> 0) seg)) base) !! j).
Proof.
  induction seg as [| c seg IH];
    intros ts pre text self base env Hts Hpost Hseg W Hc0 Hfit Hbase Hagree.
  - destruct ts; [| discriminate]. exists self. simpl.
    rewrite Z.add_0_r, app_nil_r.
    split; [reflexivity |]. split; [exact W |].
    split; [apply same_setup_refl |]. split; [lia |].
    intros j Hj. rewrite Nat.add_0_r, take_drop. apply Hagree. exact Hj.
  - destruct ts as [| t ts]; [discriminate |]. injection Hts as Hts.
    apply Forall_cons in Hseg. destruct Hseg as [(Hc & H10 & H13) Hseg].
    pose proof (wf_length _ W) as Hlen.
    assert (cursor self < chars_len self) as Hc1 by lia.
    destruct (update_char_run (cursor self) (blink t) self W ltac:(lia)
                (blink_code t)) as (r1 & E1 & W1 & S1 & C1 & Ch1).
    assert (chars_len r1 = chars_len self) as En1 by apply S1.
    assert ((Z.of_nat (length pre) + 1)
              mod Z.of_nat (length (pre ++ c :: seg ++ post))
            = Z.of_nat (length (pre ++ [c]))) as Epos.
    { rewrite Z.mod_small; [rewrite length_app; simpl; lia |].
      rewrite length_app. simpl length. rewrite length_app.
      destruct post; [contradiction |]. simpl length. lia. }
    assert (pre ++ c :: seg ++ post = (pre ++ [c]) ++ seg ++ post) as Es
      by (rewrite <- app_assoc; reflexivity).
    cbn [app].
    assert (Z.of_nat (length pre) + Z.of_nat (length (c :: seg))
            = Z.of_nat (length (pre ++ [c])) + Z.of_nat (length seg)) as Elen
      by (rewrite length_app; simpl; lia).
    assert (forall env0 text0,
              _input_loop (t :: env0)
                (mkDemo (Some (pre ++ c :: seg ++ post))
                   (Z.of_nat (length pre))) text0 self
              = (if c =? 0 then
                   _input_loop env0
                     (mkDemo (Some ((pre ++ [c]) ++ seg ++ post))
                        (Z.of_nat (length (pre ++ [c])))) text0
                 else
                   _update_char (cursor self) c ;;;
                   modify (fun r => with_cursor r (cursor self + 1)) ;;;
                   _input_loop env0
                     (mkDemo (Some ((pre ++ [c]) ++ seg ++ post))
                        (Z.of_nat (length (pre ++ [c])))) (text0 ++ [c])) r1)
      as Hturn.
    { intros env0 text0. rewrite input_loop_turn. unfold bind at 1. rewrite E1.
      rewrite scripted_inside
        by (rewrite length_app; simpl; lia).
      cbn [demoInput demoInputPos]. unfold bind at 1, lift.
      rewrite script_char. rewrite Epos, Es.
      destruct (c =? 0); [reflexivity |].
      destruct (Z.eqb_spec c 10); [contradiction |].
      destruct (Z.eqb_spec c 13); [contradiction |]. reflexivity. }
    rewrite Hturn. rewrite Elen, Es.
    destruct (Z.eqb_spec c 0) as [-> | Hnz].
    + assert (filter (fun c : Z => c <> 0) (0 :: seg)
              = filter (fun c : Z => c <> 0) seg) as Ef
        by (apply filter_cons_False; intros H; apply H; reflexivity).
      rewrite Ef in *.
      destruct (IH ts (pre ++ [0]) text r1 base env Hts Hpost Hseg W1
                  ltac:(lia) ltac:(lia))
        as (r & E & Wr & Sr & Cr & Hr).
      { rewrite Ch1, length_insert. exact Hbase. }
      { intros j Hj. rewrite C1 in Hj. rewrite Ch1.
        rewrite list_lookup_insert_ne by lia. apply Hagree. exact Hj. }
      exists r. split; [exact E |]. split; [exact Wr |].
      split; [eapply same_setup_trans; eassumption |].
      split; [lia |]. rewrite C1 in Hr. exact Hr.
    + assert (filter (fun c : Z => c <> 0) (c :: seg)
              = c :: filter (fun c : Z => c <> 0) seg) as Ef
        by (apply filter_cons_True; exact Hnz).
      rewrite Ef in *. simpl length in Hfit.
      destruct (update_char_run (cursor self) c r1 W1 ltac:(lia) Hc)
        as (r2 & E2 & W2 & S2 & C2 & Ch2).
      assert (chars_len r2 = chars_len self)
        as En2 by (transitivity (chars_len r1); [apply S2 | exact En1]).
      pose proof (wf_with_cursor r2 (cursor self + 1) W2) as W2'.
      destruct (IH ts (pre ++ [c]) (text ++ [c])
                  (with_cursor r2 (cursor self + 1))
                  (<[Z.to_nat (cursor self) := c]> base) env Hts Hpost Hseg W2'
                  ltac:(cbn [cursor with_cursor]; lia)
                  ltac:(cbn [cursor chars_len with_cursor]; lia))
        as (r & E & Wr & Sr & Cr & Hr).
      { cbn [chars with_cursor]. rewrite Ch2, Ch1, !length_insert. exact Hbase. }
      { cbn [chars cursor with_cursor]. intros j Hj. rewrite Ch2, Ch1.
        rewrite list_insert_insert_eq.
        destruct (Nat.eq_dec j (Z.to_nat (cursor self))) as [-> | Hne].
        - rewrite !list_lookup_insert_eq by lia. reflexivity.
        - rewrite !list_lookup_insert_ne by lia. apply Hagree. exact Hne. }
      cbn [cursor with_cursor] in Cr, Hr.
      exists r. split.
      { unfold bind at 1. rewrite E2. unfold bind at 1, modify at 1.
        rewrite E. rewrite <- (app_assoc text [c]). reflexivity. }
      split; [exact Wr |]. split.
      { eapply same_setup_trans; [exact S1 |].
        eapply same_setup_trans; [exact S2 |].
        eapply same_setup_trans; [| exact Sr]. repeat split. }
      split; [simpl length; lia |].
      intros j Hj. rewrite (Hr j Hj). f_equal.
      replace (Z.to_nat (cursor self + 1)) with (S (Z.to_nat (cursor self))) by lia.
      rewrite take_succ_insert by lia.
      rewrite drop_insert_lt by lia.
      simpl length.
      replace (Z.to_nat (cursor self)
               + S (length (filter (fun c0 : Z => c0 <> 0%Z) seg)))%nat
        with (S (Z.to_nat (cursor self))
              + length (filter (fun c0 : Z => c0 <> 0%Z) seg))%nat by lia.
      rewrite <- app_assoc. reflexivity.
Qed.

(** X23. A scripted line is typed as written.  With [demoInput] holding, from
    [demoInputPos] on, characters in [0,255] other than 10 and 13 followed by
    an end of line (10 or 13), and enough room before the end of the buffer,
    [_input] returns the non-null characters of that stretch as the text;
    they stand in the buffer from the starting cursor on, followed by a
    blank where the cursor stopped; [demoInputPos] is just past the end of
    line (wrapping to 0 at the end of the script); null characters only cost
    a turn; and the final newline is printed from there. *)
Theorem input_plays_script
    (self : Runtime) (pre seg post : list Z) (nl : Z) (env : list tick) :
  wf self -> cursor_ok self ->
  nl = 10 \/ nl = 13 ->
  Forall (fun c => 0 <= c < 256 /\ c <> 10 /\ c <> 13) seg ->
  cursor self + Z.of_nat (length (filter (fun c => c <> 0) seg))
    < chars_len self ->
  (length seg < length env)%nat ->
  let script := pre ++ seg ++ nl :: post in
  let text := filter (fun c => c <> 0) seg in
  exists r1 s',
    _input None env (mkDemo (Some script) (Z.of_nat (length pre))) self
    = Ok (Returned text
            (mkDemo (Some script)
               ((Z.of_nat (length pre) + Z.of_nat (length seg) + 1)
                mod Z.of_nat (length script))), s') /\
    cursor r1 = cursor self + Z.of_nat (length text) /\
    chars r1 = <[Z.to_nat (cursor r1) := 32]>
                 (take (Z.to_nat (cursor self)) (chars self) ++ text
                    ++ drop (Z.to_nat (cursor self) + length text) (chars self)) /\
    print [10] r1 = Ok (tt, s').
Proof.
  intros W Hcur Hnl Hseg Hfit Henv script text.
  unfold cursor_ok in Hcur. pose proof (wf_length _ W) as Hlen.
  assert (exists ts t env', env = ts ++ t :: env' /\ length ts = length seg)
    as (ts & t & env' & -> & Hts).
  { destruct (drop (length seg) env) as [| t env'] eqn:Ed.
    - apply (f_equal length) in Ed. rewrite length_drop in Ed. simpl in Ed.
      exfalso. clear - Ed Henv. lia.
    - exists (take (length seg) env), t, env'. split.
      + rewrite <- Ed. symmetry. apply take_drop.
      + rewrite length_take. lia. }
  destruct (input_script_segment (nl :: post) seg ts pre [] self (chars self)
              (t :: env') Hts ltac:(discriminate) Hseg W ltac:(lia) Hfit
              eq_refl ltac:(reflexivity))
    as (r & E & Wr & Sr & Cr & Hr).
  fold script text in E, Cr, Hr. rewrite app_nil_l in E.
  assert (chars_len r = chars_len self) as Enr by apply Sr.
  assert (0 <= cursor r < chars_len r) as Hin.
  { rewrite Enr, Cr. unfold text. lia. }
  destruct (update_char_run (cursor r) (blink t) r Wr Hin (blink_code t))
    as (r2 & E2 & W2 & S2 & C2 & Ch2).
  assert (chars_len r2 = chars_len self)
    as En2 by (transitivity (chars_len r); [apply S2 | exact Enr]).
  destruct (update_char_run (cursor r) 32 r2 W2
              ltac:(rewrite En2, <- Enr; exact Hin) ltac:(lia))
    as (r3 & E3 & W3 & S3 & C3 & Ch3).
  assert (chars_len r3 = chars_len self)
    as En3 by (transitivity (chars_len r2); [apply S3 | exact En2]).
  assert (line_width r3 = line_width self) as El3.
  { transitivity (line_width r2); [apply S3 |].
    transitivity (line_width r); [apply S2 | apply Sr]. }
  assert (Py.getitem script (Z.of_nat (length pre) + Z.of_nat (length seg))
          = Ok nl) as Hget.
  { pose proof (script_char (pre ++ seg) [] post nl) as G.
    cbn [app] in G. rewrite <- app_assoc, length_app, Nat2Z.inj_add in G.
    exact G. }
  assert (_input_loop (ts ++ t :: env')
            (mkDemo (Some script) (Z.of_nat (length pre))) [] self
          = Ok (Returned text
                  (mkDemo (Some script)
                     ((Z.of_nat (length pre) + Z.of_nat (length seg) + 1)
                      mod Z.of_nat (length script))), r3)) as Eloop.
  { rewrite E, input_loop_turn. unfold bind at 1. rewrite E2.
    rewrite scripted_inside
      by (unfold script; rewrite !length_app; simpl; lia).
    cbn [demoInput demoInputPos]. unfold bind at 1, lift. rewrite Hget.
    destruct Hnl as [-> | ->]; cbn [Z.eqb Pos.eqb orb];
      unfold bind at 1; rewrite E3; reflexivity. }
  destruct (print_keeps [10] r3 W3) as ([] & s' & Ep & _).
  { unfold cursor_ok. rewrite C3, C2, En3. lia. }
  { repeat constructor; lia. }
  { repeat constructor. lia. }
  exists r3, s'. split; [| split; [| split]].
  - unfold _input. unfold bind at 1, ret at 1. unfold bind at 1.
    rewrite Eloop. unfold bind. rewrite Ep. reflexivity.
  - rewrite C3, C2. exact Cr.
  - rewrite Ch3, Ch2, list_insert_insert_eq, C3, C2.
    apply list_eq. intros j.
    destruct (Nat.eq_dec j (Z.to_nat (cursor r))) as [-> | Hne].
    + rewrite !list_lookup_insert_eq; [reflexivity | | ].
      * rewrite !length_app, length_take, length_drop.
        rewrite Cr in Hin |- *. rewrite Enr in Hin. unfold text in *. lia.
      * pose proof (wf_length _ Wr) as Hlr. lia.
    + rewrite !list_lookup_insert_ne by lia. apply Hr. exact Hne.
  - exact Ep.
Qed.

(** ** Where the cursor codes take the cursor *)

(** Row and column of the cell in column [c] of row [r]. *)
Lemma cell_of_row_col lw lc r c :
  0 < lw -> 0 <= r < lc -> 0 <= c < lw ->
  0 <= r * lw + c < lw * lc /\
  (r * lw + c) / lw = r /\ (r * lw + c) mod lw = c.
Proof.
  intros Hlw Hr Hc. split; [nia |]. split.
  - symmetry. apply (Z.div_unique _ _ r c); lia.
  - symmetry. apply (Z.mod_unique _ _ r c); lia.
Qed.

(** X24. The cursor codes wrap inside the screen.  Codes 24 and 25 keep the
    row and move one column left or right modulo [line_width]; codes 26 and
    27 keep the column and move one row down or up modulo [line_count]; code
    28 goes to row 0, column 0 and code 29 to column 0 of the row.  The
    cursor stays inside the buffer. *)
Theorem cursor_moves_wrap (self : Runtime) (c : Z) :
  wf self -> cursor_ok self -> 24 <= c <= 29 ->
  let lw := line_width self in
  let lc := line_count self in
  let row := cursor self / lw in
  let col := cursor self mod lw in
  exists p,
    print [c] self = Ok (tt, with_cursor self p) /\
    0 <= p < chars_len self /\
    p / lw = (if c =? 26 then (row + 1) mod lc
              else if c =? 27 then (row - 1) mod lc
              else if c =? 28 then 0 else row) /\
    p mod lw = (if c =? 24 then (col - 1) mod lw
                else if c =? 25 then (col + 1) mod lw
                else if (c =? 28) || (c =? 29) then 0 else col).
Proof.
  intros W Hcur Hc lw lc row col. unfold cursor_ok in Hcur.
  pose proof (wf_width _ W) as Hlw. pose proof (wf_count _ W) as Hlc.
  pose proof (wf_len _ W) as Hn. fold lw in Hlw, Hn. fold lc in Hlc, Hn.
  rewrite Hn in Hcur |- *.
  destruct (cursor_split lw lc (cursor self) Hlw Hcur) as (Hrow & Hcol & _).
  assert (Py.int_div (cursor self) lw = row) as Erow
    by (unfold Py.int_div, row; apply Z.quot_div_nonneg; lia).
  rewrite Erow in Hrow. fold col in Hcol.
  assert ((col - 1 + lw) mod lw = (col - 1) mod lw) as Eleft
    by (rewrite <- (Z_mod_plus_full (col - 1) 1 lw); f_equal; lia).
  assert ((row - 1 + lc) mod lc = (row - 1) mod lc) as Eup
    by (rewrite <- (Z_mod_plus_full (row - 1) 1 lc); f_equal; lia).
  assert (c = 24 \/ c = 25 \/ c = 26 \/ c = 27 \/ c = 28 \/ c = 29)
    as [-> | [-> | [-> | [-> | [-> | ->]]]]] by lia;
    rewrite print_one; cbn [Z.eqb Pos.eqb orb].
  - rewrite print_char_left. fold lw col. rewrite Erow, Eleft.
    eexists. split; [reflexivity |].
    apply cell_of_row_col; [lia | lia | apply Z.mod_pos_bound; lia].
  - rewrite print_char_right. fold lw col. rewrite Erow.
    eexists. split; [reflexivity |].
    apply cell_of_row_col; [lia | lia | apply Z.mod_pos_bound; lia].
  - rewrite print_char_down. fold lw lc col. rewrite Erow.
    eexists. split; [reflexivity |].
    apply cell_of_row_col; [lia | apply Z.mod_pos_bound; lia | lia].
  - rewrite print_char_up. fold lw lc col. rewrite Erow, Eup.
    eexists. split; [reflexivity |].
    apply cell_of_row_col; [lia | apply Z.mod_pos_bound; lia | lia].
  - rewrite print_char_home. exists 0. split; [reflexivity |].
    split; [nia |]. split; [apply Z.div_0_l; lia | apply Z.mod_0_l; lia].
  - rewrite print_char_sol. fold lw. rewrite Erow.
    eexists. split; [reflexivity |].
    replace (row * lw) with (row * lw + 0) by lia.
    apply cell_of_row_col; lia.
Qed.

(** ** Text longer than the room left on the screen *)

(** X25. Plain text of any length is typed like on a teletype.  While it
    fits before the end of the buffer the cursor advances by its length and
    nothing scrolls.  Otherwise, with [m] the number of characters beyond
    the room that was left, the screen has scrolled [m / line_width + 1]
    times and the cursor is in column [m mod line_width] of the last row. *)
Theorem long_text_scrolls (text : list Z) : forall self : Runtime,
  wf self -> cursor_ok self -> Forall is_plain text ->
  exists s',
    print text self = Ok (tt, s') /\
    wf s' /\ same_setup self s' /\
    if cursor self + Z.of_nat (length text) <? chars_len self then
      cursor s' = cursor self + Z.of_nat (length text) /\
      scrolls s' = scrolls self
    else
      cursor s' = chars_len self - line_width self
                  + (cursor self + Z.of_nat (length text) - chars_len self)
                    mod line_width self /\
      Z.of_nat (scrolls s')
      = Z.of_nat (scrolls self)
        + (cursor self + Z.of_nat (length text) - chars_len self)
          / line_width self + 1.
Proof.
  induction text as [| c text IH]; intros self W Hcur Hplain.
  - exists self. split; [reflexivity |]. split; [exact W |].
    split; [apply same_setup_refl |].
    unfold cursor_ok in Hcur. simpl length.
    destruct (Z.ltb_spec (cursor self + Z.of_nat 0) (chars_len self));
      [split; [lia | reflexivity] | lia].
  - apply Forall_cons in Hplain. destruct Hplain as [Hc Hrest].
    destruct (print_char_plain_returns self c W Hcur Hc)
      as ([] & s1 & E1 & W1 & S1 & Hif).
    unfold cursor_ok in Hcur.
    pose proof (wf_width _ W) as Hlw. pose proof (wf_count _ W) as Hlc.
    pose proof (wf_len _ W) as Hn.
    assert (chars_len s1 = chars_len self /\ line_width s1 = line_width self)
      as [En El] by (split; apply S1).
    assert (cursor_ok s1) as Hcur1.
    { unfold cursor_ok. rewrite En.
      destruct (Z.leb_spec (chars_len self) (cursor self + 1));
        destruct Hif as (C1 & _); rewrite C1; nia. }
    destruct (IH s1 W1 Hcur1 Hrest) as (s' & E' & W' & S' & Hif').
    exists s'.
    split; [rewrite print_cons; unfold bind; rewrite E1; exact E' |].
    split; [exact W' |]. split; [eapply same_setup_trans; eassumption |].
    rewrite En, El in Hif'.
    set (n := Z.of_nat (length text)) in *.
    replace (Z.of_nat (length (c :: text))) with (n + 1)
      by (unfold n; simpl length; lia).
    assert (0 <= n) as Hn0 by (unfold n; lia).
    set (lw := line_width self) in *. set (N := chars_len self) in *.
    destruct (Z.leb_spec N (cursor self + 1)) as [Hend | Hmid].
    + destruct Hif as (C1 & _ & Sc1). rewrite C1 in Hif'.
      assert (cursor self = N - 1) as Ecur by lia.
      replace ((line_count self - 1) * lw) with (N - lw) in Hif' by nia.
      destruct (Z.ltb_spec (cursor self + (n + 1)) N) as [? | _]; [lia |].
      replace (cursor self + (n + 1) - N) with n by lia.
      destruct (Z.ltb_spec (N - lw + n) N) as [Hin | Hout];
        destruct Hif' as (C' & Sc').
      * rewrite Z.mod_small, Z.div_small by lia.
        split; [exact C' | rewrite Sc', Sc1; lia].
      * replace (N - lw + n - N) with (n - lw) in C', Sc' by lia.
        assert (n mod lw = (n - lw) mod lw) as Em
          by (rewrite <- (Z_mod_plus_full (n - lw) 1 lw); f_equal; lia).
        assert (n / lw = (n - lw) / lw + 1) as Ed
          by (rewrite <- (Z_div_plus_full (n - lw) 1 lw) by lia; f_equal; lia).
        rewrite Em, Ed.
        split; [exact C' | rewrite Sc', Sc1; lia].
    + destruct Hif as (C1 & _ & Sc1). rewrite C1, Sc1 in Hif'.
      replace (cursor self + 1 + n) with (cursor self + (n + 1)) in Hif' by lia.
      exact Hif'.
Qed.

(** ** Runs of [reset], and the demo that fills and clears the screen *)

Lemma reset_run_clears (ps : list (Z * Z)) : forall self : Runtime,
  wf self ->
  Forall (fun p => 0 <= fst p < line_width self * 2 /\
                   0 <= snd p < line_count self * 3) ps ->
  exists s',
    for_each ps (fun p => reset (fst p) (snd p)) self = Ok (tt, s') /\
    wf s' /\ same_setup self s' /\ cursor s' = cursor self /\
    forall x' y',
      0 <= x' < line_width self * 2 -> 0 <= y' < line_count self * 3 ->
      exists v, point x' y' self = Ok (v, self) /\
                point x' y' s' =
                  Ok (if decide ((x', y') ∈ ps) then false else v, s').
Proof.
  induction ps as [| [x y] ps IH]; intros self W Hvalid.
  - exists self. split; [reflexivity |].
    split; [exact W |]. split; [apply same_setup_refl |]. split; [reflexivity |].
    intros x' y' Hx' Hy'.
    pose proof (pixel_in_buffer self x' y' W Hx' Hy') as Hpos'.
    destruct (wf_cell self _ W Hpos') as (b' & Hb' & _).
    eexists. split; [apply (point_value self x' y' W Hx' Hy' b' Hb') |].
    destruct (decide _) as [Hin | _]; [inversion Hin |].
    apply (point_value self x' y' W Hx' Hy' b' Hb').
  - apply Forall_cons in Hvalid. destruct Hvalid as [[Hx Hy] Hrest].
    simpl in Hx, Hy.
    destruct (point_after_reset self x y x y W Hx Hy Hx Hy)
      as (s1 & _ & E1 & W1 & S1 & C1 & _ & _).
    assert (line_width s1 = line_width self /\ line_count s1 = line_count self)
      as [El Ec] by (split; apply S1).
    destruct (IH s1 W1) as (s' & E' & W' & S' & C' & Hpix).
    { rewrite El, Ec. exact Hrest. }
    exists s'. split; [simpl; unfold bind; simpl; rewrite E1; exact E' |].
    split; [exact W' |]. split; [eapply same_setup_trans; eassumption |].
    split; [congruence |].
    intros x' y' Hx' Hy'.
    destruct (point_after_reset self x y x' y' W Hx Hy Hx' Hy')
      as (s1' & v & E1' & _ & _ & _ & P0 & P1).
    assert (s1' = s1) as -> by congruence.
    destruct (Hpix x' y') as (v1 & P1' & P');
      [rewrite El; exact Hx' | rewrite Ec; exact Hy' |].
    exists v. split; [exact P0 |]. rewrite P'. f_equal. f_equal.
    assert (v1 = if decide (pixel_pos (line_width self) x' y'
                              = pixel_pos (line_width self) x y
                            /\ pixel_bit x' y' = pixel_bit x y)
                 then false else v) as -> by congruence.
    pose proof (wf_width _ W) as Hlw.
    destruct (decide ((x', y') ∈ ps)) as [Hin | Hnin].
    + destruct (decide ((x', y') ∈ (x, y) :: ps)) as [_ | Hn];
        [reflexivity | exfalso; apply Hn; right; exact Hin].
    + destruct (decide (pixel_pos _ _ _ = _ /\ _)) as [[Hp Hb] | Hne].
      * destruct (pixel_unique (line_width self) x y x' y') as [-> ->];
          try assumption; try lia.
        destruct (decide _) as [_ | Hn]; [reflexivity |].
        exfalso. apply Hn. left.
      * destruct (decide ((x', y') ∈ (x, y) :: ps)) as [Hin | _];
          [| reflexivity].
        apply elem_of_cons in Hin. destruct Hin as [Heq | Hin];
          [| contradiction].
        injection Heq as -> ->. exfalso. apply Hne. split; reflexivity.
Qed.

(** X26. A run of [reset] calls clears exactly its pixels: when all the
    coordinates are valid the whole run returns, the cursor has not moved,
    and [point] is false for every pixel of the run and has its former value
    for every other pixel of the screen. *)
Theorem reset_many_clears (ps : list (Z * Z)) : forall self : Runtime,
  wf self ->
  Forall (fun p => 0 <= fst p < line_width self * 2 /\
                   0 <= snd p < line_count self * 3) ps ->
  exists s',
    for_each ps (fun p => reset (fst p) (snd p)) self = Ok (tt, s') /\
    wf s' /\ same_setup self s' /\ cursor s' = cursor self /\
    forall x' y',
      0 <= x' < line_width self * 2 -> 0 <= y' < line_count self * 3 ->
      exists v, point x' y' self = Ok (v, self) /\
                point x' y' s' =
                  Ok (if decide ((x', y') ∈ ps) then false else v, s').
Proof. exact (reset_run_clears ps). Qed.

(** A loop over the image of a list. *)
Lemma for_each_fmap {A B} (g : A -> B) (xs : list A) (body : B -> M unit) self :
  for_each (g <$> xs) body self = for_each xs (fun x => body (g x)) self.
Proof.
  revert self. induction xs as [| x xs IH]; intros self; [reflexivity |].
  cbn [fmap list_fmap for_each]. unfold bind.
  destruct (body (g x) self) as [[[] s] | e]; [apply IH | reflexivity].
Qed.

(** Two nested loops are one loop over the pairs, in the order of the
    calls. *)
Lemma for_each_nested {A B} (ys : list B) (xs : list A)
    (f : A -> B -> M unit) self :
  for_each ys (fun y => for_each xs (fun x => f x y)) self
  = for_each (ys ≫= fun y => (fun x => (x, y)) <$> xs)
      (fun p => f (fst p) (snd p)) self.
Proof.
  revert self. induction ys as [| y ys IH]; intros self; [reflexivity |].
  cbn [mbind list_bind for_each]. rewrite for_each_app. unfold bind.
  rewrite for_each_fmap. cbn [fst snd].
  destruct (for_each xs (fun x => f x y) self) as [[[] s] | e];
    [apply IH | reflexivity].
Qed.

Lemma elem_of_grid (lox hix loy hiy x y : Z) :
  (x, y) ∈ (Py.range loy hiy ≫= fun y => (fun x => (x, y)) <$> Py.range lox hix)
  <-> lox <= x < hix /\ loy <= y < hiy.
Proof.
  unfold Py.range. rewrite list_elem_of_bind. split.
  - intros (y0 & Hin & Hy0). apply list_elem_of_fmap in Hin.
    destruct Hin as (x0 & Heq & Hx0). injection Heq as -> ->.
    apply elem_of_seqZ in Hx0, Hy0. lia.
  - intros [Hx Hy]. exists y. split.
    + apply list_elem_of_fmap. exists x. split; [reflexivity |].
      apply elem_of_seqZ. lia.
    + apply elem_of_seqZ. lia.
Qed.

Lemma set_beyond_width self x y :
  line_width self * 2 <= x -> set x y self = Raise AssertionError.
Proof.
  intros Hx. unfold set. rewrite !bind_get. unfold bind at 1, assert at 1.
  replace (x <? line_width self * 2) with false by (symmetry; apply Z.ltb_ge; lia).
  rewrite andb_false_r. reflexivity.
Qed.

(** X27. [demo_2] on the 128 by 48 pixels of a 64 by 16 screen returns with
    every pixel off, whatever was on the screen before, and with the cursor
    where it was.  On a narrower screen (mode 32) it raises
    [AssertionError]: the loops are written for 128 columns of pixels. *)
Theorem demo_2_fills_then_clears (self : Runtime) :
  wf self ->
  (line_width self = 64 -> line_count self = 16 ->
   exists s',
     demo_2 self = Ok (tt, s') /\
     wf s' /\ same_setup self s' /\ cursor s' = cursor self /\
     forall x y, 0 <= x < 128 -> 0 <= y < 48 ->
                 point x y s' = Ok (false, s')) /\
  (line_width self < 64 -> demo_2 self = Raise AssertionError).
Proof.
  intros W. split.
  - intros Hlw Hlc.
    set (ps := Py.range 0 48 ≫= fun y => (fun x => (x, y)) <$> Py.range 0 128).
    assert (forall r, line_width r = 64 -> line_count r = 16 ->
              Forall (fun p => 0 <= fst p < line_width r * 2 /\
                               0 <= snd p < line_count r * 3) ps) as Hvalid.
    { intros r -> ->. apply Forall_forall. intros [x y] Hin.
      apply elem_of_grid in Hin. simpl. lia. }
    destruct (set_run_paints ps self W (Hvalid self Hlw Hlc))
      as (s1 & E1 & W1 & S1 & C1 & _).
    assert (line_width s1 = 64 /\ line_count s1 = 16) as [Hlw1 Hlc1].
    { destruct S1 as (-> & -> & _). split; assumption. }
    destruct (reset_run_clears ps s1 W1 (Hvalid s1 Hlw1 Hlc1))
      as (s2 & E2 & W2 & S2 & C2 & Hpix).
    exists s2. split.
    { unfold demo_2, bind. rewrite for_each_nested. fold ps. rewrite E1.
      rewrite for_each_nested. exact E2. }
    split; [exact W2 |]. split; [eapply same_setup_trans; eassumption |].
    split; [congruence |].
    intros x y Hx Hy.
    destruct (Hpix x y ltac:(lia) ltac:(lia)) as (v & _ & P).
    rewrite P. destruct (decide _) as [_ | Hn]; [reflexivity |].
    exfalso. apply Hn. apply elem_of_grid. lia.
  - intros Hlw. pose proof (wf_width _ W) as Hpos.
    pose proof (wf_count _ W) as Hlc.
    set (k := line_width self * 2). unfold demo_2.
    assert (Py.range 0 48 = 0 :: Py.range 1 48) as -> by reflexivity.
    assert (Py.range 0 128 = Py.range 0 k ++ k :: Py.range (k + 1) 128) as Ex.
    { unfold Py.range.
      replace (128 - 0) with ((k - 0) + (128 - k)) by lia.
      rewrite seqZ_app by lia. f_equal.
      rewrite seqZ_cons by lia. f_equal; [lia |]. f_equal; lia. }
    unfold bind at 1. cbn [for_each]. unfold bind at 1.
    rewrite Ex, for_each_app. unfold bind at 1.
    rewrite <- (for_each_fmap (fun x => (x, 0)) (Py.range 0 k)
                  (fun p => set (fst p) (snd p))).
    destruct (set_run_paints ((fun x => (x, 0)) <$> Py.range 0 k) self W)
      as (s1 & E1 & W1 & S1 & _).
    { apply Forall_fmap, Forall_forall. intros x Hin.
      apply elem_of_seqZ in Hin. simpl. fold k. lia. }
    rewrite E1. cbn [for_each]. unfold bind at 1.
    rewrite set_beyond_width; [reflexivity |].
    destruct S1 as (-> & _). fold k. lia.
Qed.

(** ** The demo that draws radial lines *)

Lemma painted_within_trans B a b c :
  painted_within B a b -> painted_within B b c -> painted_within B a c.
Proof.
  intros (Wb & Sab & Cab & Hab) (Wc & Sbc & Cbc & Hbc).
  assert (line_width b = line_width a /\ line_count b = line_count a)
    as [El Ec] by (split; apply Sab).
  split; [exact Wc |]. split; [eapply same_setup_trans; eassumption |].
  split; [congruence |].
  intros x y Hx Hy.
  destruct (Hab x y Hx Hy) as (v & v' & Pa & Pb & Hmono & Hout).
  destruct (Hbc x y) as (w & w' & Pb' & Pc & Hmono' & Hout');
    [rewrite El; exact Hx | rewrite Ec; exact Hy |].
  assert (w = v') as -> by congruence.
  exists v, w'. split; [exact Pa |]. split; [exact Pc |]. split.
  - intros H. apply Hmono', Hmono, H.
  - intros H. rewrite (Hout' H). apply Hout, H.
Qed.

Lemma painted_within_weaken (B B' : Z -> Z -> Prop) a b :
  (forall x y, B x y -> B' x y) ->
  painted_within B a b -> painted_within B' a b.
Proof.
  intros Hsub (Wb & Sab & Cab & Hab).
  split; [exact Wb |]. split; [exact Sab |]. split; [exact Cab |].
  intros x y Hx Hy.
  destruct (Hab x y Hx Hy) as (v & v' & Pa & Pb & Hmono & Hout).
  exists v, v'. split; [exact Pa |]. split; [exact Pb |].
  split; [exact Hmono |]. intros H. apply Hout. intros HB. apply H, Hsub, HB.
Qed.

(** Lines from one pixel to the pixels [(fx i, fy i)], one after the
    other. *)
Lemma rays_painted (cx cy : Z) (fx fy : Z -> Z) self (idx : list Z) :
  0 <= cx < line_width self * 2 -> 0 <= cy < line_count self * 3 ->
  Forall (fun i => 0 <= fx i < line_width self * 2 /\
                   0 <= fy i < line_count self * 3) idx ->
  forall r,
    painted_within (fun _ _ => True) self r ->
    returns (for_each idx (fun i => line cx cy (fx i) (fy i))) r
      (fun _ r' =>
         painted_within (fun _ _ => True) self r' /\
         (forall i, i ∈ idx -> point (fx i) (fy i) r' = Ok (true, r')) /\
         (idx <> [] -> point cx cy r' = Ok (true, r')) /\
         (forall x y,
            0 <= x < line_width self * 2 -> 0 <= y < line_count self * 3 ->
            point x y r = Ok (true, r) -> point x y r' = Ok (true, r'))).
Proof.
  intros Hcx Hcy Hends.
  induction idx as [| i idx IH]; intros r Hp.
  - exists tt, r. split; [reflexivity |]. split; [exact Hp |].
    split; [intros i Hi; inversion Hi |]. split; [congruence | auto].
  - apply Forall_cons in Hends. destruct Hends as [[Hx Hy] Hrest].
    pose proof Hp as (Wr & Sr & _).
    assert (line_width r = line_width self /\ line_count r = line_count self)
      as [El Ec] by (split; apply Sr).
    destruct (line_paints r cx cy (fx i) (fy i) Wr) as ([] & r1 & E1 & W1 & C1 & P1 & P2 & Hp1);
      try (rewrite El; assumption); try (rewrite Ec; assumption).
    assert (forall x y,
              0 <= x < line_width self * 2 -> 0 <= y < line_count self * 3 ->
              point x y r = Ok (true, r) -> point x y r1 = Ok (true, r1))
      as Hmono1.
    { intros x y Hx' Hy' Hlit. destruct Hp1 as (_ & _ & _ & Hpix).
      destruct (Hpix x y) as (v & v' & Pa & Pb & Hm & _);
        [rewrite El; exact Hx' | rewrite Ec; exact Hy' |].
      assert (v = true) as Hv by congruence.
      rewrite Pb, (Hm Hv). reflexivity. }
    assert (painted_within (fun _ _ => True) self r1) as Hp1'.
    { apply (painted_within_trans _ self r r1 Hp).
      apply (painted_within_weaken _ _ r r1 (fun _ _ _ => I) Hp1). }
    destruct (IH Hrest r1 Hp1') as ([] & r' & E' & Hp' & Hlit & _ & Hmono).
    exists tt, r'. split.
    { cbn [for_each]. unfold bind. rewrite E1. exact E'. }
    split; [exact Hp' |]. split; [| split].
    + intros j Hj. apply elem_of_cons in Hj. destruct Hj as [-> | Hj].
      * apply Hmono; assumption.
      * apply Hlit, Hj.
    + intros _. apply Hmono; assumption.
    + intros x y Hx' Hy' H. apply Hmono; [assumption | assumption |].
      apply Hmono1; assumption.
Qed.

(** X28. [demo_4] on a 64 by 16 screen returns: every line stays on the
    screen.  Afterwards the middle pixel (64,24) is lit, and so is the far
    end of every ray: every 8th pixel of the top and bottom rows and every
    4th pixel of the left and right columns, the four corners among them.
    No pixel that was lit is turned off, and the cursor has not moved. *)
Theorem demo_4_draws_rays (self : Runtime) :
  wf self -> line_width self = 64 -> line_count self = 16 ->
  exists s',
    demo_4 self = Ok (tt, s') /\
    wf s' /\ cursor s' = cursor self /\
    point 64 24 s' = Ok (true, s') /\
    (forall k, 0 <= k < 16 ->
       point (8 * k) 0 s' = Ok (true, s') /\
       point (127 - 8 * k) 47 s' = Ok (true, s')) /\
    (forall k, 0 <= k < 12 ->
       point 127 (4 * k) s' = Ok (true, s') /\
       point 0 (47 - 4 * k) s' = Ok (true, s')) /\
    (forall x y, 0 <= x < 128 -> 0 <= y < 48 ->
       point x y self = Ok (true, self) -> point x y s' = Ok (true, s')).
Proof.
  intros W Hlw Hlc.
  assert (forall (fx fy : Z -> Z) n,
            (forall i, 0 <= i < n -> 0 <= fx i < 128 /\ 0 <= fy i < 48) ->
            Forall (fun i => 0 <= fx i < line_width self * 2 /\
                             0 <= fy i < line_count self * 3) (seqZ 0 n))
    as Hvalid.
  { intros fx fy n H. rewrite Hlw, Hlc. apply Forall_forall. intros i Hi.
    apply elem_of_seqZ in Hi. apply H. lia. }
  assert (0 <= 64 < line_width self * 2) as Hcx by (rewrite Hlw; lia).
  assert (0 <= 24 < line_count self * 3) as Hcy by (rewrite Hlc; lia).
  pose proof (fun fx fy idx => rays_painted 64 24 fx fy self idx Hcx Hcy) as R.
  destruct (R (fun i => 0 + i * 8) (fun _ => 0) (seqZ 0 16)
              (Hvalid (fun i => 0 + i * 8) (fun _ => 0) 16
                 ltac:(intros; cbv beta; lia))
              self (painted_within_refl _ self W))
    as ([] & r1 & E1 & Hp1 & Hlit1 & Hc1 & Hm1).
  destruct (R (fun _ => 127) (fun i => 0 + i * 4) (seqZ 0 12)
              (Hvalid (fun _ => 127) (fun i => 0 + i * 4) 12
                 ltac:(intros; cbv beta; lia)) r1 Hp1)
    as ([] & r2 & E2 & Hp2 & Hlit2 & _ & Hm2).
  destruct (R (fun i => 127 + i * -8) (fun _ => 47) (seqZ 0 16)
              (Hvalid (fun i => 127 + i * -8) (fun _ => 47) 16
                 ltac:(intros; cbv beta; lia)) r2 Hp2)
    as ([] & r3 & E3 & Hp3 & Hlit3 & _ & Hm3).
  destruct (R (fun _ => 0) (fun i => 47 + i * -4) (seqZ 0 12)
              (Hvalid (fun _ => 0) (fun i => 47 + i * -4) 12
                 ltac:(intros; cbv beta; lia)) r3 Hp3)
    as ([] & r4 & E4 & Hp4 & Hlit4 & _ & Hm4).
  cbv beta in E1, E2, E3, E4.
  assert (forall x y, 0 <= x < 128 -> 0 <= y < 48 ->
            point x y r1 = Ok (true, r1) -> point x y r4 = Ok (true, r4))
    as Hm14.
  { intros x y Hx Hy H. rewrite Hlw, Hlc in Hm2, Hm3, Hm4.
    apply Hm4, Hm3, Hm2; try lia. exact H. }
  rewrite Hlw, Hlc in Hm1, Hm2, Hm3, Hm4.
  exists r4. split.
  { unfold demo_4, bind, lift.
    change (Py.range_step 0 128 8)
      with (Ok ((fun i => 0 + i * 8) <$> seqZ 0 16)).
    change (Py.range_step 0 48 4)
      with (Ok ((fun i => 0 + i * 4) <$> seqZ 0 12)).
    change (Py.range_step 127 (-1) (-8))
      with (Ok ((fun i => 127 + i * -8) <$> seqZ 0 16)).
    change (Py.range_step 47 (-1) (-4))
      with (Ok ((fun i => 47 + i * -4) <$> seqZ 0 12)).
    cbv beta iota.
    rewrite for_each_fmap, E1, for_each_fmap, E2, for_each_fmap, E3,
      for_each_fmap, E4.
    reflexivity. }
  split; [apply Hp4 |]. split; [apply Hp4 |].
  split; [apply Hm14; [lia | lia |]; apply Hc1; discriminate |].
  split; [| split].
  - intros k Hk. split.
    + apply Hm14; [lia | lia |].
      replace (8 * k) with (0 + k * 8) by lia.
      apply (Hlit1 k). apply elem_of_seqZ. lia.
    + apply Hm4; [lia | lia |].
      replace (127 - 8 * k) with (127 + k * -8) by lia.
      apply (Hlit3 k). apply elem_of_seqZ. lia.
  - intros k Hk. split.
    + apply Hm4, Hm3; try lia.
      replace (4 * k) with (0 + k * 4) by lia.
      apply (Hlit2 k). apply elem_of_seqZ. lia.
    + replace (47 - 4 * k) with (47 + k * -4) by lia.
      apply (Hlit4 k). apply elem_of_seqZ. lia.
  - intros x y Hx Hy H. apply Hm14; [lia | lia |]. apply Hm1; [lia | lia |].
    exact H.
Qed.

(** ** The further properties at concrete inputs *)

Lemma cursor_ok_mode64 : cursor_ok mode64.
Proof. unfold cursor_ok. simpl. lia. Qed.

Lemma wf_mode64_at p : wf (with_cursor mode64 p).
Proof. apply wf_with_cursor. exact wf_mode64. Qed.

Lemma left_right_cancel_witness :
  wf mode64 /\ cursor_ok mode64 /\
  print [24; 25] mode64 = Ok (tt, mode64) /\
  print [25; 24] mode64 = Ok (tt, mode64).
Proof.
  split; [exact wf_mode64 |]. split; [exact cursor_ok_mode64 |].
  exact (left_right_cancel mode64 wf_mode64 cursor_ok_mode64).
Defined.

Lemma down_up_cancel_witness :
  wf (with_cursor mode64 1000) /\ cursor_ok (with_cursor mode64 1000) /\
  print [26; 27] (with_cursor mode64 1000) = Ok (tt, with_cursor mode64 1000) /\
  print [27; 26] (with_cursor mode64 1000) = Ok (tt, with_cursor mode64 1000).
Proof.
  assert (cursor_ok (with_cursor mode64 1000)) as Hc
    by (unfold cursor_ok; simpl; lia).
  split; [exact (wf_mode64_at 1000) |]. split; [exact Hc |].
  exact (down_up_cancel (with_cursor mode64 1000) (wf_mode64_at 1000) Hc).
Defined.

Lemma cursor_codes_only_move_witness :
  wf (with_cursor mode64 1024) /\
  - 2 ^ 53 < cursor (with_cursor mode64 1024) < 2 ^ 53 /\
  (24 <= 200 <= 29 \/ 191 <= 200 <= 255) /\
  exists p, print [200] (with_cursor mode64 1024)
            = Ok (tt, with_cursor (with_cursor mode64 1024) p).
Proof.
  assert (- 2 ^ 53 < cursor (with_cursor mode64 1024) < 2 ^ 53) as Hcur
    by (simpl; lia).
  assert (24 <= 200 <= 29 \/ 191 <= 200 <= 255) as H by (right; lia).
  split; [exact (wf_mode64_at 1024) |]. split; [exact Hcur |].
  split; [exact H |].
  exact (cursor_codes_only_move (with_cursor mode64 1024) 200
           (wf_mode64_at 1024) Hcur H).
Defined.

Lemma backspace_blanks_previous_cell_witness :
  wf mode64 /\ cursor_ok mode64 /\
  exists s',
    print [8] mode64 = Ok (tt, s') /\
    cursor s' = 1023 /\
    chars s' = <[Z.to_nat (cursor s') := 32]> (chars mode64) /\
    scrolls s' = scrolls mode64.
Proof.
  split; [exact wf_mode64 |]. split; [exact cursor_ok_mode64 |].
  exact (backspace_blanks_previous_cell mode64 wf_mode64 cursor_ok_mode64).
Defined.

Lemma newline_blanks_and_advances_witness :
  wf (with_cursor mode64 1000) /\ cursor_ok (with_cursor mode64 1000) /\
  (13 = 10 \/ 13 = 13) /\
  exists s',
    print [13] (with_cursor mode64 1000) = Ok (tt, s') /\
    cursor s' = 960 /\ scrolls s' = 1%nat.
Proof.
  assert (cursor_ok (with_cursor mode64 1000)) as Hc
    by (unfold cursor_ok; simpl; lia).
  split; [exact (wf_mode64_at 1000) |]. split; [exact Hc |].
  split; [right; reflexivity |].
  destruct (newline_blanks_and_advances (with_cursor mode64 1000) 13
              (wf_mode64_at 1000) Hc (or_intror eq_refl))
    as (s' & E & Hcur & _ & Hs).
  exists s'. split; [exact E |]. split; [exact Hcur | exact Hs].
Defined.

Lemma clear_to_end_witness :
  wf (with_cursor mode64 70) /\ cursor_ok (with_cursor mode64 70) /\
  (exists s',
     print [30] (with_cursor mode64 70) = Ok (tt, s') /\ cursor s' = 70) /\
  (exists s',
     print [31] (with_cursor mode64 70) = Ok (tt, s') /\ cursor s' = 70).
Proof.
  assert (cursor_ok (with_cursor mode64 70)) as Hc
    by (unfold cursor_ok; simpl; lia).
  split; [exact (wf_mode64_at 70) |]. split; [exact Hc |].
  destruct (clear_to_end (with_cursor mode64 70) (wf_mode64_at 70) Hc)
    as ((s1 & E1 & C1 & _) & (s2 & E2 & C2 & _)).
  split; [exists s1 | exists s2]; split; assumption.
Defined.

Lemma print_rejects_wide_code_witness :
  256 <= 300 /\
  (exists s1, print [72] small = Ok (tt, s1)) /\
  print ([72] ++ 300 :: [73]) small = Raise AssertionError.
Proof.
  assert (exists s1, print [72] small = Ok (tt, s1)) as [s1 E]
    by (eexists; vm_compute; reflexivity).
  split; [lia |]. split; [exists s1; exact E |].
  exact (print_rejects_wide_code small s1 [72] [73] 300 ltac:(lia) E).
Defined.

Lemma print_then_peek_witness :
  wf mode64 /\ cursor_ok mode64 /\
  Forall is_plain [72; 69; 76; 76; 79] /\
  cursor mode64 + Z.of_nat (length [72; 69; 76; 76; 79]) < chars_len mode64 /\
  exists s',
    print [72; 69; 76; 76; 79] mode64 = Ok (tt, s') /\
    cursor s' = 5 /\
    peek (15360 + 1) s' = Ok (69, s') /\
    peek (15360 + 5) s' = Ok (32, s').
Proof.
  assert (Forall is_plain [72; 69; 76; 76; 79]) as Hp
    by (repeat (apply Forall_cons_2; [unfold is_plain; lia |]); apply Forall_nil_2).
  assert (cursor mode64 + Z.of_nat (length [72; 69; 76; 76; 79])
          < chars_len mode64) as Hfit by (simpl; lia).
  split; [exact wf_mode64 |]. split; [exact cursor_ok_mode64 |].
  split; [exact Hp |]. split; [exact Hfit |].
  destruct (print_then_peek mode64 [72; 69; 76; 76; 79]
              wf_mode64 cursor_ok_mode64 Hp Hfit)
    as (s' & E & C & Hin & Hout).
  exists s'. split; [exact E |]. split; [exact C |].
  split; [exact (Hin 1%nat 69 eq_refl) |].
  destruct (Hout 5 ltac:(simpl; lia) ltac:(simpl; lia)) as (v & Hv & Hv').
  assert (v = 32) as -> by (vm_compute in Hv; congruence).
  exact Hv'.
Defined.

Lemma cursor_stays_in_buffer_witness :
  wf mode64 /\ cursor_ok mode64 /\
  Forall (precondition mode64)
    [Cls; Print [72; 13; 200]; PrintAt 1023 [65; 66]; Poke 15360 255;
     SetPixel 127 47; ResetPixel 0 0] /\
  Forall (tabs_fit mode64)
    [Cls; Print [72; 13; 200]; PrintAt 1023 [65; 66]; Poke 15360 255;
     SetPixel 127 47; ResetPixel 0 0] /\
  exists s',
    for_each [Cls; Print [72; 13; 200]; PrintAt 1023 [65; 66]; Poke 15360 255;
              SetPixel 127 47; ResetPixel 0 0] perform mode64 = Ok (tt, s') /\
    wf s' /\ same_setup mode64 s' /\ 0 <= cursor s' < chars_len s'.
Proof.
  assert (Forall (precondition mode64)
            [Cls; Print [72; 13; 200]; PrintAt 1023 [65; 66]; Poke 15360 255;
             SetPixel 127 47; ResetPixel 0 0]) as Hpre.
  { repeat (apply Forall_cons_2;
            [cbn [precondition]; unfold cell_codes;
             repeat split;
             try (repeat (apply Forall_cons_2; [lia |]); apply Forall_nil_2);
             try (simpl; lia) |]).
    apply Forall_nil_2. }
  assert (Forall (tabs_fit mode64)
            [Cls; Print [72; 13; 200]; PrintAt 1023 [65; 66]; Poke 15360 255;
             SetPixel 127 47; ResetPixel 0 0]) as Htab.
  { repeat (apply Forall_cons_2;
            [cbn [tabs_fit]; unfold tabs_in_row;
             try exact I;
             try (repeat (apply Forall_cons_2; [simpl; lia |]); apply Forall_nil_2)
            |]).
    apply Forall_nil_2. }
  split; [exact wf_mode64 |]. split; [exact cursor_ok_mode64 |].
  split; [exact Hpre |]. split; [exact Htab |].
  exact (cursor_stays_in_buffer mode64 _ wf_mode64 cursor_ok_mode64 Hpre Htab).
Defined.

Lemma tab_inside_row_witness :
  wf (with_cursor mode32 40) /\ cursor_ok (with_cursor mode32 40) /\
  191 <= 211 <= 255 /\ 211 - 191 < line_width (with_cursor mode32 40) /\
  exists s',
    print [211] (with_cursor mode32 40) = Ok (tt, s') /\
    chars s' = chars mode32 /\
    cursor s' / 32 = 1 /\ cursor s' mod 32 = 20.
Proof.
  assert (wf (with_cursor mode32 40)) as W
    by (apply wf_with_cursor; exact wf_mode32).
  assert (cursor_ok (with_cursor mode32 40)) as Hc
    by (unfold cursor_ok; simpl; lia).
  assert (211 - 191 < line_width (with_cursor mode32 40)) as Hcol
    by (simpl; lia).
  split; [exact W |]. split; [exact Hc |]. split; [lia |].
  split; [exact Hcol |].
  exact (tab_inside_row (with_cursor mode32 40) 211 W Hc ltac:(lia) Hcol).
Defined.

Lemma bad_arguments_raise_witness :
  print_at 1024 [65] mode64 = Raise AssertionError /\
  set 128 0 mode64 = Raise AssertionError /\
  reset 0 48 mode64 = Raise AssertionError /\
  point (-1) 0 mode64 = Raise AssertionError /\
  tab 64 mode64 = Raise AssertionError.
Proof.
  destruct (bad_arguments_raise mode64) as (Hat & Hpix & Htab).
  split; [apply Hat; simpl; lia |].
  split; [apply (Hpix 128 0); simpl; lia |].
  split; [apply (Hpix 0 48); simpl; lia |].
  split; [apply (Hpix (-1) 0); simpl; lia |].
  apply Htab. lia.
Defined.

Lemma cls_blanks_everything_witness :
  wf (with_cursor mode64 5000) /\
  exists s',
    cls (with_cursor mode64 5000) = Ok (tt, s') /\
    chars s' = replicate 1024 32 /\
    cursor s' = 0 /\
    wf s' /\ cursor_ok s' /\ same_setup (with_cursor mode64 5000) s' /\
    redraws s' = redraws (with_cursor mode64 5000).
Proof.
  split; [exact (wf_mode64_at 5000) |].
  exact (cls_blanks_everything (with_cursor mode64 5000) (wf_mode64_at 5000)).
Defined.

Lemma init_builds_blank_screen_witness :
  (forall name c, 0 <= c < 256 ->
     exists g, demo_font name (0xE000 + c) = Some g /\
               0 <= dx g < 4 /\ 0 <= - 5 + 12 - height g - dy g < 12) /\
  (exists r, __init__ demo_font 32 = Ok r /\
     wf r /\ cursor_ok r /\ cursor r = 0 /\
     line_width r = 32 /\ line_count r = 16 /\
     chars r = replicate (Z.to_nat (32 * 16)) 32) /\
  __init__ demo_font 40 = Raise ValueError.
Proof.
  pose proof (demo_font_fits 4 12 ltac:(lia) ltac:(lia)) as Hfont.
  split; [exact Hfont |].
  split.
  - apply (proj1 (init_builds_blank_screen demo_font 32 Hfont)).
    right. reflexivity.
  - apply (proj2 (init_builds_blank_screen demo_font 40 Hfont)); lia.
Defined.

Lemma set_reset_idempotent_witness :
  wf mode64 /\
  0 <= 5 < line_width mode64 * 2 /\ 0 <= 7 < line_count mode64 * 3 /\
  (exists s', set 5 7 mode64 = Ok (tt, s') /\ set 5 7 s' = Ok (tt, s')) /\
  (exists s', reset 5 7 mode64 = Ok (tt, s') /\ reset 5 7 s' = Ok (tt, s')).
Proof.
  split; [exact wf_mode64 |].
  split; [simpl; lia |]. split; [simpl; lia |].
  apply (set_reset_idempotent mode64 5 7 wf_mode64); simpl; lia.
Defined.

Lemma set_reset_touch_one_pixel_witness :
  wf mode64 /\
  0 <= 5 < line_width mode64 * 2 /\ 0 <= 7 < line_count mode64 * 3 /\
  0 <= 4 < line_width mode64 * 2 /\ 0 <= 8 < line_count mode64 * 3 /\
  (4, 8) <> (5, 7) /\
  exists v,
    point 4 8 mode64 = Ok (v, mode64) /\
    (exists s', set 5 7 mode64 = Ok (tt, s') /\ cursor s' = cursor mode64 /\
                point 4 8 s' = Ok (v, s')) /\
    (exists s', reset 5 7 mode64 = Ok (tt, s') /\ cursor s' = cursor mode64 /\
                point 4 8 s' = Ok (v, s')).
Proof.
  assert ((4, 8) <> (5, 7)) as Hne by (intros H; discriminate H).
  split; [exact wf_mode64 |].
  split; [simpl; lia |]. split; [simpl; lia |].
  split; [simpl; lia |]. split; [simpl; lia |].
  split; [exact Hne |].
  apply (set_reset_touch_one_pixel mode64 5 7 4 8 wf_mode64);
    try (simpl; lia). exact Hne.
Defined.

Lemma poke_then_point_witness :
  wf mode64 /\
  0 <= 5 < line_width mode64 * 2 /\ 0 <= 7 < line_count mode64 * 3 /\
  0 <= 136 < 256 /\
  exists s',
    poke (15360 + 130) 136 mode64 = Ok (tt, s') /\
    point 5 7 s' = Ok (true, s').
Proof.
  split; [exact wf_mode64 |].
  split; [simpl; lia |]. split; [simpl; lia |]. split; [lia |].
  exact (poke_then_point mode64 5 7 136 wf_mode64
           ltac:(simpl; lia) ltac:(simpl; lia) ltac:(lia)).
Defined.

Lemma set_many_paints_witness :
  wf mode64 /\
  Forall (fun p => 0 <= fst p < line_width mode64 * 2 /\
                   0 <= snd p < line_count mode64 * 3)
    [(0, 0); (1, 0); (127, 47)] /\
  exists s',
    for_each [(0, 0); (1, 0); (127, 47)] (fun p => set (fst p) (snd p)) mode64
    = Ok (tt, s') /\
    cursor s' = cursor mode64 /\
    point 1 0 s' = Ok (true, s') /\
    point 2 0 s' = Ok (false, s').
Proof.
  assert (Forall (fun p => 0 <= fst p < line_width mode64 * 2 /\
                           0 <= snd p < line_count mode64 * 3)
            [(0, 0); (1, 0); (127, 47)]) as Hps
    by (repeat (apply Forall_cons_2; [simpl; lia |]); apply Forall_nil_2).
  split; [exact wf_mode64 |]. split; [exact Hps |].
  destruct (set_many_paints [(0, 0); (1, 0); (127, 47)] mode64 wf_mode64 Hps)
    as (s' & E & _ & _ & C & Hpt).
  exists s'. split; [exact E |]. split; [exact C |]. split.
  - destruct (Hpt 1 0 ltac:(simpl; lia) ltac:(simpl; lia)) as (v & _ & H).
    exact H.
  - destruct (Hpt 2 0 ltac:(simpl; lia) ltac:(simpl; lia)) as (v & Hv & H).
    assert (v = false) as -> by (vm_compute in Hv; congruence).
    exact H.
Defined.

Lemma line_joins_end_points_witness :
  wf mode64 /\
  0 <= 100 < line_width mode64 * 2 /\ 0 <= 40 < line_count mode64 * 3 /\
  0 <= 3 < line_width mode64 * 2 /\ 0 <= 5 < line_count mode64 * 3 /\
  exists s',
    line 100 40 3 5 mode64 = Ok (tt, s') /\
    wf s' /\ cursor s' = cursor mode64 /\
    point 100 40 s' = Ok (true, s') /\
    point 3 5 s' = Ok (true, s') /\
    point 101 40 s' = Ok (false, s').
Proof.
  split; [exact wf_mode64 |].
  split; [simpl; lia |]. split; [simpl; lia |].
  split; [simpl; lia |]. split; [simpl; lia |].
  destruct (line_joins_end_points mode64 100 40 3 5 wf_mode64
              ltac:(simpl; lia) ltac:(simpl; lia)
              ltac:(simpl; lia) ltac:(simpl; lia))
    as (s' & E & W & C & P1 & P2 & Hpt).
  exists s'. split; [exact E |]. split; [exact W |]. split; [exact C |].
  split; [exact P1 |]. split; [exact P2 |].
  destruct (Hpt 101 40 ltac:(simpl; lia) ltac:(simpl; lia))
    as (v & v' & Hv & Hv' & _ & Hout).
  assert (v = false) as Ev by (vm_compute in Hv; congruence).
  rewrite (Hout ltac:(lia)), Ev in Hv'. exact Hv'.
Defined.

Lemma input_overflows_at_end_witness :
  wf (with_cursor mode64 1023) /\
  cursor (with_cursor mode64 1023) = chars_len (with_cursor mode64 1023) - 1 /\
  scripted (mkDemo None 0) = false /\
  0 <= 65 < 256 /\ 65 <> 8 /\ 65 <> 127 /\ 65 <> 10 /\ 65 <> 13 /\
  exists r,
    _input_loop [mkTick 0 (Some 65)] (mkDemo None 0) [72]
      (with_cursor mode64 1023)
    = Ok (Waiting [72; 65] (mkDemo None 0), r) /\
    cursor r = 1024 /\
    chars r = <[1023%nat := 65]> (chars mode64) /\
    scrolls r = scrolls mode64 /\
    _input_loop [mkTick 200 None] (mkDemo None 0) [72; 65] r
    = Raise IndexError /\
    _input None [mkTick 0 (Some 65); mkTick 200 None] (mkDemo None 0)
      (with_cursor mode64 1023) = Raise IndexError.
Proof.
  split; [exact (wf_mode64_at 1023) |]. split; [reflexivity |].
  split; [reflexivity |]. split; [lia |].
  split; [lia |]. split; [lia |]. split; [lia |]. split; [lia |].
  destruct (input_overflows_at_end (with_cursor mode64 1023) (mkDemo None 0)
              65 0 (wf_mode64_at 1023) eq_refl eq_refl
              ltac:(lia) ltac:(lia) ltac:(lia) ltac:(lia) ltac:(lia))
    as (r & Hturn & Hcur & Hchars & Hscr & Hnext & Hall).
  exists r. split; [exact (Hturn [72]) |]. split; [exact Hcur |].
  split; [exact Hchars |]. split; [exact Hscr |].
  split; [apply Hnext | apply Hall].
Defined.

Lemma input_cursor_follows_text_witness :
  wf mode64 /\ Z.of_nat (length (A := Z) []) <= cursor mode64 /\
  exists res r,
    _input_loop [mkTick 0 (Some 72); mkTick 0 (Some 73); mkTick 300 (Some 8);
                 mkTick 0 None]
      (mkDemo None 0) [] mode64 = Ok (res, r) /\
    typed res = [72] /\
    wf r /\ same_setup mode64 r /\
    cursor r - Z.of_nat (length (typed res)) = 0.
Proof.
  assert (exists res r,
            _input_loop [mkTick 0 (Some 72); mkTick 0 (Some 73);
                         mkTick 300 (Some 8); mkTick 0 None]
              (mkDemo None 0) [] mode64 = Ok (res, r) /\
            typed res = [72]) as (res & r & E & Ht)
    by (eexists; eexists; split; vm_compute; reflexivity).
  split; [exact wf_mode64 |]. split; [simpl; lia |].
  exists res, r. split; [exact E |]. split; [exact Ht |].
  exact (input_cursor_follows_text _ (mkDemo None 0) [] mode64 res r
           wf_mode64 ltac:(simpl; lia) E).
Defined.

Lemma input_rub_out_witness :
  wf mode64 /\ 0 <= cursor mode64 /\ cursor mode64 + 1 < chars_len mode64 /\
  scripted (mkDemo None 0) = false /\
  0 <= 65 < 256 /\ 65 <> 8 /\ 65 <> 127 /\ 65 <> 10 /\ 65 <> 13 /\
  (127 = 8 \/ 127 = 127) /\
  exists r,
    wf r /\ cursor r = cursor mode64 /\
    chars r = <[Z.to_nat (cursor mode64) := 32]>
                (<[Z.to_nat (cursor mode64 + 1) := 32]> (chars mode64)) /\
    forall env text,
      _input_loop (mkTick 0 (Some 65) :: mkTick 300 (Some 127) :: env)
        (mkDemo None 0) text mode64
      = _input_loop env (mkDemo None 0) text r.
Proof.
  split; [exact wf_mode64 |]. split; [simpl; lia |]. split; [simpl; lia |].
  split; [reflexivity |]. split; [lia |].
  split; [lia |]. split; [lia |]. split; [lia |]. split; [lia |].
  split; [right; reflexivity |].
  apply (input_rub_out mode64 (mkDemo None 0) 65 127 0 300 wf_mode64);
    try reflexivity; simpl; lia.
Defined.

Lemma input_plays_script_witness :
  wf mode64 /\ cursor_ok mode64 /\ (13 = 10 \/ 13 = 13) /\
  Forall (fun c => 0 <= c < 256 /\ c <> 10 /\ c <> 13) [72; 0; 73] /\
  cursor mode64 + Z.of_nat (length (filter (fun c => c <> 0) [72; 0; 73]))
    < chars_len mode64 /\
  (length [72; 0; 73] < length (replicate 4 (mkTick 0 None)))%nat /\
  exists r1 s',
    _input None (replicate 4 (mkTick 0 None))
      (mkDemo (Some ([82; 13] ++ [72; 0; 73] ++ 13 :: [81])) 2) mode64
    = Ok (Returned [72; 73]
            (mkDemo (Some ([82; 13] ++ [72; 0; 73] ++ 13 :: [81])) 6), s') /\
    cursor r1 = 2 /\
    print [10] r1 = Ok (tt, s').
Proof.
  assert (Forall (fun c => 0 <= c < 256 /\ c <> 10 /\ c <> 13) [72; 0; 73])
    as Hseg by (repeat (apply Forall_cons_2; [lia |]); apply Forall_nil_2).
  assert (cursor mode64
          + Z.of_nat (length (filter (fun c => c <> 0) [72; 0; 73]))
          < chars_len mode64) as Hfit by (vm_compute; reflexivity).
  assert (length [72; 0; 73] < length (replicate 4 (mkTick 0 None)))%nat
    as Henv by (simpl; lia).
  split; [exact wf_mode64 |]. split; [exact cursor_ok_mode64 |].
  split; [right; reflexivity |]. split; [exact Hseg |].
  split; [exact Hfit |]. split; [exact Henv |].
  destruct (input_plays_script mode64 [82; 13] [72; 0; 73] [81] 13
              (replicate 4 (mkTick 0 None))
              wf_mode64 cursor_ok_mode64 (or_intror eq_refl) Hseg Hfit Henv)
    as (r1 & s' & E & C & _ & Ep).
  exists r1, s'. split; [exact E |]. split; [exact C | exact Ep].
Defined.

Lemma cursor_moves_wrap_witness :
  wf mode64 /\ cursor_ok mode64 /\ 24 <= 27 <= 29 /\
  exists p,
    print [27] mode64 = Ok (tt, with_cursor mode64 p) /\
    0 <= p < chars_len mode64 /\
    p / 64 = 15 /\ p mod 64 = 0.
Proof.
  split; [exact wf_mode64 |]. split; [exact cursor_ok_mode64 |].
  split; [lia |].
  exact (cursor_moves_wrap mode64 27 wf_mode64 cursor_ok_mode64 ltac:(lia)).
Defined.

Lemma long_text_scrolls_witness :
  wf (with_cursor mode64 1000) /\ cursor_ok (with_cursor mode64 1000) /\
  Forall is_plain (replicate 100 46) /\
  exists s',
    print (replicate 100 46) (with_cursor mode64 1000) = Ok (tt, s') /\
    cursor s' = 960 + 12 /\ Z.of_nat (scrolls s') = 2.
Proof.
  assert (cursor_ok (with_cursor mode64 1000)) as Hc
    by (unfold cursor_ok; simpl; lia).
  assert (Forall is_plain (replicate 100 46)) as Hp
    by (apply Forall_replicate; unfold is_plain; lia).
  split; [exact (wf_mode64_at 1000) |]. split; [exact Hc |].
  split; [exact Hp |].
  destruct (long_text_scrolls (replicate 100 46) (with_cursor mode64 1000)
              (wf_mode64_at 1000) Hc Hp) as (s' & E & _ & _ & Hcur & Hscr).
  exists s'. split; [exact E |]. split; [exact Hcur | exact Hscr].
Defined.

Lemma reset_many_clears_witness :
  wf mode64 /\
  Forall (fun p => 0 <= fst p < line_width mode64 * 2 /\
                   0 <= snd p < line_count mode64 * 3)
    [(0, 0); (1, 0); (127, 47)] /\
  exists s',
    for_each [(0, 0); (1, 0); (127, 47)] (fun p => reset (fst p) (snd p)) mode64
    = Ok (tt, s') /\
    cursor s' = cursor mode64 /\
    point 1 0 s' = Ok (false, s').
Proof.
  assert (Forall (fun p => 0 <= fst p < line_width mode64 * 2 /\
                           0 <= snd p < line_count mode64 * 3)
            [(0, 0); (1, 0); (127, 47)]) as Hps
    by (repeat (apply Forall_cons_2; [simpl; lia |]); apply Forall_nil_2).
  split; [exact wf_mode64 |]. split; [exact Hps |].
  destruct (reset_many_clears [(0, 0); (1, 0); (127, 47)] mode64 wf_mode64 Hps)
    as (s' & E & _ & _ & C & Hpt).
  exists s'. split; [exact E |]. split; [exact C |].
  destruct (Hpt 1 0 ltac:(simpl; lia) ltac:(simpl; lia)) as (v & _ & H).
  exact H.
Defined.

Lemma demo_2_fills_then_clears_witness :
  wf mode64 /\ line_width mode64 = 64 /\ line_count mode64 = 16 /\
  wf mode32 /\ line_width mode32 < 64 /\
  (exists s',
     demo_2 mode64 = Ok (tt, s') /\ cursor s' = cursor mode64 /\
     point 127 47 s' = Ok (false, s')) /\
  demo_2 mode32 = Raise AssertionError.
Proof.
  split; [exact wf_mode64 |]. split; [reflexivity |]. split; [reflexivity |].
  split; [exact wf_mode32 |]. split; [simpl; lia |].
  split.
  - destruct (proj1 (demo_2_fills_then_clears mode64 wf_mode64)
                eq_refl eq_refl) as (s' & E & _ & _ & C & Hpt).
    exists s'. split; [exact E |]. split; [exact C |]. apply Hpt; lia.
  - apply (proj2 (demo_2_fills_then_clears mode32 wf_mode32)). simpl. lia.
Defined.

Lemma demo_4_draws_rays_witness :
  wf mode64 /\ line_width mode64 = 64 /\ line_count mode64 = 16 /\
  exists s',
    demo_4 mode64 = Ok (tt, s') /\
    point 64 24 s' = Ok (true, s') /\
    point 0 0 s' = Ok (true, s') /\
    point 127 47 s' = Ok (true, s').
Proof.
  split; [exact wf_mode64 |]. split; [reflexivity |]. split; [reflexivity |].
  destruct (demo_4_draws_rays mode64 wf_mode64 eq_refl eq_refl)
    as (s' & E & _ & _ & Pc & Htb & _).
  exists s'. split; [exact E |]. split; [exact Pc |].
  split; [exact (proj1 (Htb 0 ltac:(lia))) | exact (proj2 (Htb 0 ltac:(lia)))].
Defined.
